(** * Agent-LLM: the agent persistence layer ([Config/Agent.py])

    A shallow embedding of the [Agent] class: the per-agent configuration
    document ([agents/<name>/config.json]), the interaction log
    ([agents/<name>.yaml]), the memories folder and the discovery of command
    plugins; followed by the properties of these operations.

    Layout of the development:
    - [Py]      Python values (the JSON/YAML data model), dictionaries, [str.strip];
    - [OsPath]  [os.path.join], [os.path.abspath] and path resolution;
    - the file store and the [os]/[shutil] calls the class makes;
    - the [json] and [yaml] libraries as interfaces with their laws;
    - [AgentClass], the methods of [Agent];
    - [Layout], [Flow] (an implementation of the two library interfaces)
      and [Examples] (concrete worlds);
    - the facts about paths, the store and dictionaries, and the properties
      of the methods;
    - the laws of [Flow], and the methods run on the concrete worlds. *)

From Stdlib Require Import ZArith Lia List Ascii String Bool DecimalPos.
From stdpp Require Import base option list strings gmap.

Local Open Scope string_scope.
Local Open Scope list_scope.

(* ===================================================================== *)
(** * Python values *)
(* ===================================================================== *)

Module Py.

(** The values that [json] and [yaml.safe_*] exchange with the program.
    A [float] is kept as its decimal literal [m * 10^e]; a [dict] keeps its
    insertion order, as Python's does, and has [str] keys. *)
Unset Elimination Schemes.
Inductive pyval : Type :=
  | PNone
  | PBool (b : bool)
  | PInt (z : Z)
  | PFloat (m e : Z)
  | PStr (s : string)
  | PList (l : list pyval)
  | PDict (d : list (string * pyval)).
Set Elimination Schemes.

Abbreviation pydict := (list (string * pyval)).

(** [d[k]] (as an option: [None] is Python's [KeyError]). *)
Fixpoint dict_get (k : string) (d : pydict) : option pyval :=
  match d with
  | [] => None
  | (k', v) :: d' => if String.eqb k k' then Some v else dict_get k d'
  end.

(** [k in d] *)
Definition dict_mem (k : string) (d : pydict) : bool :=
  match dict_get k d with Some _ => true | None => false end.

(** [d[k] = v]: an existing key keeps its place, a new key goes last. *)
Fixpoint dict_set (k : string) (v : pyval) (d : pydict) : pydict :=
  match d with
  | [] => [(k, v)]
  | (k', v') :: d' =>
      if String.eqb k k' then (k, v) :: d' else (k', v') :: dict_set k v d'
  end.

(** [d.update(new)]: the items of [new] are assigned in order. *)
Definition dict_update (d new : pydict) : pydict :=
  fold_left (fun acc kv => dict_set (fst kv) (snd kv) acc) new d.

(** [{k: v for ...}] and [dict(...)] from a sequence of items. *)
Definition dict_of_items (items : pydict) : pydict := dict_update [] items.

Definition dict_keys (d : pydict) : list string := map fst d.

(** No key occurs twice. *)
Fixpoint distinct (ks : list string) : bool :=
  match ks with
  | [] => true
  | k :: ks' => negb (existsb (String.eqb k) ks') && distinct ks'
  end.

(** The values a Python program can hold: every dictionary, at every depth,
    has distinct keys. *)
Fixpoint wf (v : pyval) : bool :=
  match v with
  | PList l => forallb wf l
  | PDict d =>
      distinct (map fst d) &&
      (fix wf_items (d : pydict) : bool :=
         match d with
         | [] => true
         | (_, x) :: d' => wf x && wf_items d'
         end) d
  | _ => true
  end.

Definition wf_items (d : pydict) : bool := forallb (fun kv => wf (snd kv)) d.

(** ** [str.strip()] *)

(** [str.isspace] on one character (code points below 256). *)
Definition isspace (c : ascii) : bool :=
  let n := nat_of_ascii c in
  (((9 <=? n) && (n <=? 13)) || ((28 <=? n) && (n <=? 32))
   || (n =? 133) || (n =? 160))%nat.

Fixpoint lstrip (s : string) : string :=
  match s with
  | EmptyString => EmptyString
  | String c r => if isspace c then lstrip r else s
  end.

Fixpoint rstrip (s : string) : string :=
  match s with
  | EmptyString => EmptyString
  | String c r =>
      match rstrip r with
      | EmptyString => if isspace c then EmptyString else String c EmptyString
      | r' => String c r'
      end
  end.

Definition strip (s : string) : string := rstrip (lstrip s).

(** The truth value of a [str]: [if s:] *)
Definition nonempty (s : string) : bool :=
  match s with EmptyString => false | _ => true end.

(** ** Universal newlines *)

Definition CR : ascii := ascii_of_nat 13.
Definition LF : ascii := ascii_of_nat 10.

(** What [read()] on a file opened in text mode returns for the characters
    of the file: [\r\n] and a [\r] alone are read as [\n]. *)
Fixpoint newlines (s : string) : string :=
  match s with
  | EmptyString => EmptyString
  | String c r =>
      if Ascii.eqb c CR then
        String LF
          match r with
          | String c' r' => if Ascii.eqb c' LF then newlines r' else newlines r
          | EmptyString => EmptyString
          end
      else String c (newlines r)
  end.

End Py.
Export Py.

(* ===================================================================== *)
(** * Paths *)
(* ===================================================================== *)

Module OsPath.

Definition slash : ascii := "/"%char.

(** [s.split("/")] *)
Fixpoint split_slash (s : string) : list string :=
  match s with
  | EmptyString => [EmptyString]
  | String c r =>
      if Ascii.eqb c slash then EmptyString :: split_slash r
      else match split_slash r with
           | [] => [String c EmptyString]
           | h :: t => String c h :: t
           end
  end.

Definition startswith_slash (s : string) : bool :=
  match s with String c _ => Ascii.eqb c slash | EmptyString => false end.

Fixpoint endswith_slash (s : string) : bool :=
  match s with
  | EmptyString => false
  | String c EmptyString => Ascii.eqb c slash
  | String _ r => endswith_slash r
  end.

(** [os.path.join(a, b)] ([posixpath]): an absolute [b] discards [a]. *)
Definition join (a b : string) : string :=
  if startswith_slash b then b
  else if negb (nonempty a) || endswith_slash a then a +:+ b
  else a +:+ "/" +:+ b.

(** A location in the store: the names from the root down. *)
Abbreviation location := (list string).

(** One step of [os.path.normpath] on the names collected so far: empty
    names and [.] are dropped, [..] removes the last name (and stays at the
    root). *)
Definition norm_step (acc : location) (c : string) : location :=
  if String.eqb c "" || String.eqb c "." then acc
  else if String.eqb c ".." then removelast acc
  else acc ++ [c].

Definition normalise (cs : list string) : location := fold_left norm_step cs [].

(** The location a path string denotes for a process whose working
    directory is [cwd]: a relative path is taken from [cwd]; [..] is
    resolved as [normpath] does (there are no symbolic links). *)
Definition resolve (cwd p : string) : location :=
  normalise (split_slash (if startswith_slash p then p else cwd +:+ "/" +:+ p)).

(** The absolute path string of a location. *)
Fixpoint render (l : location) : string :=
  match l with
  | [] => ""
  | c :: l' => "/" +:+ c +:+ render l'
  end.

Definition path_of (l : location) : string :=
  match l with [] => "/" | _ => render l end.

(** [os.path.abspath(p)] *)
Definition abspath (cwd p : string) : string := path_of (resolve cwd p).

Fixpoint has_slash (s : string) : bool :=
  match s with
  | EmptyString => false
  | String c r => Ascii.eqb c slash || has_slash r
  end.

(** A name that stays one name in every path built from it: a plain file
    name. *)
Definition plain (n : string) : bool :=
  negb (has_slash n) && negb (String.eqb n "") && negb (String.eqb n ".")
  && negb (String.eqb n "..").

End OsPath.

(* ===================================================================== *)
(** * The world the class runs in *)
(* ===================================================================== *)

(** ** Exceptions and outcomes *)

Inductive exn : Type :=
  | FileNotFoundError
  | IsADirectoryError
  | NotADirectoryError
  | FileExistsError
  | JSONDecodeError
  | YAMLError
  | ImportError
  | KeyError
  | TypeError
  | AttributeError.

Definition exn_eqb (a b : exn) : bool :=
  match a, b with
  | FileNotFoundError, FileNotFoundError
  | IsADirectoryError, IsADirectoryError
  | NotADirectoryError, NotADirectoryError
  | FileExistsError, FileExistsError
  | JSONDecodeError, JSONDecodeError
  | YAMLError, YAMLError
  | ImportError, ImportError
  | KeyError, KeyError
  | TypeError, TypeError
  | AttributeError, AttributeError => true
  | _, _ => false
  end.

(** What a call does: it returns, raises, or is still running when the
    fuel given to a [while True] loop is used up. *)
Inductive result (A : Type) : Type :=
  | Ret (a : A)
  | Raise (e : exn)
  | OutOfFuel.
Arguments Ret {A} a.
Arguments Raise {A} e.
Arguments OutOfFuel {A}.

(** ** The file store *)

Inductive node : Type :=
  | File (data : string)
  | Dir.

(** ** Command plugins *)

(** A command function as [inspect.signature] and [__name__] show it: each
    formal parameter with its default, [None] standing for
    [Parameter.empty]. *)
Record func : Type := {
  func_name : string;
  parameters : list (string * option pyval)
}.

(** The object [getattr(module, name.lower())()] returns; [obj_commands] is
    [None] when it has no [commands] attribute, else the items of the
    mapping. *)
Record plugin_object : Type := {
  obj_commands : option (list (string * func))
}.

(** One file matched by [glob.glob("commands/*.py")]: its stem and what
    importing and instantiating it gives. *)
Record command_file : Type := {
  stem : string;
  instantiate : exn + plugin_object
}.

(** ** The agent object

    The attributes the modelled methods read or assign. *)
Record Agent : Type := {
  AGENT_NAME : string;
  memory_file : string;
  memory : pyval
}.

(** ** The world: the working directory of the process, the file store
    (entries by location), the plugin directory [commands/] as [glob] lists
    it and as [importlib] loads it, and the object the methods are called
    on. No method of the class writes to [commands/] for an agent name that
    is a plain file name, so the plugin directory is kept apart from
    [disk]. *)
Record world : Type := {
  cwd : string;
  disk : gmap (list string) node;
  plugin_dir : list command_file;
  this : Agent
}.

Definition set_disk (d : gmap (list string) node) (w : world) : world :=
  {| cwd := cwd w; disk := d; plugin_dir := plugin_dir w; this := this w |}.

Definition set_memory (m : pyval) (w : world) : world :=
  {| cwd := cwd w; disk := disk w; plugin_dir := plugin_dir w;
     this := {| AGENT_NAME := AGENT_NAME (this w);
                memory_file := memory_file (this w);
                memory := m |} |}.

(** ** The monad of the methods: state and exceptions *)

Definition M (A : Type) : Type := world -> world * result A.

#[export] Instance M_ret : MRet M := fun A a w => (w, Ret a).

#[export] Instance M_bind : MBind M := fun A B f m w =>
  match m w with
  | (w', Ret a) => f a w'
  | (w', Raise e) => (w', Raise e)
  | (w', OutOfFuel) => (w', OutOfFuel)
  end.

Definition raise {A} (e : exn) : M A := fun w => (w, Raise e).

Definition get_world : M world := fun w => (w, Ret w).

Definition put_disk (d : gmap (list string) node) : M unit :=
  fun w => (set_disk d w, Ret tt).

(** [try: m  except e: h] *)
Definition try_except {A} (m : M A) (e : exn) (h : M A) : M A := fun w =>
  match m w with
  | (w', Raise e') => if exn_eqb e e' then h w' else (w', Raise e')
  | r => r
  end.

(** [if c: m] *)
Definition when (c : bool) (m : M unit) : M unit := if c then m else mret tt.

(** ** The [os], [shutil] and [open] calls

    Every call resolves its path string to a location first. A file holds
    the characters written to it; reading is in text mode. An entry that
    is not in the store is reported as [FileNotFoundError], or as
    [NotADirectoryError] when a regular file stands on the way to it. *)

Module Os.
Import OsPath.

(** [os.path.abspath(p)] *)
Definition path_abspath (p : string) : M string :=
  w ← get_world; mret (abspath (cwd w) p).

(** [os.path.exists(p)] *)
Definition path_exists (p : string) : M bool :=
  w ← get_world;
  mret (match disk w !! resolve (cwd w) p with Some _ => true | None => false end).

(** The locations on the way to [l]: [[]; [a]; [a; b]; ...; l]. *)
Fixpoint inits (l : location) : list location :=
  match l with
  | [] => [[]]
  | c :: l' => [] :: map (cons c) (inits l')
  end.

Definition is_file (d : gmap (list string) node) (l : location) : bool :=
  match d !! l with Some (File _) => true | _ => false end.

(** What a call raises for the location [l] when there is no entry to
    reach: [ENOTDIR] when a regular file stands on the way, else
    [ENOENT]. *)
Definition missing (d : gmap (list string) node) (l : location) : exn :=
  if existsb (is_file d) (inits l) then NotADirectoryError else FileNotFoundError.

(** [with open(p, "r") as f: f.read()] *)
Definition read_text (p : string) : M string :=
  w ← get_world;
  let l := resolve (cwd w) p in
  match disk w !! l with
  | Some (File data) => mret (newlines data)
  | Some Dir => raise IsADirectoryError
  | None => raise (missing (disk w) l)
  end.

Definition parent (l : location) : location := removelast l.

(** [with open(p, "w") as f: f.write(data)]: the file is created in an
    existing directory, or replaced. *)
Definition write_text (p data : string) : M unit :=
  w ← get_world;
  let l := resolve (cwd w) p in
  match disk w !! l with
  | Some Dir => raise IsADirectoryError
  | Some (File _) => put_disk (<[l := File data]> (disk w))
  | None =>
      match l with
      | [] => raise IsADirectoryError
      | _ =>
          match disk w !! parent l with
          | Some Dir => put_disk (<[l := File data]> (disk w))
          | Some (File _) => raise NotADirectoryError
          | None => raise (missing (disk w) (parent l))
          end
      end
  end.

Definition mkdirs (d : gmap (list string) node) (l : location)
  : gmap (list string) node :=
  fold_right (fun q m => <[q := Dir]> m) d (inits l).

(** [os.makedirs(p)] (with [exist_ok=False]): all missing directories on
    the way are created. *)
Definition makedirs (p : string) : M unit :=
  w ← get_world;
  let l := resolve (cwd w) p in
  match disk w !! l with
  | Some _ => raise FileExistsError
  | None =>
      if existsb (is_file (disk w)) (inits l) then raise NotADirectoryError
      else put_disk (mkdirs (disk w) l)
  end.

(** [os.remove(p)] *)
Definition remove (p : string) : M unit :=
  w ← get_world;
  let l := resolve (cwd w) p in
  match disk w !! l with
  | Some (File _) => put_disk (delete l (disk w))
  | Some Dir => raise IsADirectoryError
  | None => raise (missing (disk w) l)
  end.

(** [shutil.rmtree(p)]: the directory and everything below it. *)
Definition rmtree (p : string) : M unit :=
  w ← get_world;
  let l := resolve (cwd w) p in
  match disk w !! l with
  | Some Dir =>
      put_disk (filter (fun kv => ~ l `prefix_of` fst kv) (disk w))
  | Some (File _) => raise NotADirectoryError
  | None => raise (missing (disk w) l)
  end.

End Os.

(* ===================================================================== *)
(** * The [json] and [yaml] libraries *)
(* ===================================================================== *)

(** [json.dumps] and [json.loads] ([json.dump] and [json.load] are the same
    through a file object), with what the class relies on: a value that was
    dumped loads back, the text of a dump has no white space around it and
    is not empty, and the empty text is not a document. A text that does
    not parse ([json.JSONDecodeError]) loads as [None]. How the lines of a
    text end does not matter to [json.loads]: a line end is white space
    between tokens, and none is allowed inside a string. *)
Class JsonLib : Type := {
  json_dumps : pyval -> string;
  json_loads : string -> option pyval;
  json_loads_dumps : forall v, wf v = true -> json_loads (json_dumps v) = Some v;
  json_dumps_strip : forall v, strip (json_dumps v) = json_dumps v;
  json_loads_empty : json_loads "" = None;
  json_loads_wf : forall s v, json_loads s = Some v -> wf v = true;
  json_loads_newlines : forall s, json_loads (newlines s) = json_loads s
}.

(** [yaml.safe_dump] and [yaml.safe_load]. The loader takes [\r\n], [\r]
    and [\n] as the same line break, and the dumper ends its lines with
    [\n] and writes a carriage return of a string as an escape. *)
Class YamlLib : Type := {
  yaml_safe_dump : pyval -> string;
  yaml_safe_load : string -> option pyval;
  yaml_load_dump : forall v, wf v = true -> yaml_safe_load (yaml_safe_dump v) = Some v;
  yaml_load_wf : forall s v, yaml_safe_load s = Some v -> wf v = true;
  yaml_load_newlines : forall s, yaml_safe_load (newlines s) = yaml_safe_load s;
  yaml_dump_newlines : forall v, newlines (yaml_safe_dump v) = yaml_safe_dump v
}.

(* ===================================================================== *)
(** * The methods of [Agent] *)
(* ===================================================================== *)

(** The outcome of one pass through the body of a [while True] loop. *)
Inductive loop (A : Type) : Type :=
  | Break (a : A)
  | Continue.
Arguments Break {A} a.
Arguments Continue {A}.

(** An entry of the command catalog:
    [(command_name, command_function.__name__, params)]. *)
Definition catalog_entry : Type := string * string * pydict.

Module AgentClass.
Import OsPath.

Section Methods.
Context `{JsonLib} `{YamlLib}.

Definition self : M Agent := w ← get_world; mret (this w).

(** [create_agent_folder] *)
Definition create_agent_folder (agent_name : string) : M string :=
  let agent_folder := "agents/" +:+ agent_name in
  b ← Os.path_exists "agents";
  when (negb b) (Os.makedirs "agents");;
  b ← Os.path_exists agent_folder;
  when (negb b) (Os.makedirs agent_folder);;
  mret agent_folder.

(** [get_command_params]: a parameter without default is recorded as
    [None], the others with their default. *)
Definition get_command_params (f : func) : pydict :=
  fold_left
    (fun params p =>
       dict_set (fst p) (match snd p with None => PNone | Some d => d end) params)
    (parameters f) [].

(** The inner loop of [load_commands] over [command_class.commands.items()]. *)
Definition append_commands (items : list (string * func))
    (commands : list catalog_entry) : list catalog_entry :=
  fold_left
    (fun commands item =>
       let params := get_command_params (snd item) in
       commands ++ [(fst item, func_name (snd item), params)])
    items commands.

(** The outer loop of [load_commands] over the command files. *)
Fixpoint load_commands_loop (files : list command_file)
    (commands : list catalog_entry) : M (list catalog_entry) :=
  match files with
  | [] => mret commands
  | command_file :: files' =>
      match instantiate command_file with
      | inl e => raise e
      | inr command_class =>
          match obj_commands command_class with
          | Some items => load_commands_loop files' (append_commands items commands)
          | None => load_commands_loop files' commands
          end
      end
  end.

(** [load_commands] *)
Definition load_commands : M (list catalog_entry) :=
  w ← get_world;
  load_commands_loop (plugin_dir w) [].

(** [create_agent_config_file] *)
Definition create_agent_config_file (agent_name : string)
    (provider_settings : pyval) (commands : pydict) : M string :=
  let agent_dir := join "agents" agent_name in
  let agent_config_file := join agent_dir "config.json" in
  let settings :=
    json_dumps (PDict [("commands", PDict commands);
                       ("settings", provider_settings)]) in
  b ← Os.path_exists agent_dir;
  when (negb b) (Os.makedirs agent_dir);;
  Os.write_text agent_config_file settings;;
  mret agent_config_file.

(** The [command_dict] that [add_agent] builds: every catalog command,
    by its friendly name, set to [False]. *)
Definition command_dict_of (commands_list : list catalog_entry) : pydict :=
  fold_left
    (fun command_dict command =>
       let '(friendly_name, command_name, command_args) := command in
       dict_set friendly_name (PBool false) command_dict)
    commands_list [].

(** [add_agent] *)
Definition add_agent (agent_name : string) (provider_settings : pyval)
  : M pyval :=
  agent_folder ← create_agent_folder agent_name;
  commands_list ← load_commands;
  let command_dict := command_dict_of commands_list in
  agent_config ← create_agent_config_file agent_name provider_settings command_dict;
  mret (PDict [("agent_file", PStr (agent_name +:+ ".yaml"))]).

(** [json.loads(text)] as a call. *)
Definition loads (text : string) : M pyval :=
  match json_loads text with
  | Some v => mret v
  | None => raise JSONDecodeError
  end.

(** The body of the [while True] loop of [get_agent_config]. *)
Definition get_agent_config_body : M (loop pyval) :=
  me ← self;
  agent_file ← Os.path_abspath ("agents/" +:+ AGENT_NAME me +:+ "/config.json");
  b ← Os.path_exists agent_file;
  if (b : bool) return M (loop pyval) then
    content ← Os.read_text agent_file;
    let file_content := strip content in
    if nonempty file_content return M (loop pyval) then
      agent_config ← loads file_content;
      mret (Break agent_config)
    else
      add_agent (AGENT_NAME me) (PDict []);;
      mret Continue
  else
    add_agent (AGENT_NAME me) (PDict []);;
    mret Continue.

(** [get_agent_config]: the loop has no bound of its own; [fuel] is the
    number of passes the model follows. *)
Fixpoint get_agent_config (fuel : nat) : M pyval :=
  match fuel with
  | O => fun w => (w, OutOfFuel)
  | S fuel' =>
      r ← get_agent_config_body;
      match (r : loop pyval) with
      | Break agent_config => mret agent_config
      | Continue => get_agent_config fuel'
      end
  end.

(** [update_agent_config] *)
Definition update_agent_config (new_config : pydict) : M string :=
  me ← self;
  let agent_name := AGENT_NAME me in
  let agent_config_file := join (join "agents" agent_name) "config.json" in
  b ← Os.path_exists agent_config_file;
  if (b : bool) return M string then
    text ← Os.read_text agent_config_file;
    current_config ← loads text;
    match (current_config : pyval) with
    | PDict d =>
        let d :=
          if negb (dict_mem "settings" d) then dict_set "settings" (PDict []) d
          else d in
        match dict_get "settings" d with
        | Some (PDict settings) =>
            let d := dict_set "settings" (PDict (dict_update settings new_config)) d in
            Os.write_text agent_config_file (json_dumps (PDict d));;
            mret ("Agent " +:+ agent_name +:+ " configuration updated.")
        | Some _ => raise AttributeError
        | None => raise KeyError
        end
    | _ => raise TypeError
    end
  else
    mret ("Agent " +:+ agent_name +:+ " configuration not found.").

(** [delete_agent] *)
Definition delete_agent (agent_name : string) : M (pyval * Z) :=
  agent_file ← Os.path_abspath ("agents/" +:+ agent_name +:+ ".yaml");
  agent_folder ← Os.path_abspath ("agents/" +:+ agent_name +:+ "/");
  missing ← try_except
    (Os.remove agent_file;; mret None)
    FileNotFoundError
    (mret (Some (PDict [("message",
                         PStr ("Agent file " +:+ agent_file +:+ " not found."))],
                 404%Z)));
  match (missing : option (pyval * Z)) with
  | Some not_found => mret not_found
  | None =>
      b ← Os.path_exists agent_folder;
      when b (Os.rmtree agent_folder);;
      mret (PDict [("message", PStr ("Agent " +:+ agent_name +:+ " deleted."))],
            200%Z)
  end.

(** [get_chat_history] *)
Definition get_chat_history (agent_name : string) : M string :=
  b ← Os.path_exists (join "agents" (agent_name +:+ ".yaml"));
  if negb (b : bool) return M string then mret ""
  else
    chat_history ← Os.read_text (join "agents" (agent_name +:+ ".yaml"));
    mret chat_history.

(** [wipe_agent_memories] *)
Definition wipe_agent_memories (agent_name : string) : M unit :=
  agent_folder ← Os.path_abspath ("agents/" +:+ agent_name +:+ "/");
  let memories_folder := join agent_folder "memories" in
  b ← Os.path_exists memories_folder;
  when b (Os.rmtree memories_folder).

(** [load_memory] *)
Definition load_memory : M pyval :=
  me ← self;
  b ← Os.path_exists (memory_file me);
  if (b : bool) return M pyval then
    text ← Os.read_text (memory_file me);
    match yaml_safe_load text with
    | Some memory => mret memory
    | None => raise YAMLError
    end
  else
    Os.write_text (memory_file me) (yaml_safe_dump (PDict [("interactions", PList [])]));;
    mret (PDict [("interactions", PList [])]).

(** [save_memory] *)
Definition save_memory : M unit :=
  me ← self;
  Os.write_text (memory_file me) (yaml_safe_dump (memory me)).

(** [self.memory["interactions"].append(record)] *)
Definition append_interaction (record : pyval) : M unit :=
  me ← self;
  match memory me with
  | PDict d =>
      match dict_get "interactions" d with
      | Some (PList l) =>
          fun w => (set_memory (PDict (dict_set "interactions" (PList (l ++ [record])) d)) w,
                    Ret tt)
      | Some _ => raise AttributeError
      | None => raise KeyError
      end
  | _ => raise TypeError
  end.

(** [{"role": role, "message": message}] *)
Definition interaction_record (role message : string) : pyval :=
  PDict [("role", PStr role); ("message", PStr message)].

(** [log_interaction] *)
Definition log_interaction (role message : string) : M unit :=
  append_interaction (interaction_record role message);;
  save_memory.

(** [self.memory = self.load_memory()], the statement of [__init__] that
    sets up the memory store of the object. *)
Definition init_memory : M unit :=
  memory ← load_memory;
  ((fun w => (set_memory memory w, Ret tt)) : M unit).

(** A caller that logs a sequence of interactions, one [log_interaction]
    call for each [(role, message)]. *)
Fixpoint log_interactions (calls : list (string * string)) : M unit :=
  match calls with
  | [] => mret tt
  | (role, message) :: calls' =>
      log_interaction role message;;
      log_interactions calls'
  end.

End Methods.
End AgentClass.

(* ===================================================================== *)
(** * Where an agent's files are *)
(* ===================================================================== *)

(** The locations of the artifacts of the agent named [n], for a process in
    [cwd], when [n] is a plain file name. *)
Module Layout.
Import OsPath.

Definition agents_dir (cwd : string) : location := resolve cwd "agents".
Definition agent_folder (cwd n : string) : location := agents_dir cwd ++ [n].
Definition config_file (cwd n : string) : location :=
  agents_dir cwd ++ [n; "config.json"].
Definition log_file (cwd n : string) : location :=
  agents_dir cwd ++ [n +:+ ".yaml"].
Definition memories_folder (cwd n : string) : location :=
  agents_dir cwd ++ [n; "memories"].

(** The store is a tree: whatever is in it lies in a directory of it. *)
Definition is_tree (d : gmap (list string) node) : Prop :=
  map_Forall (fun l _ => l = [] \/ d !! removelast l = Some Dir) d.

(** The document [add_agent(name, {})] writes for a catalog. *)
Definition fresh_config (commands_list : list catalog_entry) : pyval :=
  PDict [("commands", PDict (AgentClass.command_dict_of commands_list));
         ("settings", PDict [])].

(** The catalog entry of one item of a [commands] mapping. *)
Definition entry_of (item : string * func) : catalog_entry :=
  (fst item, func_name (snd item), AgentClass.get_command_params (snd item)).

(** The settings a configuration document has before an update: its
    [settings] dictionary, or none, which the update takes as empty. *)
Definition settings_before (cfg dflt : pydict) : Prop :=
  dict_get "settings" cfg = Some (PDict dflt) \/
  (dict_get "settings" cfg = None /\ dflt = []).

(** The location of the memory file of the object. *)
Definition memory_location (w : world) : list string :=
  resolve (cwd w) (memory_file (this w)).

(** The memory file holds a document that loads as the memory of the
    object. *)
Definition memory_saved `{YamlLib} (w : world) : Prop :=
  exists text,
    disk w !! memory_location w = Some (File text) /\
    yaml_safe_load text = Some (memory (this w)) /\
    wf (memory (this w)) = true.

End Layout.

(* ===================================================================== *)
(** * [Flow]: an implementation of the two library interfaces *)
(* ===================================================================== *)

(** The JSON text format, written the way [json.dumps] writes it ([", "]
    and [": "] as separators, non-ASCII and control characters escaped) and
    read back by a recursive-descent parser. Two things differ from
    CPython: a [float] is written, and read, in exponent form only ([4e-1]
    for [0.4]), and characters are the code points below 256. The same
    format is a YAML flow document, and serves for [yaml] too. *)
Module Flow.

Definition dq : ascii := ascii_of_nat 34.
Definition bs : ascii := ascii_of_nat 92.

(** ** Writing *)

Fixpoint print_uint (u : Decimal.uint) : string :=
  match u with
  | Decimal.Nil => ""
  | Decimal.D0 u => String "0" (print_uint u)
  | Decimal.D1 u => String "1" (print_uint u)
  | Decimal.D2 u => String "2" (print_uint u)
  | Decimal.D3 u => String "3" (print_uint u)
  | Decimal.D4 u => String "4" (print_uint u)
  | Decimal.D5 u => String "5" (print_uint u)
  | Decimal.D6 u => String "6" (print_uint u)
  | Decimal.D7 u => String "7" (print_uint u)
  | Decimal.D8 u => String "8" (print_uint u)
  | Decimal.D9 u => String "9" (print_uint u)
  end.

Definition print_Z (z : Z) : string :=
  match z with
  | Z0 => "0"
  | Zpos p => print_uint (Pos.to_uint p)
  | Zneg p => String "-" (print_uint (Pos.to_uint p))
  end.

Definition hex_digit (n : N) : ascii :=
  match n with
  | 0 => "0" | 1 => "1" | 2 => "2" | 3 => "3" | 4 => "4" | 5 => "5"
  | 6 => "6" | 7 => "7" | 8 => "8" | 9 => "9" | 10 => "a" | 11 => "b"
  | 12 => "c" | 13 => "d" | 14 => "e" | _ => "f"
  end%N%char.

(** One character of a string literal. *)
Definition escape_char (c : ascii) : string :=
  let n := N_of_ascii c in
  if (n =? 34)%N then String bs (String dq "")
  else if (n =? 92)%N then String bs (String bs "")
  else if (n =? 10)%N then String bs "n"
  else if (n =? 13)%N then String bs "r"
  else if (n =? 9)%N then String bs "t"
  else if (n =? 8)%N then String bs "b"
  else if (n =? 12)%N then String bs "f"
  else if (n <? 32)%N || (128 <=? n)%N then
    String bs (String "u" (String "0" (String "0"
      (String (hex_digit (n / 16)) (String (hex_digit (n mod 16)) "")))))
  else String c "".

Fixpoint escape (s : string) : string :=
  match s with
  | EmptyString => ""
  | String c r => escape_char c +:+ escape r
  end.

Definition print_str (s : string) : string :=
  String dq (escape s +:+ String dq "").

(** A bracketed sequence: the items separated by [", "], then the closing
    bracket. *)
Fixpoint print_seq {A} (pr : A -> string) (close : string) (l : list A) : string :=
  match l with
  | [] => close
  | [x] => pr x +:+ close
  | x :: l' => pr x +:+ ", " +:+ print_seq pr close l'
  end.

Fixpoint print (v : pyval) : string :=
  match v with
  | PNone => "null"
  | PBool true => "true"
  | PBool false => "false"
  | PInt z => print_Z z
  | PFloat m e => print_Z m +:+ "e" +:+ print_Z e
  | PStr s => print_str s
  | PList l => "[" +:+ print_seq print "]" l
  | PDict d =>
      "{" +:+ print_seq (fun kx => let '(k, x) := kx in print_str k +:+ ": " +:+ print x)
                        "}" d
  end.

(** ** Reading *)

Definition is_ws (c : ascii) : bool :=
  let n := N_of_ascii c in
  ((n =? 32) || (n =? 9) || (n =? 10) || (n =? 13))%N.

Fixpoint skip_ws (s : string) : string :=
  match s with
  | EmptyString => ""
  | String c r => if is_ws c then skip_ws r else s
  end.

Definition digit_of (c : ascii) : option (Decimal.uint -> Decimal.uint) :=
  match N_of_ascii c with
  | 48 => Some Decimal.D0 | 49 => Some Decimal.D1 | 50 => Some Decimal.D2
  | 51 => Some Decimal.D3 | 52 => Some Decimal.D4 | 53 => Some Decimal.D5
  | 54 => Some Decimal.D6 | 55 => Some Decimal.D7 | 56 => Some Decimal.D8
  | 57 => Some Decimal.D9 | _ => None
  end%N.

(** The digits a text starts with, and the rest. *)
Fixpoint parse_uint (s : string) : Decimal.uint * string :=
  match s with
  | EmptyString => (Decimal.Nil, "")
  | String c r =>
      match digit_of c with
      | Some k => let (u, r') := parse_uint r in (k u, r')
      | None => (Decimal.Nil, s)
      end
  end.

(** An integer: an optional sign and at least one digit. *)
Definition parse_Z (s : string) : option (Z * string) :=
  match s with
  | String c r =>
      if (N_of_ascii c =? 45)%N then
        match parse_uint r with
        | (Decimal.Nil, _) => None
        | (u, r') => Some (Z.opp (Z.of_N (N.of_uint u)), r')
        end
      else
        match parse_uint s with
        | (Decimal.Nil, _) => None
        | (u, r') => Some (Z.of_N (N.of_uint u), r')
        end
  | EmptyString => None
  end.

(** A number: an integer, made a float by an exponent. *)
Definition parse_number (s : string) : option (pyval * string) :=
  match parse_Z s with
  | Some (m, String c r) =>
      if (N_of_ascii c =? 101)%N then
        match parse_Z r with
        | Some (e, r') => Some (PFloat m e, r')
        | None => None
        end
      else Some (PInt m, String c r)
  | Some (m, EmptyString) => Some (PInt m, "")
  | None => None
  end.

Definition hex_val (c : ascii) : option N :=
  let n := N_of_ascii c in
  if (48 <=? n)%N && (n <=? 57)%N then Some (n - 48)%N
  else if (97 <=? n)%N && (n <=? 102)%N then Some (n - 87)%N
  else if (65 <=? n)%N && (n <=? 70)%N then Some (n - 55)%N
  else None.

Definition hex4 (a b c d : ascii) : option ascii :=
  match hex_val a, hex_val b, hex_val c, hex_val d with
  | Some x, Some y, Some z, Some t =>
      let n := (((x * 16 + y) * 16 + z) * 16 + t)%N in
      if (n <? 256)%N then Some (ascii_of_N n) else None
  | _, _, _, _ => None
  end.

Definition cons_char (c : ascii) (r : option (string * string))
  : option (string * string) :=
  match r with
  | Some (s, rest) => Some (String c s, rest)
  | None => None
  end.

(** The characters of a string literal after its opening quote, up to the
    closing one. *)
Fixpoint parse_chars (s : string) : option (string * string) :=
  match s with
  | EmptyString => None
  | String c r =>
      let n := N_of_ascii c in
      if (n =? 34)%N then Some ("", r)
      else if (n =? 92)%N then
        match r with
        | String e r2 =>
            let m := N_of_ascii e in
            if (m =? 34)%N then cons_char dq (parse_chars r2)
            else if (m =? 92)%N then cons_char bs (parse_chars r2)
            else if (m =? 47)%N then cons_char "/" (parse_chars r2)
            else if (m =? 110)%N then cons_char "010" (parse_chars r2)
            else if (m =? 114)%N then cons_char "013" (parse_chars r2)
            else if (m =? 116)%N then cons_char "009" (parse_chars r2)
            else if (m =? 98)%N then cons_char "008" (parse_chars r2)
            else if (m =? 102)%N then cons_char "012" (parse_chars r2)
            else if (m =? 117)%N then
              match r2 with
              | String h1 (String h2 (String h3 (String h4 r3))) =>
                  match hex4 h1 h2 h3 h4 with
                  | Some x => cons_char x (parse_chars r3)
                  | None => None
                  end
              | _ => None
              end
            else None
        | EmptyString => None
        end
      else if (n <? 32)%N then None
      else cons_char c (parse_chars r)
  end.

Definition parse_str (s : string) : option (string * string) :=
  match s with
  | String c r => if (N_of_ascii c =? 34)%N then parse_chars r else None
  | EmptyString => None
  end.

(** [lit] at the start of [s]: the rest of [s]. *)
Fixpoint expect (lit s : string) : option string :=
  match lit, s with
  | EmptyString, _ => Some s
  | String a lit', String b s' => if Ascii.eqb a b then expect lit' s' else None
  | _, _ => None
  end.

(** A value at the start of [s], and the rest. [fuel] bounds the nesting
    and the number of items; the length of the text is enough. *)
Fixpoint parse_value (fuel : nat) (s : string) : option (pyval * string) :=
  match fuel with
  | O => None
  | S fuel' =>
      match s with
      | EmptyString => None
      | String c r =>
          let n := N_of_ascii c in
          if (n =? 110)%N then
            match expect "ull" r with Some r' => Some (PNone, r') | None => None end
          else if (n =? 116)%N then
            match expect "rue" r with Some r' => Some (PBool true, r') | None => None end
          else if (n =? 102)%N then
            match expect "alse" r with Some r' => Some (PBool false, r') | None => None end
          else if (n =? 34)%N then
            match parse_chars r with
            | Some (x, r') => Some (PStr x, r')
            | None => None
            end
          else if (n =? 91)%N then
            match skip_ws r with
            | String c' r' =>
                if (N_of_ascii c' =? 93)%N then Some (PList [], r')
                else
                  match parse_value fuel' (String c' r') with
                  | Some (x, r1) =>
                      match parse_items fuel' r1 with
                      | Some (l, r2) => Some (PList (x :: l), r2)
                      | None => None
                      end
                  | None => None
                  end
            | EmptyString => None
            end
          else if (n =? 123)%N then
            match skip_ws r with
            | String c' r' =>
                if (N_of_ascii c' =? 125)%N then Some (PDict [], r')
                else
                  match parse_member fuel' (String c' r') with
                  | Some (kx, r1) =>
                      match parse_members fuel' r1 with
                      | Some (d, r2) => Some (PDict (dict_of_items (kx :: d)), r2)
                      | None => None
                      end
                  | None => None
                  end
            | EmptyString => None
            end
          else parse_number s
      end
  end

(** After an item of a list: [, item] again, or the closing bracket. *)
with parse_items (fuel : nat) (s : string) : option (list pyval * string) :=
  match fuel with
  | O => None
  | S fuel' =>
      match skip_ws s with
      | String c r =>
          let n := N_of_ascii c in
          if (n =? 93)%N then Some ([], r)
          else if (n =? 44)%N then
            match parse_value fuel' (skip_ws r) with
            | Some (x, r1) =>
                match parse_items fuel' r1 with
                | Some (l, r2) => Some (x :: l, r2)
                | None => None
                end
            | None => None
            end
          else None
      | EmptyString => None
      end
  end

(** [key: value] *)
with parse_member (fuel : nat) (s : string) : option ((string * pyval) * string) :=
  match fuel with
  | O => None
  | S fuel' =>
      match parse_str s with
      | Some (k, r) =>
          match skip_ws r with
          | String c r1 =>
              if (N_of_ascii c =? 58)%N then
                match parse_value fuel' (skip_ws r1) with
                | Some (x, r2) => Some ((k, x), r2)
                | None => None
                end
              else None
          | EmptyString => None
          end
      | None => None
      end
  end

(** After a member of a dictionary: [, member] again, or the closing
    brace. *)
with parse_members (fuel : nat) (s : string) : option (pydict * string) :=
  match fuel with
  | O => None
  | S fuel' =>
      match skip_ws s with
      | String c r =>
          let n := N_of_ascii c in
          if (n =? 125)%N then Some ([], r)
          else if (n =? 44)%N then
            match parse_member fuel' (skip_ws r) with
            | Some (kx, r1) =>
                match parse_members fuel' r1 with
                | Some (d, r2) => Some (kx :: d, r2)
                | None => None
                end
            | None => None
            end
          else None
      | EmptyString => None
      end
  end.

(** The whole text is one value, with white space around it at most. *)
Definition parse (s : string) : option pyval :=
  match parse_value (S (S (String.length s))) (skip_ws s) with
  | Some (v, rest) =>
      match skip_ws rest with
      | EmptyString => Some v
      | _ => None
      end
  | None => None
  end.

End Flow.


(* ===================================================================== *)
(** * Concrete worlds *)
(* ===================================================================== *)

Module Examples.
Import OsPath Layout AgentClass.

#[export] Instance node_eq_dec : EqDecision node.
Proof. solve_decision. Defined.

#[export] Instance is_tree_dec (d : gmap (list string) node) : Decision (is_tree d).
Proof. unfold is_tree. apply _. Defined.

(** The agent object for a name. *)
Definition agent (name : string) : Agent :=
  {| AGENT_NAME := name; memory_file := "agents/" +:+ name +:+ ".yaml"; memory := PNone |}.

(** A plugin module with one command, and one without [commands]. *)
Definition hello_plugin : command_file :=
  {| stem := "hello";
     instantiate :=
       inr {| obj_commands :=
                Some [("Say Hello",
                       {| func_name := "say_hello";
                          parameters := [("name", None);
                                         ("greeting", Some (PStr "hi"))] |})] |} |}.

Definition util_plugin : command_file :=
  {| stem := "util"; instantiate := inr {| obj_commands := None |} |}.

(** A process in [/app] whose store has the root, [/app], and the entries
    [entries] given by their location below [/app]. *)
Definition app (name : string) (plugins : list command_file)
    (entries : list (list string * node)) : world :=
  {| cwd := "/app";
     disk := list_to_map (([], Dir) :: (["app"], Dir)
                          :: map (fun e => ("app" :: fst e, snd e)) entries);
     plugin_dir := plugins;
     this := agent name |}.

(** Nothing below [/app] yet. *)
Definition empty_app (name : string) : world := app name [] [].

(** The agent [Bot1] with the text [text] in its configuration file. *)
Definition bot1_with_config (plugins : list command_file) (text : string) : world :=
  app "Bot1" plugins
    [(["agents"], Dir); (["agents"; "Bot1"], Dir);
     (["agents"; "Bot1"; "config.json"], File text)].

(** The document of the scenario of the specification. *)
Definition default_settings_config : pyval :=
  PDict [("commands", PDict []);
         ("settings", PDict [("provider", PStr "huggingchat");
                             ("AI_MODEL", PStr "openassistant");
                             ("AI_TEMPERATURE", PFloat 4 (-1));
                             ("MAX_TOKENS", PInt 2000)])].

(** What [add_agent(name, {})] writes for an empty catalog. *)
Definition empty_config : pyval :=
  PDict [("commands", PDict []); ("settings", PDict [])].

End Examples.

(* ===================================================================== *)
(** * The other methods of [Agent] *)
(* ===================================================================== *)

(** ** [pathlib]: the parent of a path *)

Module PathLib.
Import OsPath.

(** The root of a POSIX path: [/], or [//] for exactly two leading
    slashes, or none. *)
Definition root (s : string) : string :=
  match s with
  | String a (String b (String c _)) =>
      if Ascii.eqb a slash then
        if Ascii.eqb b slash then (if Ascii.eqb c slash then "/" else "//") else "/"
      else ""
  | String a (String b EmptyString) =>
      if Ascii.eqb a slash then (if Ascii.eqb b slash then "//" else "/") else ""
  | String a EmptyString => if Ascii.eqb a slash then "/" else ""
  | EmptyString => ""
  end.

(** The parts of a path: its names, without the empty ones and [.]. *)
Definition parts (s : string) : list string :=
  List.filter (fun c => negb (String.eqb c "") && negb (String.eqb c "."))
              (split_slash s).

(** [str(PurePosixPath)] from root and parts. *)
Definition to_str (r : string) (ps : list string) : string :=
  match r, ps with
  | EmptyString, [] => "."
  | _, _ => r +:+ String.concat "/" ps
  end.

(** [str(Path(s).parent)]: the last part is dropped; a path without parts
    is its own parent. *)
Definition path_parent (s : string) : string := to_str (root s) (removelast (parts s)).

End PathLib.

(** ** More [os] calls *)

(** Two exceptions that only the methods below meet: the plain [OSError]
    of [os.rename] (directory not empty, or moved into itself) and
    [UnboundLocalError]. A call that can meet them returns [inl] of the
    exception, or [inr] of its value. *)
Inductive other_exn : Type :=
  | OSError
  | UnboundLocalError.

Definition MX (A : Type) : Type := M (other_exn + A).

Definition retX {A} (a : A) : MX A := mret (inr a).

Definition raiseX {A} (e : other_exn) : MX A := mret (inl e).

Definition liftX {A} (m : M A) : MX A := a ← m; mret (inr a).

Definition bindX {A B} (m : MX A) (f : A -> MX B) : MX B :=
  r ← m;
  match (r : other_exn + A) with
  | inl e => mret (inl e)
  | inr a => f a
  end.

Module OsMore.
Import OsPath.

(** [Path(p).mkdir(parents=True, exist_ok=True)]: missing directories on
    the way are created, an existing directory is left alone. *)
Definition mkdir_parents (p : string) : M unit :=
  w ← get_world;
  let l := resolve (cwd w) p in
  match disk w !! l with
  | Some Dir => mret tt
  | Some (File _) => raise FileExistsError
  | None =>
      if existsb (Os.is_file (disk w)) (Os.inits l) then raise NotADirectoryError
      else put_disk (Os.mkdirs (disk w) l)
  end.

(** The name [k] has below the directory [l], when it is an entry of it. *)
Definition child_name (l k : location) : option string :=
  match drop (length l) k with
  | [c] => if decide (take (length l) k = l) then Some c else None
  | _ => None
  end.

Definition children (d : gmap (list string) node) (l : location) : list string :=
  omap (fun kv => child_name l (fst kv)) (map_to_list d).

(** [os.listdir(p)], in the order the store enumerates. *)
Definition listdir (p : string) : M (list string) :=
  w ← get_world;
  let l := resolve (cwd w) p in
  match disk w !! l with
  | Some Dir => mret (children (disk w) l)
  | Some (File _) => raise NotADirectoryError
  | None => raise (Os.missing (disk w) l)
  end.

(** [with open(p, "a") as f: f.write(data)] *)
Definition append_text (p data : string) : M unit :=
  w ← get_world;
  let l := resolve (cwd w) p in
  match disk w !! l with
  | Some Dir => raise IsADirectoryError
  | Some (File old) => put_disk (<[l := File (old +:+ data)]> (disk w))
  | None =>
      match l with
      | [] => raise IsADirectoryError
      | _ =>
          match disk w !! Os.parent l with
          | Some Dir => put_disk (<[l := File data]> (disk w))
          | Some (File _) => raise NotADirectoryError
          | None => raise (Os.missing (disk w) (Os.parent l))
          end
      end
  end.

(** The entries at and below [s], moved to the same places at and below
    [t]; the rest of the store as it was. *)
Definition move_tree (s t : location) (d : gmap (list string) node)
  : gmap (list string) node :=
  list_to_map
    (map (fun kv => (t ++ drop (length s) (fst kv), snd kv))
         (map_to_list (filter (fun kv => s `prefix_of` fst kv) d)))
  ∪ filter (fun kv => ~ s `prefix_of` fst kv) d.

(** [os.rename(src, dst)]: a file replaces a file; a directory goes to a
    free place or replaces an empty directory. *)
Definition rename (src dst : string) : MX unit := fun w =>
  let s := resolve (cwd w) src in
  let t := resolve (cwd w) dst in
  match disk w !! s with
  | None => raise (Os.missing (disk w) s) w
  | Some x =>
      if decide (s = t) then retX tt w
      else
        match x with
        | File data =>
            match disk w !! t with
            | Some Dir => raise IsADirectoryError w
            | _ =>
                match disk w !! Os.parent t with
                | Some Dir =>
                    liftX (put_disk (<[t := File data]> (delete s (disk w)))) w
                | Some (File _) => raise NotADirectoryError w
                | None => raise (Os.missing (disk w) (Os.parent t)) w
                end
            end
        | Dir =>
            if bool_decide (s `prefix_of` t) then raiseX OSError w
            else
              match disk w !! t with
              | Some (File _) => raise NotADirectoryError w
              | Some Dir =>
                  match children (disk w) t with
                  | [] => liftX (put_disk (move_tree s t (disk w))) w
                  | _ => raiseX OSError w
                  end
              | None =>
                  match disk w !! Os.parent t with
                  | Some Dir => liftX (put_disk (move_tree s t (disk w))) w
                  | Some (File _) => raise NotADirectoryError w
                  | None => raise (Os.missing (disk w) (Os.parent t)) w
                  end
              end
        end
  end.

End OsMore.

Module AgentRest.
Import OsPath AgentClass.

Section Methods.
Context `{JsonLib} `{YamlLib}.

(** [_create_parent_directories] *)
Definition _create_parent_directories (file_path : string) : M unit :=
  OsMore.mkdir_parents (PathLib.path_parent file_path).

(** [x in s] for strings: [x] occurs in [s]. *)
Fixpoint contains (x s : string) : bool :=
  String.prefix x s ||
  match s with
  | EmptyString => false
  | String _ s' => contains x s'
  end.

(** [get_provider]: the membership test is the one of the type of the
    document (key of a dictionary, item of a list, part of a string), and
    only a dictionary can be indexed by a string. *)
Definition get_provider (fuel : nat) : M pyval :=
  config_file ← get_agent_config fuel;
  match (config_file : pyval) with
  | PDict d =>
      match dict_get "provider" d with
      | Some provider => mret provider
      | None => mret (PStr "openai")
      end
  | PList l =>
      if existsb (fun v => match v with PStr s => String.eqb s "provider" | _ => false end) l
      then raise TypeError
      else mret (PStr "openai")
  | PStr s =>
      if contains "provider" s then raise TypeError else mret (PStr "openai")
  | _ => raise TypeError
  end.

(** [write_agent_config] *)
Definition write_agent_config (agent_config : string) (config_data : pyval) : M unit :=
  Os.write_text agent_config (json_dumps config_data).

(** The document the [except:] branch of [load_agent_config] writes. *)
Definition default_config (commands_list : list catalog_entry) : pyval :=
  PDict [("commands",
          PDict (dict_of_items
                   (map (fun c : catalog_entry => (fst (fst c), PStr "false"))
                        commands_list)));
         ("settings",
          PDict [("provider", PStr "huggingchat");
                 ("AI_MODEL", PStr "openassistant");
                 ("AI_TEMPERATURE", PFloat 4 (-1));
                 ("MAX_TOKENS", PInt 2000)])].

(** How the [try] block of [load_agent_config] ends: with its [return], or
    in the bare [except:] with [agent_config_data] bound or not. *)
Inductive try_end : Type :=
  | Returned (agent_config_data : pyval)
  | Excepted (agent_config_data : option pyval).

(** The [try] block of [load_agent_config]. In the handler of
    [json.JSONDecodeError], [agent_config_data = {}] is followed by
    [self.load_commands(agent_name)], an argument [load_commands] does not
    take: the call raises [TypeError], which the bare [except:] catches, as
    it catches what [open] raises. *)
Definition load_agent_config_try (agent_name : string) : M try_end := fun w =>
  match Os.read_text (join (join "agents" agent_name) "config.json") w with
  | (w', Ret text) =>
      match json_loads text with
      | Some agent_config_data => (w', Ret (Returned agent_config_data))
      | None => (w', Ret (Excepted (Some (PDict []))))
      end
  | (w', Raise _) => (w', Ret (Excepted None))
  | (w', OutOfFuel) => (w', OutOfFuel)
  end.

(** [load_agent_config]: in the [except:] branch the file is opened for
    writing (created or emptied) before the catalog is loaded for the
    document to write; the final [return] needs [agent_config_data]
    bound. *)
Definition load_agent_config (agent_name : string) : MX pyval :=
  r ← load_agent_config_try agent_name;
  match (r : try_end) return M (other_exn + pyval) with
  | Returned agent_config_data => retX agent_config_data
  | Excepted agent_config_data =>
      let agent_config_file := join (join "agents" agent_name) "config.json" in
      Os.write_text agent_config_file "";;
      commands_list ← load_commands;
      Os.write_text agent_config_file (json_dumps (default_config commands_list));;
      match agent_config_data return M (other_exn + pyval) with
      | Some data => retX data
      | None => raiseX UnboundLocalError
      end
  end.

(** [rename_agent] *)
Definition rename_agent (agent_name new_name : string) : MX unit :=
  bindX (liftX (Os.path_abspath ("agents/" +:+ agent_name +:+ ".yaml"))) (fun agent_file =>
  bindX (liftX (Os.path_abspath ("agents/" +:+ agent_name +:+ "/"))) (fun agent_folder =>
  bindX (liftX (Os.path_exists agent_file)) (fun b =>
  bindX (if (b : bool) then OsMore.rename agent_file (join "agents" (new_name +:+ ".yaml"))
         else retX tt) (fun _ =>
  bindX (liftX (Os.path_exists agent_folder)) (fun b =>
  if (b : bool) then OsMore.rename agent_folder (join "agents" new_name)
  else retX tt))))).

(** [get_task_output] *)
Definition get_task_output (agent_name : string) (primary_objective : option string)
  : M string :=
  match primary_objective with
  | None => mret "No primary objective specified."
  | Some objective =>
      let task_output_file :=
        join (join (join "agents" agent_name) "tasks") (objective +:+ ".txt") in
      b ← Os.path_exists task_output_file;
      if (b : bool) return M string then Os.read_text task_output_file
      else mret ""
  end.

(** [save_task_output]; [uuid4] is what [str(uuid.uuid4())] gives in this
    call. *)
Definition save_task_output (agent_name task_output : string)
    (primary_objective : option string) (uuid4 : string) : M string :=
  names ← OsMore.listdir (join "agents" agent_name);
  when (negb (existsb (String.eqb "tasks") names))
       (Os.makedirs (join (join "agents" agent_name) "tasks"));;
  let primary_objective :=
    match primary_objective with None => uuid4 | Some objective => objective end in
  let task_output_file :=
    join (join (join "agents" agent_name) "tasks") (primary_objective +:+ ".txt") in
  b ← Os.path_exists task_output_file;
  (if (b : bool) then OsMore.append_text task_output_file task_output
   else Os.write_text task_output_file task_output);;
  mret task_output.

End Methods.
End AgentRest.

(** ** What the other methods are stated with *)

Module LayoutRest.
Import OsPath Layout.

(** The catalog entries of one loaded plugin object. *)
Definition object_entries (o : plugin_object) : list catalog_entry :=
  match obj_commands o with
  | Some items => map entry_of items
  | None => []
  end.

(** Where the outputs of the tasks of the agent [n] are kept, and the file
    of the objective [o]. *)
Definition tasks_folder (cwd n : string) : location := agent_folder cwd n ++ ["tasks"].
Definition task_file (cwd n o : string) : location :=
  agent_folder cwd n ++ ["tasks"; o +:+ ".txt"].


End LayoutRest.

(* ===================================================================== *)
(** * Facts about paths *)
(* ===================================================================== *)

Module OsPathFacts.
Import OsPath.

Lemma append_cons (c : ascii) (a b : string) :
  String c a +:+ b = String c (a +:+ b).
Proof. reflexivity. Qed.

Lemma append_empty_l (b : string) : "" +:+ b = b.
Proof. reflexivity. Qed.

Lemma append_assoc (a b c : string) : (a +:+ b) +:+ c = a +:+ (b +:+ c).
Proof.
  induction a as [|x a IH]; [reflexivity |].
  now rewrite !append_cons, IH.
Qed.

Lemma append_empty_r (a : string) : a +:+ "" = a.
Proof.
  induction a as [|x a IH]; [reflexivity |].
  now rewrite append_cons, IH.
Qed.

Lemma split_slash_nonnil (s : string) : split_slash s <> [].
Proof.
  destruct s as [|c r]; simpl; [discriminate |].
  destruct (Ascii.eqb c slash); [discriminate |].
  destruct (split_slash r); discriminate.
Qed.

Lemma split_slash_app (a b : string) :
  split_slash (a +:+ String slash b) = split_slash a ++ split_slash b.
Proof.
  induction a as [|c a IH].
  - reflexivity.
  - rewrite append_cons. simpl.
    destruct (Ascii.eqb c slash).
    + now rewrite IH.
    + rewrite IH. pose proof (split_slash_nonnil a) as Hn.
      destruct (split_slash a) as [|h t]; [contradiction | reflexivity].
Qed.

Lemma split_slash_plain (n : string) :
  has_slash n = false -> split_slash n = [n].
Proof.
  induction n as [|c n IH]; simpl; [reflexivity |].
  intros Hs. apply orb_false_iff in Hs as [Hc Hn].
  rewrite Hc, (IH Hn). reflexivity.
Qed.

Lemma split_slash_free (s : string) :
  Forall (fun c => has_slash c = false) (split_slash s).
Proof.
  induction s as [|c r IH]; simpl.
  - repeat constructor.
  - destruct (Ascii.eqb c slash) eqn:Hc.
    + constructor; [reflexivity | exact IH].
    + destruct (split_slash r) as [|h t]; [repeat constructor; simpl; now rewrite Hc |].
      inversion IH as [|? ? Hh Ht]; subst.
      constructor; [simpl; now rewrite Hc, Hh | exact Ht].
Qed.

(** ** Normalisation *)

Definition clean (c : string) : Prop := plain c = true.

Lemma plain_spec (c : string) :
  plain c = true <->
  has_slash c = false /\ c <> "" /\ c <> "." /\ c <> "..".
Proof.
  unfold plain. rewrite !andb_true_iff, !negb_true_iff, !String.eqb_neq. tauto.
Qed.

Lemma norm_step_clean (acc : location) (c : string) :
  clean c -> norm_step acc c = acc ++ [c].
Proof.
  intros Hc. apply plain_spec in Hc as (_ & H1 & H2 & H3).
  unfold norm_step.
  apply String.eqb_neq in H1, H2, H3. now rewrite H1, H2, H3.
Qed.

Lemma fold_norm_clean (cs acc : location) :
  Forall clean cs -> fold_left norm_step cs acc = acc ++ cs.
Proof.
  revert acc. induction cs as [|c cs IH]; intros acc Hcs; simpl.
  - now rewrite app_nil_r.
  - inversion Hcs; subst. rewrite norm_step_clean by assumption.
    rewrite IH by assumption. now rewrite <- app_assoc.
Qed.

Lemma Forall_removelast {A} (P : A -> Prop) (l : list A) :
  Forall P l -> Forall P (removelast l).
Proof.
  induction 1 as [|x l Hx Hl IH]; simpl; [constructor |].
  destruct l; [constructor | constructor; assumption].
Qed.

Lemma norm_step_keeps (acc : location) (c : string) :
  has_slash c = false -> Forall clean acc -> Forall clean (norm_step acc c).
Proof.
  intros Hc Hacc. unfold norm_step.
  destruct (String.eqb c "") eqn:E1; [exact Hacc |].
  destruct (String.eqb c ".") eqn:E2; [exact Hacc |]. simpl.
  destruct (String.eqb c "..") eqn:E3; [now apply Forall_removelast |].
  apply Forall_app. split; [exact Hacc |].
  constructor; [| constructor].
  apply plain_spec. apply String.eqb_neq in E1, E2, E3. auto.
Qed.

Lemma fold_norm_keeps (cs acc : location) :
  Forall (fun c => has_slash c = false) cs -> Forall clean acc ->
  Forall clean (fold_left norm_step cs acc).
Proof.
  revert acc. induction cs as [|c cs IH]; intros acc Hcs Hacc; simpl.
  - exact Hacc.
  - inversion Hcs; subst. apply IH; [assumption |].
    now apply norm_step_keeps.
Qed.

Lemma resolve_clean (cwd p : string) : Forall clean (resolve cwd p).
Proof.
  unfold resolve, normalise. apply fold_norm_keeps; [apply split_slash_free | constructor].
Qed.

(** ** Rendering a location and reading it back *)

Lemma split_slash_render (c : string) (l : location) :
  has_slash c = false -> Forall clean l ->
  split_slash (c +:+ render l) = c :: l.
Proof.
  revert c. induction l as [|d l IH]; intros c Hc Hl; simpl.
  - rewrite append_empty_r. now apply split_slash_plain.
  - inversion Hl as [|? ? Hd Hl']; subst.
    change ("/" +:+ d +:+ render l) with (String slash (d +:+ render l)).
    rewrite split_slash_app, (split_slash_plain c Hc), IH; [reflexivity | | assumption].
    now apply plain_spec in Hd as [Hd _].
Qed.

Lemma resolve_path_of (cwd : string) (l : location) :
  Forall clean l -> resolve cwd (path_of l) = l.
Proof.
  intros Hl. destruct l as [|c l]; [reflexivity |].
  unfold resolve, path_of. simpl render.
  change (startswith_slash ("/" +:+ c +:+ render l)) with true. cbv iota.
  change ("/" +:+ c +:+ render l) with (String slash (c +:+ render l)).
  inversion Hl as [|? ? Hc Hl']; subst.
  change (String slash (c +:+ render l)) with ("" +:+ String slash (c +:+ render l)).
  rewrite split_slash_app.
  rewrite split_slash_render; [| now apply plain_spec in Hc as [Hc _] | assumption].
  unfold normalise.
  change (fold_left norm_step (split_slash "" ++ c :: l) [])
    with (fold_left norm_step (c :: l) []).
  now rewrite fold_norm_clean.
Qed.

(** [abspath] names the location its argument resolves to. *)
Lemma resolve_abspath (cwd p : string) :
  resolve cwd (abspath cwd p) = resolve cwd p.
Proof. unfold abspath. apply resolve_path_of, resolve_clean. Qed.

End OsPathFacts.

Module LayoutFacts.
Import OsPath OsPathFacts Layout.

Lemma resolve_relative (cwd p : string) :
  startswith_slash p = false ->
  resolve cwd p = fold_left norm_step (split_slash p) (normalise (split_slash cwd)).
Proof.
  intros Hp. unfold resolve. rewrite Hp.
  change (cwd +:+ "/" +:+ p) with (cwd +:+ String slash p).
  rewrite split_slash_app. unfold normalise. now rewrite fold_left_app.
Qed.

Lemma agents_dir_eq (cwd : string) :
  agents_dir cwd = normalise (split_slash cwd) ++ ["agents"].
Proof. unfold agents_dir. now rewrite resolve_relative. Qed.

Lemma plain_no_slash (n : string) : plain n = true -> has_slash n = false.
Proof. intros Hn. now apply plain_spec in Hn. Qed.

Lemma plain_not_abs (n : string) : plain n = true -> startswith_slash n = false.
Proof.
  intros Hn. apply plain_no_slash in Hn. destruct n as [|c n]; [reflexivity |].
  simpl in *. now apply orb_false_iff in Hn as [Hn _].
Qed.

Lemma has_slash_app (a b : string) :
  has_slash (a +:+ b) = has_slash a || has_slash b.
Proof.
  induction a as [|c a IH]; [reflexivity |].
  rewrite append_cons. simpl. now rewrite IH, orb_assoc.
Qed.

Lemma length_append (a b : string) :
  String.length (a +:+ b) = String.length a + String.length b.
Proof.
  induction a as [|c a IH]; [reflexivity |].
  rewrite append_cons. simpl. now rewrite IH.
Qed.

Lemma plain_yaml (n : string) : plain n = true -> plain (n +:+ ".yaml") = true.
Proof.
  intros Hn. apply plain_spec in Hn as (Hs & _).
  apply plain_spec. rewrite has_slash_app, Hs. split; [reflexivity |].
  repeat split; intros E; apply (f_equal String.length) in E;
    rewrite length_append in E; simpl in E; lia.
Qed.

(** The three ways the class spells the path of the configuration file
    name one location when the agent name is plain. *)
Lemma resolve_items (cwd : string) (items : list string) (p : string) :
  startswith_slash p = false -> split_slash p = "agents" :: items ->
  Forall clean items ->
  resolve cwd p = agents_dir cwd ++ items.
Proof.
  intros Hp Hsplit Hit. rewrite resolve_relative, Hsplit, agents_dir_eq by assumption.
  rewrite fold_norm_clean; [now rewrite <- app_assoc |].
  constructor; [reflexivity | assumption].
Qed.

Lemma resolve_config_file (cwd n : string) :
  plain n = true ->
  resolve cwd ("agents/" +:+ n +:+ "/config.json") = config_file cwd n.
Proof.
  intros Hn. apply resolve_items; [reflexivity | |].
  - change ("agents/" +:+ n +:+ "/config.json")
      with ("agents" +:+ String slash (n +:+ String slash "config.json")).
    rewrite !split_slash_app, (split_slash_plain n) by now apply plain_no_slash.
    reflexivity.
  - repeat constructor. exact Hn.
Qed.

Lemma resolve_agent_folder (cwd n : string) :
  plain n = true -> resolve cwd ("agents/" +:+ n) = agent_folder cwd n.
Proof.
  intros Hn. apply resolve_items; [reflexivity | |].
  - change ("agents/" +:+ n) with ("agents" +:+ String slash n).
    rewrite split_slash_app, (split_slash_plain n) by now apply plain_no_slash.
    reflexivity.
  - repeat constructor. exact Hn.
Qed.

Lemma resolve_agent_folder_slash (cwd n : string) :
  plain n = true -> resolve cwd ("agents/" +:+ n +:+ "/") = agent_folder cwd n.
Proof.
  intros Hn. rewrite resolve_relative by reflexivity.
  change ("agents/" +:+ n +:+ "/") with ("agents" +:+ String slash (n +:+ String slash "")).
  rewrite !split_slash_app, (split_slash_plain n) by now apply plain_no_slash.
  unfold agent_folder. rewrite agents_dir_eq.
  change (split_slash "agents" ++ [n] ++ split_slash "") with (["agents"; n] ++ [""]).
  rewrite fold_left_app, (fold_norm_clean ["agents"; n])
    by (repeat constructor; exact Hn).
  change (fold_left norm_step [""] ?acc) with acc.
  now rewrite <- app_assoc.
Qed.

Lemma resolve_log_file (cwd n : string) :
  plain n = true -> resolve cwd ("agents/" +:+ n +:+ ".yaml") = log_file cwd n.
Proof.
  intros Hn. pose proof (plain_yaml n Hn) as Hy.
  apply resolve_items; [reflexivity | |].
  - change ("agents/" +:+ n +:+ ".yaml") with ("agents" +:+ String slash (n +:+ ".yaml")).
    rewrite split_slash_app, (split_slash_plain (n +:+ ".yaml")) by now apply plain_no_slash.
    reflexivity.
  - repeat constructor. exact Hy.
Qed.

(** ** [os.path.join] on the paths of an agent *)

Lemma endswith_slash_app (a n : string) :
  n <> "" -> endswith_slash (a +:+ n) = endswith_slash n.
Proof.
  intros Hn. induction a as [|c a IH]; [reflexivity |].
  rewrite append_cons. simpl. rewrite IH.
  destruct (a +:+ n) eqn:E; [| reflexivity].
  destruct a; [rewrite append_empty_l in E; congruence | discriminate].
Qed.

Lemma no_slash_end (n : string) : has_slash n = false -> endswith_slash n = false.
Proof.
  induction n as [|c n IH]; [reflexivity |]. simpl.
  intros Hs. apply orb_false_iff in Hs as [Hc Hn].
  destruct n; [exact Hc | now apply IH].
Qed.

Lemma join_agents (n : string) :
  plain n = true -> join "agents" n = "agents/" +:+ n.
Proof. intros Hn. unfold join. now rewrite (plain_not_abs n Hn). Qed.

Lemma join_plain (a n : string) :
  plain n = true -> join (a +:+ n) "config.json" = a +:+ n +:+ "/config.json".
Proof.
  intros Hn. pose proof Hn as Hp. apply plain_spec in Hp as (Hs & Hne & _).
  unfold join. change (startswith_slash "config.json") with false. cbv iota.
  rewrite endswith_slash_app, (no_slash_end n Hs) by assumption.
  assert (nonempty (a +:+ n) = true) as ->.
  { destruct a; [rewrite append_empty_l; now destruct n | reflexivity]. }
  simpl. now rewrite append_assoc.
Qed.

Lemma join_config_file (n : string) :
  plain n = true ->
  join (join "agents" n) "config.json" = "agents/" +:+ n +:+ "/config.json".
Proof. intros Hn. now rewrite join_agents, join_plain. Qed.

Lemma join_log_file (n : string) :
  plain n = true -> join "agents" (n +:+ ".yaml") = "agents/" +:+ n +:+ ".yaml".
Proof.
  intros Hn. apply join_agents. exact (plain_yaml n Hn).
Qed.

Lemma endswith_slash_cons (c : ascii) (s : string) :
  s <> "" -> endswith_slash (String c s) = endswith_slash s.
Proof. destruct s; [congruence | reflexivity]. Qed.

Lemma render_end (l : location) :
  Forall clean l -> l <> [] -> endswith_slash (render l) = false.
Proof.
  induction 1 as [|c l Hc Hl IH]; [congruence |]. intros _.
  apply plain_spec in Hc as (Hs & Hne & _).
  change (render (c :: l)) with (String slash (c +:+ render l)).
  rewrite endswith_slash_cons by (destruct c; [congruence | discriminate]).
  destruct l as [|d l].
  - change (render []) with "". rewrite append_empty_r. now apply no_slash_end.
  - rewrite endswith_slash_app by discriminate. now apply IH.
Qed.

(** A plain name joined to an absolute path names the entry of that name in
    the directory. *)
Lemma resolve_join_path_of (cwd : string) (l : location) (c : string) :
  Forall clean l -> plain c = true ->
  resolve cwd (join (path_of l) c) = l ++ [c].
Proof.
  intros Hl Hc. pose proof (plain_no_slash c Hc) as Hs.
  assert (Forall clean (l ++ [c])) as Hlc.
  { apply Forall_app. split; [assumption | repeat constructor; exact Hc]. }
  destruct l as [|d l].
  - assert (join (path_of []) c = "" +:+ String slash c) as ->.
    { unfold join. now rewrite (plain_not_abs c Hc). }
    unfold resolve, normalise.
    change (startswith_slash ("" +:+ String slash c)) with true. cbv iota.
    rewrite split_slash_app, (split_slash_plain c) by assumption.
    change (fold_left norm_step (split_slash "" ++ [c]) [])
      with (fold_left norm_step [c] []).
    now rewrite fold_norm_clean.
  - assert (join (path_of (d :: l)) c = render (d :: l) +:+ String slash c) as ->.
    { unfold join. rewrite (plain_not_abs c Hc).
      change (path_of (d :: l)) with (render (d :: l)).
      rewrite (render_end (d :: l)) by (assumption || discriminate). reflexivity. }
    unfold resolve, normalise.
    change (startswith_slash (render (d :: l) +:+ String slash c)) with true. cbv iota.
    rewrite split_slash_app, (split_slash_plain c) by assumption.
    change (render (d :: l)) with ("" +:+ String slash (d +:+ render l)).
    inversion Hl as [|? ? Hd Hl']; subst.
    rewrite split_slash_app, split_slash_render by (assumption || now apply plain_no_slash).
    change (fold_left norm_step ((split_slash "" ++ d :: l) ++ [c]) [])
      with (fold_left norm_step ((d :: l) ++ [c]) []).
    now rewrite fold_norm_clean.
Qed.

End LayoutFacts.

(* ===================================================================== *)
(** * Text read in text mode *)
(* ===================================================================== *)

Module NewlineFacts.
Import OsPathFacts LayoutFacts.

Lemma newlines_cons (c : ascii) (r : string) :
  c <> CR -> newlines (String c r) = String c (newlines r).
Proof. intros Hc. simpl. apply Ascii.eqb_neq in Hc. now rewrite Hc. Qed.

Lemma newlines_cr_lf (r : string) :
  newlines (String CR (String LF r)) = String LF (newlines r).
Proof. reflexivity. Qed.

Lemma newlines_cr (r : string) :
  (forall r', r <> String LF r') -> newlines (String CR r) = String LF (newlines r).
Proof.
  intros Hr. change (newlines (String CR r))
    with (String LF match r with
                    | String c' r' => if Ascii.eqb c' LF then newlines r' else newlines r
                    | EmptyString => EmptyString
                    end).
  destruct r as [|c' r']; [reflexivity |].
  destruct (Ascii.eqb c' LF) eqn:E; [| reflexivity].
  apply Ascii.eqb_eq in E. subst. now contradiction (Hr r').
Qed.

(** The shapes of a text, as [newlines] reads it. *)
Inductive shape : string -> Prop :=
  | shape_empty : shape ""
  | shape_char c r : c <> CR -> shape (String c r)
  | shape_cr_lf r : shape (String CR (String LF r))
  | shape_cr r : (forall r', r <> String LF r') -> shape (String CR r).

Lemma shape_of (s : string) : shape s.
Proof.
  destruct s as [|c r]; [apply shape_empty |].
  destruct (Ascii.eqb c CR) eqn:E.
  - apply Ascii.eqb_eq in E. subst.
    destruct r as [|c' r']; [apply shape_cr; discriminate |].
    destruct (Ascii.eqb c' LF) eqn:E'.
    + apply Ascii.eqb_eq in E'. subst. apply shape_cr_lf.
    + apply shape_cr. intros r'' [= -> _]. now rewrite Ascii.eqb_refl in E'.
  - apply shape_char. now apply Ascii.eqb_neq.
Qed.

(** Induction on a text two characters at a time. *)
Lemma text_ind (P : string -> Prop) :
  P "" ->
  (forall c r, c <> CR -> P r -> P (String c r)) ->
  (forall r, P r -> P (String CR (String LF r))) ->
  (forall r, (forall r', r <> String LF r') -> P r -> P (String CR r)) ->
  forall s, P s.
Proof.
  intros H0 Hc Hcl Hr s.
  assert (P s /\ forall c, P (String c s)) as [Hs _]; [| exact Hs].
  induction s as [|c' r [IH1 IH2]].
  - split; [exact H0 |]. intros c. destruct (Ascii.eqb c CR) eqn:E.
    + apply Ascii.eqb_eq in E. subst. apply Hr; [discriminate | exact H0].
    + apply Hc; [now apply Ascii.eqb_neq | exact H0].
  - split; [apply IH2 |]. intros c.
    destruct (Ascii.eqb c CR) eqn:E.
    + apply Ascii.eqb_eq in E. subst c.
      destruct (Ascii.eqb c' LF) eqn:E'.
      * apply Ascii.eqb_eq in E'. subst c'. apply Hcl, IH1.
      * apply Hr; [| apply IH2].
        intros r' [= -> _]. now rewrite Ascii.eqb_refl in E'.
    + apply Hc; [now apply Ascii.eqb_neq | apply IH2].
Qed.

Lemma length_newlines (s : string) : String.length (newlines s) <= String.length s.
Proof.
  induction s as [|c r Hc IH|r IH|r Hr IH] using text_ind.
  - reflexivity.
  - rewrite newlines_cons by assumption. simpl. lia.
  - rewrite newlines_cr_lf. simpl. lia.
  - rewrite newlines_cr by assumption. simpl. lia.
Qed.

Lemma nonempty_newlines (s : string) : nonempty (newlines s) = nonempty s.
Proof.
  destruct (shape_of s) as [|c r Hc| r | r Hr].
  - reflexivity.
  - now rewrite newlines_cons.
  - reflexivity.
  - now rewrite newlines_cr.
Qed.

Lemma newlines_empty (s : string) : newlines s = "" -> s = "".
Proof.
  intros E. pose proof (nonempty_newlines s) as Hn. rewrite E in Hn. now destruct s.
Qed.

(** ** A text without carriage return is read as it is *)

Fixpoint no_cr (s : string) : bool :=
  match s with
  | EmptyString => true
  | String c r => negb (Ascii.eqb c CR) && no_cr r
  end.

Lemma newlines_no_cr (s : string) : no_cr s = true -> newlines s = s.
Proof.
  induction s as [|c r IH]; [reflexivity |]. simpl.
  intros [Hc Hr]%andb_true_iff. apply negb_true_iff in Hc. rewrite Hc.
  now rewrite IH.
Qed.

Lemma no_cr_app (a b : string) : no_cr (a +:+ b) = no_cr a && no_cr b.
Proof.
  induction a as [|c a IH]; [now rewrite append_empty_l |].
  rewrite append_cons. simpl. now rewrite IH, andb_assoc.
Qed.

(** ** [strip] and [newlines] *)

Lemma isspace_CR : isspace CR = true.
Proof. reflexivity. Qed.

Lemma isspace_LF : isspace LF = true.
Proof. reflexivity. Qed.

Lemma lstrip_newlines (s : string) : lstrip (newlines s) = newlines (lstrip s).
Proof.
  induction s as [|c r Hc IH|r IH|r Hr IH] using text_ind.
  - reflexivity.
  - rewrite newlines_cons by assumption. simpl.
    destruct (isspace c); [exact IH | now rewrite newlines_cons].
  - rewrite newlines_cr_lf. exact IH.
  - rewrite newlines_cr by assumption. exact IH.
Qed.

Lemma rstrip_cons (c : ascii) (r : string) :
  rstrip (String c r)
  = match rstrip r with
    | EmptyString => if isspace c then EmptyString else String c EmptyString
    | r' => String c r'
    end.
Proof. reflexivity. Qed.

Lemma rstrip_head (r : string) (c : ascii) (x : string) :
  rstrip r = String c x -> exists y, r = String c y.
Proof.
  destruct r as [|c' r]; [discriminate |]. rewrite rstrip_cons.
  destruct (rstrip r); [destruct (isspace c') |]; intros [= <- _]; eauto.
Qed.

Lemma rstrip_newlines (s : string) : rstrip (newlines s) = newlines (rstrip s).
Proof.
  induction s as [|c r Hc IH|r IH|r Hr IH] using text_ind.
  - reflexivity.
  - rewrite newlines_cons, !rstrip_cons, IH by assumption.
    destruct (rstrip r) as [|c' x] eqn:E.
    + destruct (isspace c); [reflexivity | now rewrite newlines_cons].
    + rewrite (newlines_cons c) by assumption.
      destruct (newlines (String c' x)) eqn:E'; [| reflexivity].
      now apply newlines_empty in E'.
  - rewrite newlines_cr_lf, !rstrip_cons, IH.
    destruct (rstrip r) as [|c' x] eqn:E; [reflexivity |].
    rewrite newlines_cr_lf.
    destruct (newlines (String c' x)) eqn:E'; [| reflexivity].
    now apply newlines_empty in E'.
  - rewrite newlines_cr, !rstrip_cons, IH by assumption.
    destruct (rstrip r) as [|c' x] eqn:E; [reflexivity |].
    rewrite newlines_cr.
    + destruct (newlines (String c' x)) eqn:E'; [| reflexivity].
      now apply newlines_empty in E'.
    + intros r' [= -> ->]. apply rstrip_head in E as [y ->]. now contradiction (Hr y).
Qed.

Lemma strip_newlines (s : string) : strip (newlines s) = newlines (strip s).
Proof. unfold strip. now rewrite lstrip_newlines, rstrip_newlines. Qed.

End NewlineFacts.

(* ===================================================================== *)
(** * Facts about the monad and the store *)
(* ===================================================================== *)

Module StoreFacts.
Import OsPath OsPathFacts Layout LayoutFacts.

Lemma bind_run {A B} (m : M A) (f : A -> M B) (w : world) :
  (m ≫= f) w =
  match m w with
  | (w', Ret a) => f a w'
  | (w', Raise e) => (w', Raise e)
  | (w', OutOfFuel) => (w', OutOfFuel)
  end.
Proof. reflexivity. Qed.

Lemma bind_ret_inv {A B} (m : M A) (f : A -> M B) (w w' : world) (b : B) :
  (m ≫= f) w = (w', Ret b) ->
  exists w1 a, m w = (w1, Ret a) /\ f a w1 = (w', Ret b).
Proof.
  rewrite bind_run. destruct (m w) as [w1 [a|e|]]; intros Hr; try discriminate.
  now exists w1, a.
Qed.

(** ** Straight calls

    A call that has no loop in it and changes nothing but the store: it
    returns or raises, and the working directory, the plugin directory and
    the agent object are as before. *)

Definition same_process (w w' : world) : Prop :=
  cwd w' = cwd w /\ plugin_dir w' = plugin_dir w /\ this w' = this w.

Definition straight {A} (m : M A) : Prop :=
  forall w, same_process w (fst (m w)) /\ snd (m w) <> OutOfFuel.

Lemma same_process_refl (w : world) : same_process w w.
Proof. repeat split. Qed.

Lemma same_process_trans (w1 w2 w3 : world) :
  same_process w1 w2 -> same_process w2 w3 -> same_process w1 w3.
Proof. unfold same_process. intros (-> & -> & ->) (-> & -> & ->). auto. Qed.

Lemma straight_ret {A} (a : A) : straight (mret a : M A).
Proof. intros w. split; [apply same_process_refl | discriminate]. Qed.

Lemma straight_raise {A} (e : exn) : straight (raise e : M A).
Proof. intros w. split; [apply same_process_refl | discriminate]. Qed.

Lemma straight_get_world : straight get_world.
Proof. intros w. split; [apply same_process_refl | discriminate]. Qed.

Lemma straight_put_disk d : straight (put_disk d).
Proof. intros w. split; [repeat split | discriminate]. Qed.

Lemma straight_bind {A B} (m : M A) (f : A -> M B) :
  straight m -> (forall a, straight (f a)) -> straight (m ≫= f).
Proof.
  intros Hm Hf w. rewrite bind_run. destruct (Hm w) as [Hs Hr].
  destruct (m w) as [w1 [a|e|]]; simpl in *; [| split; [exact Hs | discriminate] | congruence].
  destruct (Hf a w1) as [Hs' Hr']. split; [| exact Hr'].
  eapply same_process_trans; [exact Hs | exact Hs'].
Qed.

Lemma straight_when (c : bool) (m : M unit) :
  straight m -> straight (when c m).
Proof. destruct c; [auto | intros _; apply straight_ret]. Qed.

Lemma straight_try {A} (m : M A) (e : exn) (h : M A) :
  straight m -> straight h -> straight (try_except m e h).
Proof.
  intros Hm Hh w. unfold try_except. destruct (Hm w) as [Hs Hr].
  destruct (m w) as [w1 [a|e'|]]; simpl in *;
    [split; [exact Hs | discriminate] | | congruence].
  destruct (exn_eqb e e'); [| split; [exact Hs | discriminate]].
  destruct (Hh w1) as [Hs' Hr']. split; [| exact Hr'].
  eapply same_process_trans; [exact Hs | exact Hs'].
Qed.

Create HintDb straight.

Ltac straight :=
  repeat first
    [ apply straight_ret | apply straight_raise | apply straight_get_world
    | apply straight_put_disk | apply straight_when
    | apply straight_try
    | solve [auto with straight]
    | apply straight_bind; [| intros ?]
    | match goal with
      | |- straight (match ?x with _ => _ end) => destruct x
      | |- straight (if ?x then _ else _) => destruct x
      | |- straight (let _ := _ in _) => cbv zeta
      end ].

Lemma straight_path_exists p : straight (Os.path_exists p).
Proof. unfold Os.path_exists. straight. Qed.
Lemma straight_path_abspath p : straight (Os.path_abspath p).
Proof. unfold Os.path_abspath. straight. Qed.
Lemma straight_read_text p : straight (Os.read_text p).
Proof. unfold Os.read_text. straight. Qed.
Lemma straight_write_text p data : straight (Os.write_text p data).
Proof. unfold Os.write_text. straight. Qed.
Lemma straight_makedirs p : straight (Os.makedirs p).
Proof. unfold Os.makedirs. straight. Qed.
Lemma straight_remove p : straight (Os.remove p).
Proof. unfold Os.remove. straight. Qed.
Lemma straight_rmtree p : straight (Os.rmtree p).
Proof. unfold Os.rmtree. straight. Qed.

#[export] Hint Resolve straight_path_exists straight_path_abspath straight_read_text
  straight_write_text straight_makedirs straight_remove straight_rmtree : straight.

(** ** The [os] calls, case by case *)

Lemma path_exists_run (p : string) (w : world) :
  Os.path_exists p w =
  (w, Ret (match disk w !! resolve (cwd w) p with Some _ => true | None => false end)).
Proof. reflexivity. Qed.

Lemma path_abspath_run (p : string) (w : world) :
  Os.path_abspath p w = (w, Ret (abspath (cwd w) p)).
Proof. reflexivity. Qed.

Lemma read_text_file (p data : string) (w : world) :
  disk w !! resolve (cwd w) p = Some (File data) ->
  Os.read_text p w = (w, Ret (newlines data)).
Proof. intros Hd. unfold Os.read_text. rewrite bind_run. simpl. now rewrite Hd. Qed.

Lemma write_text_over (p data old : string) (w : world) :
  disk w !! resolve (cwd w) p = Some (File old) ->
  Os.write_text p data w =
  (set_disk (<[resolve (cwd w) p := File data]> (disk w)) w, Ret tt).
Proof. intros Hd. unfold Os.write_text. rewrite bind_run. simpl. now rewrite Hd. Qed.

Lemma write_text_ret (p data : string) (w w' : world) (u : unit) :
  Os.write_text p data w = (w', Ret u) ->
  w' = set_disk (<[resolve (cwd w) p := File data]> (disk w)) w.
Proof.
  unfold Os.write_text. rewrite bind_run. simpl.
  destruct (disk w !! resolve (cwd w) p) as [[old|]|].
  - now intros [= <-].
  - discriminate.
  - destruct (resolve (cwd w) p) as [|c l]; [discriminate |].
    destruct (disk w !! Os.parent (c :: l)) as [[?|]|]; try discriminate.
    now intros [= <-].
Qed.

End StoreFacts.

(* ===================================================================== *)
(** * Missing artifacts: [get_chat_history], [delete_agent],
      [update_agent_config] *)
(* ===================================================================== *)

Section Missing.
Import OsPath OsPathFacts Layout LayoutFacts StoreFacts AgentClass.
Context `{JsonLib}.

(** C10. When [agents/<name>.yaml] does not exist, [get_chat_history]
    returns the empty string; it raises nothing and leaves the world, and so
    the file store, as it was: the file is not created. *)
Theorem get_chat_history_missing (agent_name : string) (w : world) :
  Os.path_exists (join "agents" (agent_name +:+ ".yaml")) w = (w, Ret false) ->
  get_chat_history agent_name w = (w, Ret "").
Proof.
  intros Hex. unfold get_chat_history. rewrite bind_run, Hex. reflexivity.
Qed.


(** C6. When the agent has no [config.json], [update_agent_config] returns
    the message [Agent <name> configuration not found.] and the world is
    unchanged: no file is created and nothing on disk is modified. *)
Theorem update_agent_config_missing (new_config : pydict) (w : world) :
  Os.path_exists (join (join "agents" (AGENT_NAME (this w))) "config.json") w
    = (w, Ret false) ->
  update_agent_config new_config w =
  (w, Ret ("Agent " +:+ AGENT_NAME (this w) +:+ " configuration not found.")).
Proof.
  intros Hex. unfold update_agent_config.
  rewrite bind_run. change (self w) with (w, Ret (this w)). cbv iota beta.
  rewrite bind_run, Hex. reflexivity.
Qed.

End Missing.

(* ===================================================================== *)
(** * Command discovery: [load_commands] *)
(* ===================================================================== *)

Section Discovery.
Import Layout StoreFacts AgentClass.

Lemma append_commands_eq (items : list (string * func)) (commands : list catalog_entry) :
  append_commands items commands = commands ++ map entry_of items.
Proof.
  unfold append_commands. revert commands.
  induction items as [|item items IH]; intros commands; simpl.
  - now rewrite app_nil_r.
  - rewrite IH, <- app_assoc. reflexivity.
Qed.

(** Discovery reads the plugin directory only: it leaves the world as it
    is, and what it returns is the same in every world with that plugin
    directory. *)
Lemma load_commands_loop_world (files : list command_file)
    (commands : list catalog_entry) (w : world) :
  fst (load_commands_loop files commands w) = w.
Proof.
  revert commands. induction files as [|f files IH]; intros commands; simpl.
  - reflexivity.
  - destruct (instantiate f) as [e|o]; [reflexivity |].
    destruct (obj_commands o); apply IH.
Qed.

Lemma load_commands_loop_result (files : list command_file)
    (commands : list catalog_entry) (w w' : world) :
  snd (load_commands_loop files commands w) = snd (load_commands_loop files commands w').
Proof.
  revert commands. induction files as [|f files IH]; intros commands; simpl.
  - reflexivity.
  - destruct (instantiate f) as [e|o]; [reflexivity |].
    destruct (obj_commands o); apply IH.
Qed.

Lemma load_commands_world (w : world) : fst (load_commands w) = w.
Proof. unfold load_commands. rewrite bind_run. simpl. apply load_commands_loop_world. Qed.

Lemma load_commands_result (w w' : world) :
  plugin_dir w' = plugin_dir w -> snd (load_commands w') = snd (load_commands w).
Proof.
  intros Hp. unfold load_commands. rewrite !bind_run. simpl. rewrite Hp.
  apply load_commands_loop_result.
Qed.

Lemma load_commands_loop_returns (files : list command_file)
    (commands : list catalog_entry) (w : world) :
  snd (load_commands_loop files commands w) <> OutOfFuel.
Proof.
  revert commands. induction files as [|f files IH]; intros commands; simpl.
  - discriminate.
  - destruct (instantiate f) as [e|o]; [discriminate |].
    destruct (obj_commands o); apply IH.
Qed.

Lemma straight_load_commands : straight load_commands.
Proof.
  intros w. split.
  - rewrite load_commands_world. apply same_process_refl.
  - unfold load_commands. rewrite bind_run. simpl. apply load_commands_loop_returns.
Qed.

(** C8. A plugin directory with two modules, one whose object has a
    [commands] mapping with the items [items] and one whose object has no
    [commands] attribute, in either order of enumeration: discovery returns
    normally, with one catalog entry per item of the mapping, in the order
    of the mapping; the other module contributes nothing and raises
    nothing. *)
Theorem load_commands_two_modules (w : world) (with_commands without : command_file)
    (items : list (string * func)) :
  instantiate with_commands = inr {| obj_commands := Some items |} ->
  instantiate without = inr {| obj_commands := None |} ->
  plugin_dir w = [with_commands; without] \/ plugin_dir w = [without; with_commands] ->
  exists entries,
    load_commands w = (w, Ret entries) /\
    entries = map entry_of items /\
    length entries = length items.
Proof.
  intros Hc Hn Hdir. exists (map entry_of items).
  split; [| split; [reflexivity | apply length_map]].
  unfold load_commands. rewrite bind_run. simpl.
  destruct Hdir as [-> | ->]; simpl; rewrite Hc, Hn; simpl;
    now rewrite ?Hc, ?Hn, append_commands_eq.
Qed.

End Discovery.

(* ===================================================================== *)
(** * [wipe_agent_memories] and the interaction log *)
(* ===================================================================== *)

Section Wipe.
Import OsPath OsPathFacts Layout LayoutFacts StoreFacts AgentClass.

(** [shutil.rmtree] on a location: what is not at or below it stays. *)
Lemma rmtree_run (p : string) (w : world) :
  exists w',
    fst (Os.rmtree p w) = w' /\ same_process w w' /\
    (forall l, ~ resolve (cwd w) p `prefix_of` l -> disk w' !! l = disk w !! l) /\
    (disk w !! resolve (cwd w) p = Some Dir ->
     forall l, resolve (cwd w) p `prefix_of` l -> disk w' !! l = None).
Proof.
  unfold Os.rmtree. rewrite bind_run. simpl.
  destruct (disk w !! resolve (cwd w) p) as [[data|]|] eqn:Hd; simpl;
    eexists; (split; [reflexivity |]); (split; [repeat split |]);
    (split; [| try discriminate]); try reflexivity.
  - intros l Hl. simpl. rewrite map_lookup_filter.
    destruct (disk w !! l) as [x|]; [| reflexivity]. simpl.
    now rewrite option_guard_True.
  - intros _ l Hl. simpl. apply map_lookup_filter_None_2.
    right. intros x _ Hn. now apply Hn.
Qed.

(** The memories folder that [wipe_agent_memories] removes, for any agent
    name. *)
Lemma wiped_location (cwd' agent_name : string) :
  resolve cwd' (join (abspath cwd' ("agents/" +:+ agent_name +:+ "/")) "memories")
  = resolve cwd' ("agents/" +:+ agent_name +:+ "/") ++ ["memories"].
Proof. unfold abspath. apply resolve_join_path_of; [apply resolve_clean | reflexivity]. Qed.

Lemma wipe_agent_memories_frame (agent_name : string) (w : world) :
  let folder := resolve (cwd w) ("agents/" +:+ agent_name +:+ "/") ++ ["memories"] in
  exists w',
    fst (wipe_agent_memories agent_name w) = w' /\ same_process w w' /\
    (forall l, ~ folder `prefix_of` l -> disk w' !! l = disk w !! l) /\
    (disk w !! folder = Some Dir -> forall l, folder `prefix_of` l -> disk w' !! l = None).
Proof.
  intros folder. unfold wipe_agent_memories.
  rewrite bind_run, path_abspath_run. cbv iota beta.
  rewrite bind_run, path_exists_run. cbv iota beta.
  rewrite wiped_location. fold folder.
  destruct (disk w !! folder) as [x|] eqn:Hd.
  - unfold when. destruct (rmtree_run
      (join (abspath (cwd w) ("agents/" +:+ agent_name +:+ "/")) "memories") w)
      as (w' & Hw & Hsame & Hkeep & Hgone).
    rewrite wiped_location in Hkeep, Hgone. fold folder in Hkeep, Hgone.
    exists w'. repeat split; try assumption; try apply Hsame.
    intros Hdir. apply Hgone. congruence.
  - exists w. simpl. repeat split; try reflexivity. discriminate.
Qed.

(** C9 (amended). For an agent whose name is a plain file name, [wipe_agent_memories]
    changes the store only at and below [agents/<name>/memories], which is
    gone afterwards when it was a directory; the log [agents/<name>.yaml] is
    as before, and [get_chat_history] after the wipe returns what it
    returned before. *)
Theorem wipe_agent_memories_keeps_log (agent_name : string) (w : world) :
  plain agent_name = true ->
  exists w',
    fst (wipe_agent_memories agent_name w) = w' /\
    (forall l, ~ memories_folder (cwd w) agent_name `prefix_of` l ->
               disk w' !! l = disk w !! l) /\
    (disk w !! memories_folder (cwd w) agent_name = Some Dir ->
     forall l, memories_folder (cwd w) agent_name `prefix_of` l -> disk w' !! l = None) /\
    disk w' !! log_file (cwd w) agent_name = disk w !! log_file (cwd w) agent_name /\
    snd (get_chat_history agent_name w') = snd (get_chat_history agent_name w).
Proof.
  intros Hn.
  destruct (wipe_agent_memories_frame agent_name w) as (w' & Hw & Hsame & Hkeep & Hgone).
  rewrite resolve_agent_folder_slash in Hkeep, Hgone by assumption.
  assert (agent_folder (cwd w) agent_name ++ ["memories"]
          = memories_folder (cwd w) agent_name) as Hm.
  { unfold agent_folder, memories_folder. now rewrite <- app_assoc. }
  rewrite Hm in Hkeep, Hgone.
  assert (~ memories_folder (cwd w) agent_name `prefix_of` log_file (cwd w) agent_name)
    as Hout.
  { intros Hp. apply prefix_length in Hp.
    unfold memories_folder, log_file in Hp. rewrite !length_app in Hp. simpl in Hp. lia. }
  exists w'. repeat split; try assumption.
  - now apply Hkeep.
  - destruct Hsame as (Hcwd & _ & _).
    unfold get_chat_history. rewrite !bind_run, !path_exists_run. cbv iota beta.
    rewrite Hcwd, join_log_file, resolve_log_file, (Hkeep _ Hout) by assumption.
    destruct (disk w !! log_file (cwd w) agent_name) as [x|] eqn:Hd; [| reflexivity].
    change (negb true) with false. cbv iota.
    rewrite !bind_run. unfold Os.read_text. rewrite !bind_run. simpl.
    rewrite Hcwd, resolve_log_file, (Hkeep _ Hout), Hd by assumption.
    destruct x; reflexivity.
Qed.

End Wipe.

(* ===================================================================== *)
(** * Facts about dictionaries *)
(* ===================================================================== *)

Module DictFacts.

Lemma dict_get_set_eq (k : string) (v : pyval) (d : pydict) :
  dict_get k (dict_set k v d) = Some v.
Proof.
  induction d as [|[k' v'] d IH]; simpl.
  - now rewrite String.eqb_refl.
  - destruct (String.eqb k k') eqn:E; simpl; [now rewrite String.eqb_refl |].
    now rewrite E.
Qed.

Lemma dict_get_set_ne (k k' : string) (v : pyval) (d : pydict) :
  k <> k' -> dict_get k' (dict_set k v d) = dict_get k' d.
Proof.
  intros Hne. induction d as [|[k1 v1] d IH]; simpl.
  - apply not_eq_sym, String.eqb_neq in Hne. now rewrite Hne.
  - destruct (String.eqb k k1) eqn:E; simpl.
    + apply String.eqb_eq in E. subst k1.
      apply not_eq_sym, String.eqb_neq in Hne. now rewrite Hne.
    + now rewrite IH.
Qed.


Lemma existsb_keys_get (k : string) (d : pydict) :
  existsb (String.eqb k) (map fst d) = dict_mem k d.
Proof.
  unfold dict_mem. induction d as [|[k' v'] d IH]; simpl; [reflexivity |].
  destruct (String.eqb k k'); [reflexivity | exact IH].
Qed.

Lemma existsb_keys_set (k k' : string) (v : pyval) (d : pydict) :
  existsb (String.eqb k') (map fst (dict_set k v d))
  = String.eqb k' k || existsb (String.eqb k') (map fst d).
Proof.
  rewrite !existsb_keys_get. unfold dict_mem.
  destruct (String.eqb k' k) eqn:E.
  - apply String.eqb_eq in E. subst. now rewrite dict_get_set_eq.
  - apply String.eqb_neq in E. now rewrite dict_get_set_ne by congruence.
Qed.

Lemma distinct_set (k : string) (v : pyval) (d : pydict) :
  distinct (map fst d) = true -> distinct (map fst (dict_set k v d)) = true.
Proof.
  induction d as [|[k' v'] d IH]; simpl; [reflexivity |].
  intros Hd. apply andb_true_iff in Hd as [Hk Hd].
  destruct (String.eqb k k') eqn:E; simpl.
  - apply String.eqb_eq in E. subst. now rewrite Hk, Hd.
  - rewrite existsb_keys_set, (IH Hd), String.eqb_sym, E. simpl.
    now rewrite Hk.
Qed.

Lemma wf_dict (d : pydict) :
  wf (PDict d) = distinct (map fst d) && wf_items d.
Proof.
  simpl. f_equal. unfold wf_items.
  induction d as [|[k v] d IH]; simpl; [reflexivity | now rewrite IH].
Qed.

Lemma wf_items_set (k : string) (v : pyval) (d : pydict) :
  wf v = true -> wf_items d = true -> wf_items (dict_set k v d) = true.
Proof.
  unfold wf_items. intros Hv. induction d as [|[k' v'] d IH]; simpl.
  - now rewrite Hv.
  - intros Hd. apply andb_true_iff in Hd as [Hv' Hd].
    destruct (String.eqb k k'); simpl; [now rewrite Hv, Hd |].
    now rewrite Hv', IH.
Qed.

Lemma wf_set (k : string) (v : pyval) (d : pydict) :
  wf v = true -> wf (PDict d) = true -> wf (PDict (dict_set k v d)) = true.
Proof.
  rewrite !wf_dict. intros Hv Hd. apply andb_true_iff in Hd as [Hk Hd].
  now rewrite distinct_set, wf_items_set.
Qed.

Lemma wf_update (d new : pydict) :
  wf (PDict d) = true -> wf_items new = true ->
  wf (PDict (dict_update d new)) = true.
Proof.
  unfold dict_update. revert d.
  induction new as [|[k v] new IH]; intros d Hd Hnew; simpl; [exact Hd |].
  unfold wf_items in Hnew. simpl in Hnew. apply andb_true_iff in Hnew as [Hv Hnew].
  apply IH; [now apply wf_set | exact Hnew].
Qed.

Lemma wf_get (k : string) (v : pyval) (d : pydict) :
  wf (PDict d) = true -> dict_get k d = Some v -> wf v = true.
Proof.
  rewrite wf_dict. intros Hd. apply andb_true_iff in Hd as [_ Hd].
  unfold wf_items in Hd. induction d as [|[k' v'] d IH]; simpl; [discriminate |].
  simpl in Hd. apply andb_true_iff in Hd as [Hv' Hd].
  destruct (String.eqb k k'); [now intros [= <-] | now apply IH].
Qed.


(** The dictionary [add_agent] builds from a catalog. *)
Lemma command_dict_fold (commands_list : list catalog_entry) (d : pydict) :
  fold_left
    (fun command_dict (command : catalog_entry) =>
       let '(friendly_name, command_name, command_args) := command in
       dict_set friendly_name (PBool false) command_dict)
    commands_list d
  = dict_update d (map (fun c : catalog_entry => (fst (fst c), PBool false)) commands_list).
Proof.
  unfold dict_update. revert d.
  induction commands_list as [|[[n f] a] l IH]; intros d; simpl; [reflexivity |].
  apply IH.
Qed.

Lemma wf_command_dict (commands_list : list catalog_entry) :
  wf (PDict (AgentClass.command_dict_of commands_list)) = true.
Proof.
  unfold AgentClass.command_dict_of. rewrite command_dict_fold.
  apply wf_update; [reflexivity |].
  unfold wf_items. induction commands_list; simpl; auto.
Qed.

Lemma wf_fresh_config (commands_list : list catalog_entry) :
  wf (Layout.fresh_config commands_list) = true.
Proof.
  unfold Layout.fresh_config.
  change (wf (PDict [("commands", PDict (AgentClass.command_dict_of commands_list));
                     ("settings", PDict [])]))
    with (true && (wf (PDict (AgentClass.command_dict_of commands_list)) && true)).
  now rewrite wf_command_dict.
Qed.

(** Every catalog command is in the dictionary, set to [False], and the
    dictionary has no other key. *)
Lemma command_dict_get (commands_list : list catalog_entry) (k : string) :
  dict_get k (AgentClass.command_dict_of commands_list)
  = if existsb (String.eqb k) (map (fun c : catalog_entry => fst (fst c)) commands_list)
    then Some (PBool false) else None.
Proof.
  unfold AgentClass.command_dict_of. rewrite command_dict_fold.
  change (@None pyval) with (dict_get k []). generalize (@nil (string * pyval)).
  unfold dict_update. induction commands_list as [|[[n f] a] l IH]; intros d; simpl;
    [reflexivity |].
  rewrite IH. destruct (String.eqb k n) eqn:E; simpl.
  - apply String.eqb_eq in E. subst.
    destruct (existsb _ _); [reflexivity | apply dict_get_set_eq].
  - apply String.eqb_neq in E.
    destruct (existsb _ _); [reflexivity |].
    now rewrite dict_get_set_ne by congruence.
Qed.

End DictFacts.

(* ===================================================================== *)
(** * Resolving the configuration: [add_agent] and [get_agent_config] *)
(* ===================================================================== *)

Section Resolve.
Import OsPath OsPathFacts Layout LayoutFacts NewlineFacts StoreFacts DictFacts AgentClass.
Context `{JsonLib}.

Lemma straight_create_agent_folder n : straight (create_agent_folder n).
Proof. unfold create_agent_folder. straight. Qed.

Lemma straight_create_agent_config_file n ps cs :
  straight (create_agent_config_file n ps cs).
Proof. unfold create_agent_config_file. straight. Qed.

Lemma straight_add_agent n ps : straight (add_agent n ps).
Proof.
  unfold add_agent. pose proof straight_create_agent_folder.
  pose proof straight_create_agent_config_file. pose proof straight_load_commands.
  straight.
Qed.

Lemma straight_loads text : straight (loads text).
Proof. unfold loads. straight. Qed.

Lemma straight_body : straight get_agent_config_body.
Proof.
  unfold get_agent_config_body, self. pose proof straight_add_agent.
  pose proof straight_loads. straight.
Qed.

(** A text that was dumped is not empty. *)
Lemma json_dumps_nonempty (v : pyval) : wf v = true -> nonempty (json_dumps v) = true.
Proof.
  intros Hv. destruct (json_dumps v) eqn:E; [| reflexivity].
  pose proof (json_loads_dumps v Hv) as Hl. rewrite E, json_loads_empty in Hl.
  discriminate.
Qed.

(** When [add_agent] returns, the configuration file holds the document it
    built from the catalog and the settings it was given. *)
Lemma add_agent_ret (n : string) (ps v : pyval) (w w' : world) :
  add_agent n ps w = (w', Ret v) ->
  same_process w w' /\
  exists commands_list,
    snd (load_commands w) = Ret commands_list /\
    disk w' !! resolve (cwd w) (join (join "agents" n) "config.json")
    = Some (File (json_dumps
                    (PDict [("commands", PDict (command_dict_of commands_list));
                            ("settings", ps)]))).
Proof.
  intros Hrun. split.
  { pose proof (straight_add_agent n ps w) as [Hs _]. now rewrite Hrun in Hs. }
  unfold add_agent in Hrun.
  apply bind_ret_inv in Hrun as (w1 & folder & H1 & Hrun).
  apply bind_ret_inv in Hrun as (w2 & cmds & H2 & Hrun).
  apply bind_ret_inv in Hrun as (w3 & file & H3 & Hrun).
  injection Hrun as <- _.
  pose proof (straight_create_agent_folder n w) as [(Hc1 & Hp1 & _) _].
  rewrite H1 in Hc1, Hp1. simpl in Hc1, Hp1.
  pose proof (load_commands_world w1) as Hw2. rewrite H2 in Hw2. simpl in Hw2. subst w2.
  exists cmds. split.
  { rewrite (load_commands_result w1 w) by congruence. now rewrite H2. }
  unfold create_agent_config_file in H3.
  apply bind_ret_inv in H3 as (w4 & b & H4 & H3).
  rewrite path_exists_run in H4. injection H4 as <- _.
  apply bind_ret_inv in H3 as (w5 & u & H5 & H3).
  apply bind_ret_inv in H3 as (w6 & u' & H6 & H3).
  injection H3 as <- _.
  assert (cwd w5 = cwd w) as Hc5.
  { pose proof (straight_when (negb b) (Os.makedirs (join "agents" n))
                  (straight_makedirs _) w1) as [(Hc & _) _].
    rewrite H5 in Hc. simpl in Hc. congruence. }
  apply write_text_ret in H6. subst w6. simpl.
  rewrite Hc5. apply lookup_insert_eq.
Qed.

(** One pass of the loop, for an agent with a plain name: what it does is
    decided by the entry at the location of the configuration file. *)
Lemma body_run (w : world) :
  plain (AGENT_NAME (this w)) = true ->
  get_agent_config_body w =
  match disk w !! config_file (cwd w) (AGENT_NAME (this w)) with
  | Some (File content) =>
      if nonempty (strip content) then
        match json_loads (strip content) with
        | Some agent_config => (w, Ret (Break agent_config))
        | None => (w, Raise JSONDecodeError)
        end
      else (add_agent (AGENT_NAME (this w)) (PDict []);; mret Continue) w
  | Some Dir => (w, Raise IsADirectoryError)
  | None => (add_agent (AGENT_NAME (this w)) (PDict []);; mret Continue) w
  end.
Proof.
  intros Hn. unfold get_agent_config_body.
  rewrite bind_run. change (self w) with (w, Ret (this w)). cbv iota beta.
  rewrite bind_run, path_abspath_run. cbv iota beta.
  rewrite bind_run, path_exists_run. cbv iota beta.
  rewrite resolve_abspath, resolve_config_file by assumption.
  destruct (disk w !! config_file (cwd w) (AGENT_NAME (this w))) as [[content|]|] eqn:Hd;
    [| | reflexivity].
  - rewrite bind_run.
    rewrite (read_text_file _ content)
      by now rewrite resolve_abspath, resolve_config_file.
    cbv iota beta zeta. rewrite strip_newlines, nonempty_newlines.
    destruct (nonempty (strip content)); [| reflexivity].
    rewrite bind_run. unfold loads. rewrite json_loads_newlines.
    destruct (json_loads (strip content)); reflexivity.
  - rewrite bind_run. unfold Os.read_text. rewrite bind_run. simpl.
    now rewrite resolve_abspath, resolve_config_file, Hd.
Qed.

(** A pass that ended in [Continue] has regenerated the file: the next pass
    finds it and returns the document that was written. *)
Lemma body_after_continue (w w1 : world) :
  plain (AGENT_NAME (this w)) = true ->
  get_agent_config_body w = (w1, Ret Continue) ->
  same_process w w1 /\
  exists commands_list,
    snd (load_commands w) = Ret commands_list /\
    disk w1 !! config_file (cwd w) (AGENT_NAME (this w))
      = Some (File (json_dumps (fresh_config commands_list))) /\
    get_agent_config_body w1 = (w1, Ret (Break (fresh_config commands_list))).
Proof.
  intros Hn Hbody.
  assert (exists v, add_agent (AGENT_NAME (this w)) (PDict []) w = (w1, Ret v)) as [v Hadd].
  { rewrite body_run in Hbody by assumption.
    assert (forall w0, (add_agent (AGENT_NAME (this w)) (PDict []);; mret Continue) w
                       = (w0, Ret (@Continue pyval)) ->
                       exists v, add_agent (AGENT_NAME (this w)) (PDict []) w = (w0, Ret v))
      as Hinv.
    { intros w0 Hr. apply bind_ret_inv in Hr as (w2 & v & Hv & Hr).
      injection Hr as <-. now exists v. }
    destruct (disk w !! _) as [[content|]|]; [| discriminate | now apply Hinv].
    destruct (nonempty (strip content)); [| now apply Hinv].
    destruct (json_loads (strip content)); discriminate. }
  apply add_agent_ret in Hadd as (Hsame & cmds & Hcmds & Hfile).
  split; [exact Hsame |]. exists cmds. split; [exact Hcmds |].
  rewrite join_config_file, resolve_config_file in Hfile by assumption.
  fold (fresh_config cmds) in Hfile. split; [exact Hfile |].
  destruct Hsame as (Hc & _ & Ht).
  rewrite body_run by now rewrite Ht.
  rewrite Hc, Ht, Hfile, json_dumps_strip.
  rewrite json_dumps_nonempty, json_loads_dumps by apply wf_fresh_config.
  reflexivity.
Qed.

Lemma get_agent_config_step (fuel : nat) (w : world) :
  get_agent_config (S fuel) w =
  match get_agent_config_body w with
  | (w', Ret (Break agent_config)) => (w', Ret agent_config)
  | (w', Ret Continue) => get_agent_config fuel w'
  | (w', Raise e) => (w', Raise e)
  | (w', OutOfFuel) => (w', OutOfFuel)
  end.
Proof.
  simpl. rewrite bind_run.
  destruct (get_agent_config_body w) as [w' [[c|]|e|]]; reflexivity.
Qed.

(** A configuration file with text that is not blank and does not parse:
    the first pass raises [JSONDecodeError], and nothing is regenerated. *)
Lemma get_agent_config_unparsable (w : world) (content : string) (fuel : nat) :
  plain (AGENT_NAME (this w)) = true ->
  disk w !! config_file (cwd w) (AGENT_NAME (this w)) = Some (File content) ->
  nonempty (strip content) = true ->
  json_loads (strip content) = None ->
  get_agent_config (S fuel) w = (w, Raise JSONDecodeError).
Proof.
  intros Hn Hd Hne Hl.
  now rewrite get_agent_config_step, body_run, Hd, Hne, Hl by assumption.
Qed.

(** More fuel does not change a call that has ended. *)
Lemma get_agent_config_more_fuel (fuel : nat) :
  forall (w w' : world) (r : result pyval),
    get_agent_config fuel w = (w', r) -> r <> OutOfFuel ->
    forall fuel', fuel <= fuel' -> get_agent_config fuel' w = (w', r).
Proof.
  induction fuel as [|fuel IH]; intros w w' r Hrun Hr fuel' Hle.
  - injection Hrun as _ <-. congruence.
  - destruct fuel' as [|fuel']; [lia |].
    rewrite get_agent_config_step in Hrun. rewrite get_agent_config_step.
    destruct (get_agent_config_body w) as [w1 [[c|]|e|]]; try exact Hrun.
    apply (IH _ _ _ Hrun Hr). lia.
Qed.

(** A call has one outcome, whatever fuel lets it end. *)
Lemma get_agent_config_outcome (f1 f2 : nat) (w w1 w2 : world) (r1 r2 : result pyval) :
  get_agent_config f1 w = (w1, r1) -> r1 <> OutOfFuel ->
  get_agent_config f2 w = (w2, r2) -> r2 <> OutOfFuel ->
  w1 = w2 /\ r1 = r2.
Proof.
  intros H1 Hr1 H2 Hr2.
  pose proof (get_agent_config_more_fuel _ _ _ _ H1 Hr1 (f1 + f2) ltac:(lia)) as E1.
  pose proof (get_agent_config_more_fuel _ _ _ _ H2 Hr2 (f1 + f2) ltac:(lia)) as E2.
  rewrite E1 in E2. now injection E2.
Qed.

(** C3 (amended). For an agent with a plain name and any store, a call of
    [get_agent_config] ends within two passes of its loop, returning or
    raising, whatever fuel beyond two it is given; and a pass that
    regenerated the file is followed by a pass that returns without
    regenerating: at most one regeneration per call. *)
Theorem get_agent_config_terminates (w : world) :
  plain (AGENT_NAME (this w)) = true ->
  (exists w' r,
     r <> OutOfFuel /\
     forall fuel, 2 <= fuel -> get_agent_config fuel w = (w', r)) /\
  (forall w1, get_agent_config_body w = (w1, Ret Continue) ->
     exists agent_config,
       get_agent_config_body w1 = (w1, Ret (Break agent_config))).
Proof.
  intros Hn. split.
  - destruct (get_agent_config_body w) as [w1 [[c|]|e|]] eqn:Hbody.
    + exists w1, (Ret c). split; [discriminate |].
      intros [|fuel] Hf; [lia |]. now rewrite get_agent_config_step, Hbody.
    + destruct (body_after_continue w w1 Hn Hbody) as (_ & cmds & _ & _ & Hnext).
      exists w1, (Ret (fresh_config cmds)). split; [discriminate |].
      intros [|[|fuel]] Hf; try lia.
      now rewrite get_agent_config_step, Hbody, get_agent_config_step, Hnext.
    + exists w1, (Raise e). split; [discriminate |].
      intros [|fuel] Hf; [lia |]. now rewrite get_agent_config_step, Hbody.
    + pose proof (straight_body w) as [_ Hr]. rewrite Hbody in Hr. now contradiction Hr.
  - intros w1 Hbody.
    apply body_after_continue in Hbody as (_ & cmds & _ & _ & Hnext); [| exact Hn].
    now exists (fresh_config cmds).
Qed.

End Resolve.

(* ===================================================================== *)
(** * Directories: trees and [os.makedirs] *)
(* ===================================================================== *)

Module TreeFacts.
Import OsPath OsPathFacts Layout LayoutFacts StoreFacts.

Lemma inits_snoc (l : location) (c : string) :
  Os.inits (l ++ [c]) = Os.inits l ++ [l ++ [c]].
Proof.
  induction l as [|a l IH]; simpl; [reflexivity |].
  now rewrite IH, map_app.
Qed.

Lemma tree_parent (d : gmap (list string) node) (l : location) (c : string) (x : node) :
  is_tree d -> d !! (l ++ [c]) = Some x -> d !! l = Some Dir.
Proof.
  intros Ht Hd. apply (map_Forall_lookup_1 _ _ _ _ Ht) in Hd as [Hd | Hd].
  - now destruct l.
  - now rewrite removelast_last in Hd.
Qed.

(** In a tree, the locations on the way to a directory are directories. *)
Lemma tree_inits (d : gmap (list string) node) (l : location) :
  is_tree d -> d !! l = Some Dir -> Forall (fun q => d !! q = Some Dir) (Os.inits l).
Proof.
  intros Ht. induction l as [|c l IH] using rev_ind; intros Hd.
  - simpl. now constructor.
  - rewrite inits_snoc. apply Forall_app. split.
    + apply IH. eapply tree_parent; eassumption.
    + now constructor.
Qed.

Lemma insert_dirs_id (d : gmap (list string) node) (qs : list location) :
  Forall (fun q => d !! q = Some Dir) qs ->
  fold_right (fun q m => <[q := Dir]> m) d qs = d.
Proof.
  induction 1 as [|q qs Hq Hqs IH]; simpl; [reflexivity |].
  rewrite IH. now apply insert_id.
Qed.

(** Creating one directory in an existing one. *)
Lemma mkdirs_snoc (d : gmap (list string) node) (l : location) (c : string) :
  Forall (fun q => d !! q = Some Dir) (Os.inits l) ->
  Os.mkdirs d (l ++ [c]) = <[l ++ [c] := Dir]> d.
Proof.
  intros Hl. unfold Os.mkdirs. rewrite inits_snoc, fold_right_app. simpl.
  apply insert_dirs_id.
  eapply Forall_impl; [exact Hl |]. intros q Hq. cbv beta in *.
  destruct (decide (l ++ [c] = q)) as [<- | Hne].
  - apply lookup_insert_eq.
  - now rewrite lookup_insert_ne.
Qed.

Lemma no_file_on_the_way (d : gmap (list string) node) (l : location) (c : string) :
  Forall (fun q => d !! q = Some Dir) (Os.inits l) ->
  d !! (l ++ [c]) = None ->
  existsb (Os.is_file d) (Os.inits (l ++ [c])) = false.
Proof.
  intros Hl Hc. rewrite inits_snoc, existsb_app. simpl.
  unfold Os.is_file at 2. rewrite Hc. simpl. rewrite orb_false_r.
  induction Hl as [|q qs Hq Hqs IH]; simpl; [reflexivity |].
  unfold Os.is_file at 1. now rewrite Hq.
Qed.

(** [os.makedirs] of a missing entry of an existing directory. *)
Lemma makedirs_snoc (p : string) (l : location) (c : string) (w : world) :
  resolve (cwd w) p = l ++ [c] ->
  Forall (fun q => disk w !! q = Some Dir) (Os.inits l) ->
  disk w !! (l ++ [c]) = None ->
  Os.makedirs p w = (set_disk (<[l ++ [c] := Dir]> (disk w)) w, Ret tt).
Proof.
  intros Hp Hl Hc. unfold Os.makedirs. rewrite bind_run. simpl.
  rewrite Hp, Hc, no_file_on_the_way, mkdirs_snoc by assumption. reflexivity.
Qed.

Lemma write_text_new (p data : string) (l : location) (c : string) (w : world) :
  resolve (cwd w) p = l ++ [c] ->
  disk w !! l = Some Dir -> disk w !! (l ++ [c]) = None ->
  Os.write_text p data w = (set_disk (<[l ++ [c] := File data]> (disk w)) w, Ret tt).
Proof.
  intros Hp Hl Hc. unfold Os.write_text. rewrite bind_run. simpl.
  rewrite Hp, Hc. unfold Os.parent. rewrite removelast_last, Hl.
  destruct l; reflexivity.
Qed.

End TreeFacts.

(* ===================================================================== *)
(** * Resolving the configuration of a new agent and of an agent with a
      blank file *)
(* ===================================================================== *)

Section Regenerate.
Import OsPath OsPathFacts Layout LayoutFacts StoreFacts DictFacts TreeFacts AgentClass.
Context `{JsonLib}.

Lemma load_commands_run (w : world) (commands_list : list catalog_entry) :
  snd (load_commands w) = Ret commands_list ->
  load_commands w = (w, Ret commands_list).
Proof.
  intros Hr. pose proof (load_commands_world w) as Hw.
  destruct (load_commands w) as [w' r]. simpl in *. congruence.
Qed.

Lemma config_file_snoc (cwd' n : string) :
  config_file cwd' n = agent_folder cwd' n ++ ["config.json"].
Proof. unfold config_file, agent_folder. now rewrite <- app_assoc. Qed.

Lemma bind_ret_run {A B} (m : M A) (f : A -> M B) (w w1 : world) (a : A) :
  m w = (w1, Ret a) -> (m ≫= f) w = f a w1.
Proof. intros Hm. now rewrite bind_run, Hm. Qed.

(** [create_agent_folder] when both directories are there. *)
Lemma create_agent_folder_existing (n : string) (w : world) :
  plain n = true ->
  disk w !! agents_dir (cwd w) = Some Dir ->
  disk w !! agent_folder (cwd w) n = Some Dir ->
  create_agent_folder n w = (w, Ret ("agents/" +:+ n)).
Proof.
  intros Hn Ha Hf. unfold create_agent_folder. cbv zeta.
  rewrite bind_run, path_exists_run. fold (agents_dir (cwd w)). rewrite Ha.
  cbv iota beta. rewrite bind_run. change (when (negb true) ?m w) with (w, Ret tt).
  cbv iota beta.
  rewrite bind_run, path_exists_run, resolve_agent_folder, Hf by assumption.
  reflexivity.
Qed.

(** [create_agent_folder] for an agent that has no folder yet, in a tree
    where the working directory exists and [agents] is not a regular
    file. *)
Lemma create_agent_folder_fresh (n : string) (w : world) :
  plain n = true ->
  is_tree (disk w) ->
  disk w !! normalise (split_slash (cwd w)) = Some Dir ->
  Os.is_file (disk w) (agents_dir (cwd w)) = false ->
  disk w !! agent_folder (cwd w) n = None ->
  create_agent_folder n w =
  (set_disk (<[agent_folder (cwd w) n := Dir]>
             (<[agents_dir (cwd w) := Dir]> (disk w))) w,
   Ret ("agents/" +:+ n)).
Proof.
  intros Hn Ht Hcwd Ha Hf.
  pose proof (tree_inits _ _ Ht Hcwd) as Hbase.
  pose proof (agents_dir_eq (cwd w)) as HA.
  set (A := agents_dir (cwd w)) in *. set (F := agent_folder (cwd w) n) in *.
  set (d1 := <[A := Dir]> (disk w)).
  assert (A <> F) as HAF.
  { unfold F, agent_folder. fold A. intros E. apply (f_equal (@length string)) in E.
    rewrite length_app in E. simpl in E. lia. }
  assert ((b ← Os.path_exists "agents"; when (negb b) (Os.makedirs "agents")) w
          = (set_disk d1 w, Ret tt)) as Hstep1.
  { rewrite bind_run, path_exists_run. fold (agents_dir (cwd w)). fold A.
    unfold Os.is_file in Ha. destruct (disk w !! A) as [[?|]|] eqn:HdA; [discriminate | |].
    - cbv iota beta. unfold d1. rewrite insert_id by assumption. now destruct w.
    - cbv iota beta. change (when (negb false) ?m) with m.
      rewrite (makedirs_snoc "agents" (normalise (split_slash (cwd w))) "agents");
        rewrite <- ?HA; auto. }
  assert (Forall (fun q => d1 !! q = Some Dir) (Os.inits A)) as HbaseA.
  { rewrite HA, inits_snoc. apply Forall_app. split.
    - eapply Forall_impl; [exact Hbase |]. intros q Hq. cbv beta in *. unfold d1.
      destruct (decide (A = q)) as [<- | Hne]; [apply lookup_insert_eq |].
      now rewrite lookup_insert_ne.
    - constructor; [| constructor]. rewrite <- HA. apply lookup_insert_eq. }
  assert (d1 !! F = None) as Hd1F by (unfold d1; now rewrite lookup_insert_ne).
  unfold create_agent_folder. cbv zeta.
  change (Os.path_exists "agents" ≫= (fun b => when (negb b) (Os.makedirs "agents") ≫= ?k))
    with ((b ← Os.path_exists "agents"; when (negb b) (Os.makedirs "agents")) ≫= k).
  rewrite (bind_ret_run _ _ _ _ _ Hstep1).
  rewrite bind_run, path_exists_run. cbn [cwd disk set_disk].
  rewrite resolve_agent_folder by assumption. fold F. rewrite Hd1F. cbv iota beta.
  change (when (negb false) ?m) with m.
  rewrite bind_run.
  rewrite (makedirs_snoc ("agents/" +:+ n) A n); cbn [cwd disk set_disk];
    [reflexivity | now apply resolve_agent_folder | exact HbaseA | exact Hd1F].
Qed.

(** [create_agent_config_file] into the folder of the agent: the file is
    created or replaced. *)
Lemma create_agent_config_file_run (n : string) (ps : pyval) (cs : pydict) (w : world) :
  plain n = true ->
  disk w !! agent_folder (cwd w) n = Some Dir ->
  (disk w !! config_file (cwd w) n = None \/
   exists old, disk w !! config_file (cwd w) n = Some (File old)) ->
  create_agent_config_file n ps cs w =
  (set_disk (<[config_file (cwd w) n :=
                 File (json_dumps (PDict [("commands", PDict cs); ("settings", ps)]))]>
             (disk w)) w,
   Ret ("agents/" +:+ n +:+ "/config.json")).
Proof.
  intros Hn Hf Hc. unfold create_agent_config_file. cbv zeta.
  rewrite bind_run, path_exists_run, join_agents, resolve_agent_folder, Hf by assumption.
  cbv iota beta. rewrite bind_run. change (when (negb true) ?m w) with (w, Ret tt).
  cbv iota beta. rewrite <- (join_agents n Hn), join_config_file by assumption.
  rewrite bind_run. destruct Hc as [Hc | [old Hc]].
  - rewrite (write_text_new _ _ (agent_folder (cwd w) n) "config.json");
      rewrite <- ?config_file_snoc; auto.
    now apply resolve_config_file.
  - rewrite (write_text_over _ _ old) by now rewrite resolve_config_file.
    now rewrite resolve_config_file.
Qed.

(** [add_agent] for an agent whose folder and configuration file exist:
    the file is replaced. *)
Lemma add_agent_existing (n : string) (ps : pyval) (old : string)
    (commands_list : list catalog_entry) (w : world) :
  plain n = true ->
  disk w !! agents_dir (cwd w) = Some Dir ->
  disk w !! agent_folder (cwd w) n = Some Dir ->
  disk w !! config_file (cwd w) n = Some (File old) ->
  snd (load_commands w) = Ret commands_list ->
  add_agent n ps w =
  (set_disk (<[config_file (cwd w) n :=
                 File (json_dumps
                         (PDict [("commands", PDict (command_dict_of commands_list));
                                 ("settings", ps)]))]> (disk w)) w,
   Ret (PDict [("agent_file", PStr (n +:+ ".yaml"))])).
Proof.
  intros Hn Ha Hf Hc Hcmds. unfold add_agent.
  rewrite (bind_ret_run _ _ _ _ _ (create_agent_folder_existing n w Hn Ha Hf)).
  rewrite (bind_ret_run _ _ _ _ _ (load_commands_run w commands_list Hcmds)).
  cbv zeta. rewrite bind_run, create_agent_config_file_run; eauto.
Qed.

(** [add_agent] for an agent that has no folder yet. *)
Lemma add_agent_fresh (n : string) (ps : pyval)
    (commands_list : list catalog_entry) (w : world) :
  plain n = true ->
  is_tree (disk w) ->
  disk w !! normalise (split_slash (cwd w)) = Some Dir ->
  Os.is_file (disk w) (agents_dir (cwd w)) = false ->
  disk w !! agent_folder (cwd w) n = None ->
  snd (load_commands w) = Ret commands_list ->
  add_agent n ps w =
  (set_disk (<[config_file (cwd w) n :=
                 File (json_dumps
                         (PDict [("commands", PDict (command_dict_of commands_list));
                                 ("settings", ps)]))]>
             (<[agent_folder (cwd w) n := Dir]>
              (<[agents_dir (cwd w) := Dir]> (disk w)))) w,
   Ret (PDict [("agent_file", PStr (n +:+ ".yaml"))])).
Proof.
  intros Hn Ht Hcwd Ha Hf Hcmds.
  assert (disk w !! config_file (cwd w) n = None) as HC.
  { destruct (disk w !! config_file (cwd w) n) as [x|] eqn:E; [| reflexivity].
    rewrite config_file_snoc in E. apply tree_parent in E; [| exact Ht]. congruence. }
  assert (config_file (cwd w) n <> agent_folder (cwd w) n /\
          config_file (cwd w) n <> agents_dir (cwd w)) as [Hne1 Hne2].
  { unfold config_file, agent_folder.
    split; intros E; apply (f_equal (@length string)) in E;
      rewrite ?length_app in E; simpl in E; lia. }
  unfold add_agent.
  rewrite (bind_ret_run _ _ _ _ _ (create_agent_folder_fresh n w Hn Ht Hcwd Ha Hf)).
  set (w1 := set_disk _ w).
  assert (snd (load_commands w1) = Ret commands_list) as Hcmds1.
  { now rewrite (load_commands_result w w1). }
  rewrite (bind_ret_run _ _ _ _ _ (load_commands_run w1 commands_list Hcmds1)).
  cbv zeta. rewrite bind_run, create_agent_config_file_run; try assumption.
  - reflexivity.
  - unfold w1. cbn [cwd disk set_disk]. apply lookup_insert_eq.
  - left. unfold w1. cbn [cwd disk set_disk].
    now rewrite !lookup_insert_ne by congruence.
Qed.

(** C2 (amended). For an agent with a plain name whose configuration file
    exists and is blank (empty, or white space only), in a store that is a
    tree and with a plugin directory that loads: whatever fuel from two on,
    [get_agent_config] returns the regenerated document, whose [commands]
    has every catalog command, and only those, set to [False], and whose
    [settings] is the empty dictionary; the file holds the dump of that
    document and nothing else in the world has changed. *)
Theorem get_agent_config_blank_file (w : world) (content : string)
    (commands_list : list catalog_entry) :
  plain (AGENT_NAME (this w)) = true ->
  is_tree (disk w) ->
  disk w !! config_file (cwd w) (AGENT_NAME (this w)) = Some (File content) ->
  strip content = "" ->
  snd (load_commands w) = Ret commands_list ->
  (forall fuel, 2 <= fuel ->
     get_agent_config fuel w =
     (set_disk (<[config_file (cwd w) (AGENT_NAME (this w)) :=
                    File (json_dumps (fresh_config commands_list))]> (disk w)) w,
      Ret (fresh_config commands_list))) /\
  fresh_config commands_list
    = PDict [("commands", PDict (command_dict_of commands_list)); ("settings", PDict [])] /\
  (forall k,
     dict_get k (command_dict_of commands_list)
     = if existsb (String.eqb k) (map (fun c : catalog_entry => fst (fst c)) commands_list)
       then Some (PBool false) else None).
Proof.
  intros Hn Ht Hc Hblank Hcmds.
  split; [| split; [reflexivity | intros k; apply command_dict_get]].
  assert (disk w !! agent_folder (cwd w) (AGENT_NAME (this w)) = Some Dir) as Hf.
  { rewrite config_file_snoc in Hc. eapply tree_parent; eassumption. }
  assert (disk w !! agents_dir (cwd w) = Some Dir) as Ha.
  { unfold agent_folder in Hf. eapply tree_parent; eassumption. }
  assert (get_agent_config_body w =
          (set_disk (<[config_file (cwd w) (AGENT_NAME (this w)) :=
                         File (json_dumps (fresh_config commands_list))]> (disk w)) w,
           Ret Continue)) as Hbody.
  { rewrite body_run, Hc, Hblank by assumption. cbv iota.
    rewrite bind_run, (add_agent_existing _ _ content commands_list) by assumption.
    reflexivity. }
  destruct (body_after_continue _ _ Hn Hbody) as (_ & cmds & Hcmds' & _ & Hnext).
  assert (cmds = commands_list) as -> by congruence.
  intros [|[|fuel]] Hfuel; try lia.
  now rewrite get_agent_config_step, Hbody, get_agent_config_step, Hnext.
Qed.

(** C1 (amended). For an agent with a plain name that has never been
    created (nothing at [agents/<name>]), in a store that is a tree where
    the working directory exists and [agents] is not a regular file, and
    with an empty command catalog: whatever fuel from two on,
    [get_agent_config] creates the agent folder and the configuration file
    and returns the document [{"commands": {}, "settings": {}}], which is
    what the file holds. *)
Theorem get_agent_config_new_agent (w : world) :
  plain (AGENT_NAME (this w)) = true ->
  is_tree (disk w) ->
  disk w !! normalise (split_slash (cwd w)) = Some Dir ->
  Os.is_file (disk w) (agents_dir (cwd w)) = false ->
  disk w !! agent_folder (cwd w) (AGENT_NAME (this w)) = None ->
  snd (load_commands w) = Ret [] ->
  exists w',
    (forall fuel, 2 <= fuel ->
       get_agent_config fuel w
       = (w', Ret (PDict [("commands", PDict []); ("settings", PDict [])]))) /\
    same_process w w' /\
    disk w' !! agent_folder (cwd w) (AGENT_NAME (this w)) = Some Dir /\
    disk w' !! config_file (cwd w) (AGENT_NAME (this w))
      = Some (File (json_dumps (PDict [("commands", PDict []); ("settings", PDict [])]))).
Proof.
  intros Hn Ht Hcwd Ha Hf Hcmds.
  assert (disk w !! config_file (cwd w) (AGENT_NAME (this w)) = None) as HC.
  { destruct (disk w !! config_file _ _) as [x|] eqn:E; [| reflexivity].
    rewrite config_file_snoc in E. apply tree_parent in E; [| exact Ht]. congruence. }
  pose proof (add_agent_fresh (AGENT_NAME (this w)) (PDict []) [] w Hn Ht Hcwd Ha Hf Hcmds)
    as Hadd.
  set (w' := set_disk _ w) in Hadd.
  assert (get_agent_config_body w = (w', Ret Continue)) as Hbody.
  { rewrite body_run, HC by assumption. now rewrite bind_run, Hadd. }
  destruct (body_after_continue _ _ Hn Hbody) as (Hsame & cmds & Hcmds' & Hfile & Hnext).
  assert (cmds = []) as -> by congruence.
  exists w'. repeat split; try apply Hsame.
  - intros [|[|fuel]] Hfuel; try lia.
    now rewrite get_agent_config_step, Hbody, get_agent_config_step, Hnext.
  - unfold w'. cbn [disk set_disk]. rewrite lookup_insert_ne; [apply lookup_insert_eq |].
    unfold config_file, agent_folder. intros E. apply (f_equal (@length string)) in E.
    rewrite !length_app in E. simpl in E. lia.
  - exact Hfile.
Qed.

End Regenerate.

(* ===================================================================== *)
(** * [update_agent_config] *)
(* ===================================================================== *)

Section Update.
Import OsPath OsPathFacts Layout LayoutFacts StoreFacts DictFacts AgentClass.
Context `{JsonLib}.

Lemma dict_set_set (k : string) (v v' : pyval) (d : pydict) :
  dict_set k v' (dict_set k v d) = dict_set k v' d.
Proof.
  induction d as [|[k1 v1] d IH]; simpl.
  - now rewrite String.eqb_refl.
  - destruct (String.eqb k k1) eqn:E; simpl; [now rewrite String.eqb_refl |].
    now rewrite E, IH.
Qed.

Lemma dict_set_id (k : string) (v : pyval) (d : pydict) :
  dict_get k d = Some v -> dict_set k v d = d.
Proof.
  induction d as [|[k1 v1] d IH]; simpl; [discriminate |].
  destruct (String.eqb k k1) eqn:E.
  - apply String.eqb_eq in E. now intros [= ->]; subst.
  - intros Hg. now rewrite IH.
Qed.

(** One update of an existing document. *)
Lemma update_agent_config_run (w : world) (text : string) (cfg dflt s : pydict) :
  let file := join (join "agents" (AGENT_NAME (this w))) "config.json" in
  disk w !! resolve (cwd w) file = Some (File text) ->
  json_loads text = Some (PDict cfg) ->
  settings_before cfg dflt ->
  update_agent_config s w =
  (set_disk (<[resolve (cwd w) file :=
                 File (json_dumps
                         (PDict (dict_set "settings" (PDict (dict_update dflt s)) cfg)))]>
             (disk w)) w,
   Ret ("Agent " +:+ AGENT_NAME (this w) +:+ " configuration updated.")).
Proof.
  intros file Hd Hl Hs. unfold update_agent_config.
  rewrite bind_run. change (self w) with (w, Ret (this w)). cbv iota beta zeta.
  fold file. rewrite bind_run, path_exists_run, Hd. cbv iota beta.
  rewrite bind_run, (read_text_file _ text) by assumption. cbv iota beta.
  rewrite bind_run. unfold loads. rewrite json_loads_newlines, Hl.
  change ((mret (PDict cfg) : M pyval) w) with (w, Ret (PDict cfg)). cbv iota beta.
  destruct Hs as [Hs | [Hs ->]].
  - unfold dict_mem. rewrite Hs. cbv iota. change (negb true) with false. cbv iota.
    rewrite Hs. rewrite bind_run, (write_text_over _ _ text) by assumption. reflexivity.
  - unfold dict_mem. rewrite Hs. cbv iota. change (negb false) with true. cbv iota.
    rewrite dict_get_set_eq, dict_set_set.
    rewrite bind_run, (write_text_over _ _ text) by assumption. reflexivity.
Qed.


End Update.

(* ===================================================================== *)
(** * The memory store: [load_memory], [save_memory], [log_interaction] *)
(* ===================================================================== *)

Section Memory.
Import OsPath OsPathFacts Layout LayoutFacts StoreFacts DictFacts AgentClass.
Context `{YamlLib}.

Lemma load_memory_saved (w : world) :
  memory_saved w -> load_memory w = (w, Ret (memory (this w))).
Proof.
  intros (text & Hd & Hl & _). unfold load_memory.
  rewrite bind_run. change (self w) with (w, Ret (this w)). cbv iota beta.
  rewrite bind_run, path_exists_run. fold (memory_location w). rewrite Hd. cbv iota beta.
  rewrite bind_run, (read_text_file _ text) by exact Hd. cbv iota beta.
  now rewrite yaml_load_newlines, Hl.
Qed.

(** [self.memory = self.load_memory()] leaves the file and the object in
    agreement. *)
Lemma init_memory_saved (w w0 : world) :
  init_memory w = (w0, Ret tt) -> memory_saved w0.
Proof.
  unfold init_memory. intros Hrun.
  apply bind_ret_inv in Hrun as (w1 & m & Hload & Hset).
  injection Hset as <-.
  unfold load_memory in Hload.
  rewrite bind_run in Hload. change (self w) with (w, Ret (this w)) in Hload.
  cbv iota beta in Hload. rewrite bind_run, path_exists_run in Hload.
  fold (memory_location w) in Hload.
  destruct (disk w !! memory_location w) as [x|] eqn:Hd; cbv iota beta in Hload.
  - apply bind_ret_inv in Hload as (w2 & text & Hread & Hload).
    unfold Os.read_text in Hread. rewrite bind_run in Hread. simpl in Hread.
    fold (memory_location w) in Hread. rewrite Hd in Hread.
    destruct x as [data|]; [| discriminate]. injection Hread as <- <-.
    rewrite yaml_load_newlines in Hload.
    destruct (yaml_safe_load data) as [m'|] eqn:Hl; [| discriminate].
    injection Hload as <- <-.
    exists data. unfold memory_location. cbn [cwd disk this memory memory_file set_memory].
    repeat split; try assumption. eapply yaml_load_wf; eassumption.
  - apply bind_ret_inv in Hload as (w2 & u & Hwrite & Hload).
    injection Hload as <- <-. apply write_text_ret in Hwrite. subst w2.
    exists (yaml_safe_dump (PDict [("interactions", PList [])])).
    unfold memory_location. cbn [cwd disk this memory memory_file set_memory set_disk].
    repeat split.
    + apply lookup_insert_eq.
    + now apply yaml_load_dump.
Qed.

(** One [log_interaction] on a store that is in agreement: the record goes
    last in [interactions], and the file is rewritten with the whole
    document before the call returns. *)
Lemma log_interaction_run (w : world) (d : pydict) (l : list pyval)
    (role message : string) :
  memory_saved w ->
  memory (this w) = PDict d ->
  dict_get "interactions" d = Some (PList l) ->
  let m' := PDict (dict_set "interactions"
                     (PList (l ++ [interaction_record role message])) d) in
  let w' := set_disk (<[memory_location w := File (yaml_safe_dump m')]> (disk w))
                     (set_memory m' w) in
  log_interaction role message w = (w', Ret tt) /\
  memory_saved w' /\
  disk w' !! memory_location w' = Some (File (yaml_safe_dump (memory (this w')))).
Proof.
  intros (text & Hd & Hl & Hwf) Hm Hi m' w'.
  assert (wf m' = true) as Hwf'.
  { unfold m'. rewrite Hm in Hwf. apply wf_set; [| exact Hwf].
    pose proof (wf_get _ _ _ Hwf Hi) as Hwl. simpl in *.
    rewrite forallb_app, Hwl. reflexivity. }
  assert (disk w' !! memory_location w' = Some (File (yaml_safe_dump m'))) as Hd'.
  { unfold w', memory_location. cbn [cwd disk this memory_file set_memory set_disk].
    apply lookup_insert_eq. }
  split; [| split].
  - unfold log_interaction, append_interaction.
    rewrite bind_run, bind_run. change (self w) with (w, Ret (this w)). cbv iota beta.
    rewrite Hm, Hi. cbv iota beta.
    unfold save_memory. rewrite bind_run. fold m'.
    change (self (set_memory m' w)) with (set_memory m' w, Ret (this (set_memory m' w))).
    cbv iota beta. cbn [this memory memory_file set_memory].
    rewrite (write_text_over _ _ text) by exact Hd. reflexivity.
  - exists (yaml_safe_dump m'). repeat split; [exact Hd' | | exact Hwf'].
    now apply yaml_load_dump.
  - exact Hd'.
Qed.

Lemma log_interactions_run (calls : list (string * string)) (w : world)
    (d : pydict) (l : list pyval) :
  memory_saved w ->
  memory (this w) = PDict d ->
  dict_get "interactions" d = Some (PList l) ->
  exists w',
    log_interactions calls w = (w', Ret tt) /\
    memory_saved w' /\
    memory (this w')
      = PDict (dict_set "interactions"
                 (PList (l ++ map (fun c => interaction_record (fst c) (snd c)) calls)) d) /\
    (calls <> [] ->
     disk w' !! memory_location w' = Some (File (yaml_safe_dump (memory (this w'))))).
Proof.
  revert w d l. induction calls as [|[role message] calls IH]; intros w d l Hs Hm Hi.
  - exists w. simpl. rewrite app_nil_r, dict_set_id by assumption.
    repeat split; try assumption. congruence.
  - destruct (log_interaction_run w d l role message Hs Hm Hi) as (Hrun & Hs' & Hfile).
    set (l' := l ++ [interaction_record role message]) in *.
    set (d' := dict_set "interactions" (PList l') d) in *.
    set (w1 := set_disk _ (set_memory _ w)) in *.
    destruct (IH w1 d' l' Hs' eq_refl (dict_get_set_eq _ _ _))
      as (w' & Hrun' & Hs'' & Hm' & Hfile').
    exists w'. simpl. rewrite bind_run, Hrun. cbv iota beta.
    repeat split; try assumption.
    + rewrite Hm'. unfold d', l'. rewrite dict_set_set, <- app_assoc. reflexivity.
    + intros _. destruct calls as [|c calls]; [| apply Hfile'; discriminate].
      simpl in Hrun'. injection Hrun' as <-. exact Hfile.
Qed.

(** C4. For an object whose memory was set up by
    [self.memory = self.load_memory()] and is a document with an
    [interactions] list [old], and any sequence of [(role, message)] pairs
    logged one [log_interaction] call each: every call returns; afterwards
    the memory of the object is the document with [interactions] equal to
    [old] followed by the records [{"role": role, "message": message}] in
    call order; loading the memory file again returns exactly that
    document; and when a call was made, the file holds the dump of the whole
    document. *)
Theorem log_interactions_reload (w w0 : world) (d : pydict) (old : list pyval)
    (calls : list (string * string)) :
  init_memory w = (w0, Ret tt) ->
  memory (this w0) = PDict d ->
  dict_get "interactions" d = Some (PList old) ->
  exists w',
    log_interactions calls w0 = (w', Ret tt) /\
    load_memory w'
      = (w', Ret (PDict (dict_set "interactions"
                           (PList (old ++ map (fun c => PDict [("role", PStr (fst c));
                                                               ("message", PStr (snd c))])
                                              calls)) d))) /\
    memory (this w')
      = PDict (dict_set "interactions"
                 (PList (old ++ map (fun c => PDict [("role", PStr (fst c));
                                                     ("message", PStr (snd c))])
                                    calls)) d) /\
    (calls <> [] ->
     disk w' !! memory_location w' = Some (File (yaml_safe_dump (memory (this w'))))).
Proof.
  intros Hinit Hm Hi. apply init_memory_saved in Hinit.
  destruct (log_interactions_run calls w0 d old Hinit Hm Hi)
    as (w' & Hrun & Hs & Hm' & Hfile).
  unfold interaction_record in Hm'.
  exists w'. repeat split; try assumption.
  rewrite <- Hm'. now apply load_memory_saved.
Qed.

End Memory.

(* ===================================================================== *)
(** * [Flow] keeps the laws of the two libraries *)
(* ===================================================================== *)

Module FlowFacts.
Import OsPathFacts LayoutFacts DictFacts Flow.

(** ** Numbers *)

Definition no_digit (s : string) : bool :=
  match s with
  | EmptyString => true
  | String c _ => match digit_of c with Some _ => false | None => true end
  end.

Lemma parse_uint_nil (rest : string) :
  no_digit rest = true -> parse_uint rest = (Decimal.Nil, rest).
Proof.
  destruct rest as [|c r]; [reflexivity |]. simpl.
  now destruct (digit_of c).
Qed.

Lemma parse_uint_print (u : Decimal.uint) (rest : string) :
  no_digit rest = true -> parse_uint (print_uint u +:+ rest) = (u, rest).
Proof.
  intros Hr. induction u; simpl print_uint;
    rewrite ?append_cons, ?append_empty_l; [now apply parse_uint_nil | ..];
    simpl; now rewrite IHu.
Qed.

(** The text of a positive number starts with a digit. *)
Lemma print_uint_head (u : Decimal.uint) :
  u <> Decimal.Nil ->
  exists c r, print_uint u = String c r /\ digit_of c <> None.
Proof.
  destruct u; [congruence | ..]; intros _; simpl; eexists _, _;
    (split; [reflexivity | discriminate]).
Qed.

Lemma parse_Z_print (z : Z) (rest : string) :
  no_digit rest = true -> parse_Z (print_Z z +:+ rest) = Some (z, rest).
Proof.
  intros Hr. destruct z as [|p|p]; unfold print_Z.
  - change ("0" +:+ rest) with (print_uint (Decimal.D0 Decimal.Nil) +:+ rest).
    unfold parse_Z. change (print_uint (Decimal.D0 Decimal.Nil) +:+ rest)
      with (String "0" (print_uint Decimal.Nil +:+ rest)) at 1.
    cbv iota. change (N_of_ascii "0" =? 45)%N with false. cbv iota.
    now rewrite parse_uint_print.
  - pose proof (DecimalPos.Unsigned.to_uint_nonnil p) as Hn.
    pose proof (DecimalPos.Unsigned.of_to p) as Hof.
    destruct (print_uint_head _ Hn) as (c & r & Hc & Hd).
    unfold parse_Z. rewrite Hc, append_cons.
    assert ((N_of_ascii c =? 45)%N = false) as ->.
    { destruct (N.eqb_spec (N_of_ascii c) 45) as [E|]; [| reflexivity].
      unfold digit_of in Hd. rewrite E in Hd. congruence. }
    rewrite <- append_cons, <- Hc, parse_uint_print by assumption.
    destruct (Pos.to_uint p); [congruence | ..]; unfold N.of_uint; now rewrite Hof.
  - pose proof (DecimalPos.Unsigned.to_uint_nonnil p) as Hn.
    pose proof (DecimalPos.Unsigned.of_to p) as Hof.
    unfold parse_Z. rewrite append_cons.
    change (N_of_ascii "-" =? 45)%N with true. cbv iota.
    rewrite parse_uint_print by assumption.
    destruct (Pos.to_uint p); [congruence | ..]; unfold N.of_uint; now rewrite Hof.
Qed.

(** ** String literals *)

Lemma parse_chars_escape_char (c : ascii) (tail : string) :
  parse_chars (escape_char c +:+ tail) = cons_char c (parse_chars tail).
Proof.
  destruct c as [[] [] [] [] [] [] [] []]; reflexivity.
Qed.

Lemma parse_chars_escape (s rest : string) :
  parse_chars (escape s +:+ String dq rest) = Some (s, rest).
Proof.
  induction s as [|c s IH]; [reflexivity |].
  simpl escape. now rewrite append_assoc, parse_chars_escape_char, IH.
Qed.

Lemma parse_str_print (s rest : string) :
  parse_str (print_str s +:+ rest) = Some (s, rest).
Proof.
  unfold print_str. rewrite append_cons, append_assoc.
  change (String dq "" +:+ rest) with (String dq rest).
  unfold parse_str. change (N_of_ascii dq =? 34)%N with true. cbv iota.
  apply parse_chars_escape.
Qed.

(** ** What follows a value, and how a value starts *)

(** The text after a value inside a document: nothing, a comma or a
    closing bracket. *)
Definition delim (s : string) : bool :=
  match s with
  | EmptyString => true
  | String c _ =>
      let n := N_of_ascii c in ((n =? 44) || (n =? 93) || (n =? 125))%N
  end.

(** The first character of the text of a value. *)
Definition value_head (c : ascii) : bool :=
  let n := N_of_ascii c in
  ((n =? 110) || (n =? 116) || (n =? 102) || (n =? 34) || (n =? 91) || (n =? 123)
   || (n =? 45) || ((48 <=? n) && (n <=? 57)))%N.

Lemma delim_char (c : ascii) (r : string) :
  delim (String c r) = true ->
  digit_of c = None /\ (N_of_ascii c =? 101)%N = false /\ is_ws c = false.
Proof.
  destruct c as [[] [] [] [] [] [] [] []]; cbv; intros Hd;
    first [discriminate | repeat split].
Qed.

Lemma delim_no_digit (rest : string) : delim rest = true -> no_digit rest = true.
Proof.
  destruct rest as [|c r]; [reflexivity |]. intros Hd.
  apply delim_char in Hd as (Hd & _). simpl. now rewrite Hd.
Qed.

Lemma value_head_char (c : ascii) :
  value_head c = true ->
  is_ws c = false /\ isspace c = false /\
  (N_of_ascii c =? 93)%N = false /\ (N_of_ascii c =? 125)%N = false.
Proof.
  destruct c as [[] [] [] [] [] [] [] []]; cbv; intros Hd;
    first [discriminate | repeat split].
Qed.

Lemma digit_head (c : ascii) :
  digit_of c <> None \/ N_of_ascii c = 45%N ->
  value_head c = true /\
  (N_of_ascii c =? 110)%N = false /\ (N_of_ascii c =? 116)%N = false /\
  (N_of_ascii c =? 102)%N = false /\ (N_of_ascii c =? 34)%N = false /\
  (N_of_ascii c =? 91)%N = false /\ (N_of_ascii c =? 123)%N = false.
Proof.
  destruct c as [[] [] [] [] [] [] [] []]; cbv; intros [Hd | Hd];
    first [congruence | repeat split].
Qed.

Lemma print_Z_head (z : Z) :
  exists c r, print_Z z = String c r /\ (digit_of c <> None \/ N_of_ascii c = 45%N).
Proof.
  destruct z as [|p|p]; simpl.
  - eexists _, _. split; [reflexivity | left; discriminate].
  - destruct (print_uint_head _ (DecimalPos.Unsigned.to_uint_nonnil p)) as (c & r & Hc & Hd).
    eexists _, _. split; [exact Hc | now left].
  - eexists _, _. split; [reflexivity | now right].
Qed.

Lemma print_head (v : pyval) :
  exists c r, print v = String c r /\ value_head c = true.
Proof.
  destruct v as [|[]|z|m e|s|l|d]; simpl; try (eexists _, _; split; reflexivity).
  - destruct (print_Z_head z) as (c & r & Hc & Hd). exists c, r.
    split; [exact Hc | now apply digit_head].
  - destruct (print_Z_head m) as (c & r & Hc & Hd). rewrite Hc, append_cons.
    eexists _, _. split; [reflexivity | now apply digit_head].
Qed.

Lemma skip_ws_print (v : pyval) (rest : string) :
  skip_ws (print v +:+ rest) = print v +:+ rest.
Proof.
  destruct (print_head v) as (c & r & Hc & Hh). rewrite Hc, append_cons. simpl.
  apply value_head_char in Hh as (-> & _). reflexivity.
Qed.

Lemma skip_ws_delim (rest : string) :
  delim rest = true -> skip_ws rest = rest.
Proof.
  destruct rest as [|c r]; [reflexivity |]. intros Hd.
  apply delim_char in Hd as (_ & _ & Hw). simpl. now rewrite Hw.
Qed.

(** ** Numbers as values *)

Lemma parse_number_int (z : Z) (rest : string) :
  delim rest = true -> parse_number (print_Z z +:+ rest) = Some (PInt z, rest).
Proof.
  intros Hd. unfold parse_number.
  rewrite parse_Z_print by now apply delim_no_digit.
  destruct rest as [|c r]; [reflexivity |].
  apply delim_char in Hd as (_ & -> & _). reflexivity.
Qed.

Lemma parse_number_float (m e : Z) (rest : string) :
  delim rest = true ->
  parse_number ((print_Z m +:+ "e" +:+ print_Z e) +:+ rest) = Some (PFloat m e, rest).
Proof.
  intros Hd. unfold parse_number. rewrite !append_assoc.
  rewrite parse_Z_print by reflexivity.
  change ("e" +:+ print_Z e +:+ rest) with (String "e" (print_Z e +:+ rest)).
  change (N_of_ascii "e" =? 101)%N with true. cbv iota.
  now rewrite parse_Z_print by now apply delim_no_digit.
Qed.

Lemma parse_value_number (fuel : nat) (s : string) (c : ascii) (r : string) :
  s = String c r -> digit_of c <> None \/ N_of_ascii c = 45%N ->
  parse_value (S fuel) s = parse_number s.
Proof.
  intros -> Hc. apply digit_head in Hc as (_ & H1 & H2 & H3 & H4 & H5 & H6).
  simpl. now rewrite H1, H2, H3, H4, H5, H6.
Qed.

(** ** Induction on values *)

Definition pyval_induction (P : pyval -> Prop)
    (HNone : P PNone) (HBool : forall b, P (PBool b)) (HInt : forall z, P (PInt z))
    (HFloat : forall m e, P (PFloat m e)) (HStr : forall s, P (PStr s))
    (HList : forall l, Forall P l -> P (PList l))
    (HDict : forall d, Forall (fun kx => P (snd kx)) d -> P (PDict d))
  : forall v, P v :=
  fix go (v : pyval) : P v :=
    match v with
    | PNone => HNone
    | PBool b => HBool b
    | PInt z => HInt z
    | PFloat m e => HFloat m e
    | PStr s => HStr s
    | PList l =>
        HList l ((fix all (l : list pyval) : Forall P l :=
                    match l with
                    | [] => @List.Forall_nil _ P
                    | x :: l' => @List.Forall_cons _ P x l' (go x) (all l')
                    end) l)
    | PDict d =>
        HDict d ((fix all (d : pydict) : Forall (fun kx => P (snd kx)) d :=
                    match d with
                    | [] => @List.Forall_nil _ _
                    | kx :: d' =>
                        @List.Forall_cons _ (fun kx => P (snd kx)) kx d' (go (snd kx)) (all d')
                    end) d)
    end.

(** ** Sequences *)

(** What is written after an item: the closing bracket, or a comma and the
    items that follow. *)
Definition tail_seq {A} (pr : A -> string) (close : string) (l : list A) : string :=
  match l with
  | [] => close
  | _ => ", " +:+ print_seq pr close l
  end.

Lemma print_seq_cons {A} (pr : A -> string) (close : string) (x : A) (l : list A) :
  print_seq pr close (x :: l) = pr x +:+ tail_seq pr close l.
Proof. destruct l; reflexivity. Qed.

Lemma delim_tail_seq {A} (pr : A -> string) (l : list A) (rest : string) :
  delim (tail_seq pr "]" l +:+ rest) = true /\ delim (tail_seq pr "}" l +:+ rest) = true.
Proof. destruct l; split; reflexivity. Qed.

Lemma length_cons (c : ascii) (s : string) :
  String.length (String c s) = S (String.length s).
Proof. reflexivity. Qed.

(** ** A written value reads back *)

Definition reads_back (v : pyval) : Prop :=
  wf v = true ->
  forall rest fuel,
    delim rest = true ->
    String.length (print v +:+ rest) < fuel ->
    parse_value fuel (print v +:+ rest) = Some (v, rest).

Lemma parse_items_tail (l : list pyval) :
  Forall reads_back l -> forallb wf l = true ->
  forall rest fuel,
    delim rest = true ->
    String.length (tail_seq print "]" l +:+ rest) < fuel ->
    parse_items fuel (tail_seq print "]" l +:+ rest) = Some (l, rest).
Proof.
  induction 1 as [|x l Hx Hl IH]; intros Hwf rest fuel Hd Hlen.
  - destruct fuel as [|fuel]; [lia |]. reflexivity.
  - simpl in Hwf. apply andb_true_iff in Hwf as [Hwx Hwl].
    destruct fuel as [|fuel]; [lia |].
    unfold tail_seq at 1. rewrite print_seq_cons, !append_assoc.
    change (", " +:+ print x +:+ tail_seq print "]" l +:+ rest)
      with (String "," (String " " (print x +:+ tail_seq print "]" l +:+ rest))).
    unfold tail_seq at 1 in Hlen. rewrite print_seq_cons, !append_assoc in Hlen.
    change (", " +:+ print x +:+ tail_seq print "]" l +:+ rest)
      with (String "," (String " " (print x +:+ tail_seq print "]" l +:+ rest))) in Hlen.
    rewrite !length_cons in Hlen.
    cbn [parse_items skip_ws]. change (is_ws ",") with false. cbv iota.
    change (N_of_ascii "," =? 93)%N with false.
    change (N_of_ascii "," =? 44)%N with true. cbv iota zeta.
    change (skip_ws (String " " ?t)) with (skip_ws t). rewrite skip_ws_print.
    rewrite (Hx Hwx) by (try apply delim_tail_seq; lia).
    rewrite IH; try assumption; [reflexivity |].
    rewrite length_append in Hlen. lia.
Qed.

(** What [print] writes for a member of a dictionary. *)
Definition print_member (kx : string * pyval) : string :=
  let '(k, x) := kx in print_str k +:+ ": " +:+ print x.

Lemma parse_member_print (k : string) (x : pyval) :
  reads_back x -> wf x = true ->
  forall tl fuel,
    delim tl = true ->
    String.length (print_member (k, x) +:+ tl) < fuel ->
    parse_member fuel (print_member (k, x) +:+ tl) = Some ((k, x), tl).
Proof.
  intros Hx Hwx tl fuel Hd Hlen. destruct fuel as [|fuel]; [lia |].
  unfold print_member in *. rewrite !append_assoc in *.
  change (": " +:+ print x +:+ tl) with (String ":" (String " " (print x +:+ tl))) in *.
  rewrite length_append, !length_cons in Hlen.
  cbn [parse_member]. rewrite parse_str_print.
  change (skip_ws (String ":" ?t)) with (String ":" t). cbv iota.
  change (N_of_ascii ":" =? 58)%N with true. cbv iota.
  change (skip_ws (String " " ?t)) with (skip_ws t). rewrite skip_ws_print.
  rewrite (Hx Hwx) by (assumption || lia). reflexivity.
Qed.

Lemma parse_members_tail (d : pydict) :
  Forall (fun kx => reads_back (snd kx)) d -> wf_items d = true ->
  forall rest fuel,
    delim rest = true ->
    String.length (tail_seq print_member "}" d +:+ rest) < fuel ->
    parse_members fuel (tail_seq print_member "}" d +:+ rest) = Some (d, rest).
Proof.
  unfold wf_items.
  induction 1 as [|[k x] d Hx Hl IH]; intros Hwf rest fuel Hd Hlen.
  - destruct fuel as [|fuel]; [lia |]. reflexivity.
  - simpl in Hwf. apply andb_true_iff in Hwf as [Hwx Hwl].
    destruct fuel as [|fuel]; [lia |].
    unfold tail_seq at 1. rewrite print_seq_cons, !append_assoc.
    change (", " +:+ print_member (k, x) +:+ tail_seq print_member "}" d +:+ rest)
      with (String "," (String " "
              (print_member (k, x) +:+ tail_seq print_member "}" d +:+ rest))).
    unfold tail_seq at 1 in Hlen. rewrite print_seq_cons, !append_assoc in Hlen.
    change (", " +:+ print_member (k, x) +:+ tail_seq print_member "}" d +:+ rest)
      with (String "," (String " "
              (print_member (k, x) +:+ tail_seq print_member "}" d +:+ rest))) in Hlen.
    rewrite !length_cons in Hlen.
    cbn [parse_members]. change (skip_ws (String "," ?t)) with (String "," t). cbv iota zeta.
    change (N_of_ascii "," =? 125)%N with false.
    change (N_of_ascii "," =? 44)%N with true. cbv iota.
    change (skip_ws (String " " ?t)) with (skip_ws t).
    assert (skip_ws (print_member (k, x) +:+ tail_seq print_member "}" d +:+ rest)
            = print_member (k, x) +:+ tail_seq print_member "}" d +:+ rest) as ->.
    { unfold print_member, print_str. now rewrite !append_cons. }
    rewrite (parse_member_print k x Hx Hwx) by (try apply delim_tail_seq; lia).
    rewrite IH; try assumption; [reflexivity |].
    rewrite length_append in Hlen. lia.
Qed.

(** Reading the members of a written dictionary gives the dictionary. *)
Lemma distinct_NoDup (ks : list string) : distinct ks = true <-> NoDup ks.
Proof.
  induction ks as [|k ks IH]; simpl.
  - split; [constructor | reflexivity].
  - rewrite andb_true_iff, negb_true_iff, NoDup_cons, IH.
    assert (existsb (String.eqb k) ks = false <-> k ∉ ks) as ->; [| tauto].
    rewrite <- not_true_iff_false, existsb_exists. split.
    + intros Hn Hin. apply Hn. exists k. rewrite String.eqb_refl.
      split; [now apply list_elem_of_In | reflexivity].
    + intros Hn (k' & Hin & E). apply String.eqb_eq in E. subst.
      now apply Hn, list_elem_of_In.
Qed.

Lemma dict_set_fresh (k : string) (v : pyval) (d : pydict) :
  k ∉ map fst d -> dict_set k v d = d ++ [(k, v)].
Proof.
  induction d as [|[k' v'] d IH]; simpl; [reflexivity |].
  intros Hn. apply not_elem_of_cons in Hn as [Hne Hn].
  apply String.eqb_neq in Hne. now rewrite Hne, IH.
Qed.

Lemma dict_update_distinct (d acc : pydict) :
  NoDup (map fst (acc ++ d)) -> dict_update acc d = acc ++ d.
Proof.
  unfold dict_update. revert acc.
  induction d as [|[k v] d IH]; intros acc Hnd; simpl; [now rewrite app_nil_r |].
  assert (k ∉ map fst acc) as Hk.
  { rewrite map_app in Hnd. apply NoDup_app in Hnd as (_ & Hdis & _).
    intros Hin. apply (Hdis k Hin). simpl. left. }
  rewrite dict_set_fresh by assumption.
  rewrite IH; rewrite <- app_assoc; [reflexivity | exact Hnd].
Qed.

Lemma dict_of_items_distinct (d : pydict) :
  distinct (map fst d) = true -> dict_of_items d = d.
Proof.
  intros Hd. unfold dict_of_items. apply (dict_update_distinct d []).
  now apply distinct_NoDup.
Qed.

Theorem print_reads_back (v : pyval) : reads_back v.
Proof.
  induction v using pyval_induction; intros Hwf rest fuel Hd Hlen;
    (destruct fuel as [|fuel]; [lia |]).
  - reflexivity.
  - destruct b; reflexivity.
  - destruct (print_Z_head z) as (c & r & Hc & Hn).
    rewrite (parse_value_number fuel _ c (r +:+ rest))
      by (simpl print; now rewrite ?Hc, ?append_cons).
    now apply parse_number_int.
  - destruct (print_Z_head m) as (c & r & Hc & Hn).
    rewrite (parse_value_number fuel _ c ((r +:+ "e" +:+ print_Z e) +:+ rest))
      by (simpl print; now rewrite ?Hc, ?append_cons).
    now apply parse_number_float.
  - simpl print. unfold print_str. rewrite append_cons, append_assoc.
    change (String dq "" +:+ rest) with (String dq rest).
    cbn [parse_value]. change (N_of_ascii dq) with 34%N. cbv iota zeta.
    change (34 =? 110)%N with false. change (34 =? 116)%N with false.
    change (34 =? 102)%N with false. change (34 =? 34)%N with true. cbv iota.
    now rewrite parse_chars_escape.
  - simpl in Hwf.
    change (print (PList l) +:+ rest) with (String "[" (print_seq print "]" l +:+ rest)) in *.
    rewrite length_cons in Hlen.
    cbn [parse_value]. change (N_of_ascii "[") with 91%N. cbv iota zeta.
    change (91 =? 110)%N with false. change (91 =? 116)%N with false.
    change (91 =? 102)%N with false. change (91 =? 34)%N with false.
    change (91 =? 91)%N with true. cbv iota.
    destruct l as [|x l]; [reflexivity |].
    rewrite print_seq_cons, append_assoc in *.
    apply Forall_cons in H as [Hx Hl]. simpl in Hwf.
    apply andb_true_iff in Hwf as [Hwx Hwl].
    rewrite skip_ws_print.
    destruct (print_head x) as (c & r & Hc & Hh).
    rewrite Hc, append_cons. cbv iota.
    apply value_head_char in Hh as (_ & _ & -> & _). cbv iota.
    rewrite <- append_cons, <- Hc.
    rewrite (Hx Hwx) by (try apply delim_tail_seq; lia).
    rewrite parse_items_tail; try assumption; [reflexivity |].
    rewrite length_append in Hlen. lia.
  - rewrite wf_dict in Hwf. apply andb_true_iff in Hwf as [Hk Hwf].
    change (print (PDict d) +:+ rest)
      with (String "{" (print_seq print_member "}" d +:+ rest)) in *.
    rewrite length_cons in Hlen.
    cbn [parse_value]. change (N_of_ascii "{") with 123%N. cbv iota zeta.
    change (123 =? 110)%N with false. change (123 =? 116)%N with false.
    change (123 =? 102)%N with false. change (123 =? 34)%N with false.
    change (123 =? 91)%N with false. change (123 =? 123)%N with true. cbv iota.
    destruct d as [|[k x] d]; [reflexivity |].
    rewrite print_seq_cons, append_assoc in *.
    apply Forall_cons in H as [Hx Hl]. simpl in Hx.
    pose proof Hwf as Hwf'. unfold wf_items in Hwf'. simpl in Hwf'.
    apply andb_true_iff in Hwf' as [Hwx Hwl].
    assert (skip_ws (print_member (k, x) +:+ tail_seq print_member "}" d +:+ rest)
            = String dq ((escape k +:+ String dq "") +:+ ": " +:+ print x
                         +:+ tail_seq print_member "}" d +:+ rest)) as ->.
    { unfold print_member, print_str. now rewrite !append_cons, !append_assoc. }
    change (N_of_ascii dq =? 125)%N with false. cbv iota.
    assert (String dq ((escape k +:+ String dq "") +:+ ": " +:+ print x
                         +:+ tail_seq print_member "}" d +:+ rest)
            = print_member (k, x) +:+ tail_seq print_member "}" d +:+ rest) as ->.
    { unfold print_member, print_str. now rewrite !append_cons, !append_assoc. }
    rewrite (parse_member_print k x Hx Hwx) by (try apply delim_tail_seq; lia).
    rewrite parse_members_tail; try assumption; [| rewrite length_append in Hlen; lia].
    now rewrite dict_of_items_distinct.
Qed.

Theorem parse_print (v : pyval) : wf v = true -> parse (print v) = Some v.
Proof.
  intros Hwf. unfold parse.
  pose proof (skip_ws_print v "") as Hs. rewrite append_empty_r in Hs. rewrite Hs.
  pose proof (print_reads_back v Hwf "" (S (S (String.length (print v)))) eq_refl) as Hr.
  rewrite append_empty_r in Hr. rewrite Hr by lia. reflexivity.
Qed.

(** ** The text of a value has no white space around it *)

Definition last_ok (s : string) : Prop :=
  exists a c, s = a +:+ String c "" /\ isspace c = false.

Lemma last_ok_app (a b : string) : last_ok b -> last_ok (a +:+ b).
Proof.
  intros (b' & c & -> & Hc). exists (a +:+ b'), c. now rewrite append_assoc.
Qed.

Lemma last_ok_cons (x : ascii) (b : string) : last_ok b -> last_ok (String x b).
Proof. apply (last_ok_app (String x "")). Qed.

Lemma last_ok_char (c : ascii) : isspace c = false -> last_ok (String c "").
Proof. intros Hc. now exists "", c. Qed.

Lemma last_ok_uint (u : Decimal.uint) : u <> Decimal.Nil -> last_ok (print_uint u).
Proof.
  induction u; [congruence | ..]; intros _; simpl;
    (destruct u; [now apply last_ok_char | apply last_ok_cons, IHu; discriminate ..]).
Qed.

Lemma last_ok_Z (z : Z) : last_ok (print_Z z).
Proof.
  destruct z as [|p|p]; simpl.
  - now apply last_ok_char.
  - apply last_ok_uint, DecimalPos.Unsigned.to_uint_nonnil.
  - apply last_ok_cons, last_ok_uint, DecimalPos.Unsigned.to_uint_nonnil.
Qed.

Lemma last_ok_seq {A} (pr : A -> string) (close : string) (l : list A) :
  last_ok close -> last_ok (print_seq pr close l).
Proof.
  intros Hc. induction l as [|x [|y l] IH]; simpl.
  - exact Hc.
  - now apply last_ok_app.
  - now apply last_ok_app, last_ok_app.
Qed.

Lemma last_ok_print (v : pyval) : last_ok (print v).
Proof.
  destruct v as [|[]|z|m e|s|l|d]; simpl.
  - now exists "nul", "l"%char.
  - now exists "tru", "e"%char.
  - now exists "fals", "e"%char.
  - apply last_ok_Z.
  - apply last_ok_app, last_ok_app, last_ok_Z.
  - unfold print_str. apply last_ok_cons, last_ok_app. now apply last_ok_char.
  - apply last_ok_app, last_ok_seq. now apply last_ok_char.
  - apply last_ok_app, last_ok_seq. now apply last_ok_char.
Qed.

Lemma rstrip_last_ok (s : string) : last_ok s -> rstrip s = s.
Proof.
  intros (a & c & -> & Hc). induction a as [|x a IH].
  - simpl. now rewrite Hc.
  - rewrite append_cons. simpl. rewrite IH.
    destruct a; reflexivity.
Qed.

Theorem strip_print (v : pyval) : strip (print v) = print v.
Proof.
  unfold strip. destruct (print_head v) as (c & r & Hc & Hh).
  apply value_head_char in Hh as (_ & Hsp & _).
  assert (lstrip (print v) = print v) as ->.
  { rewrite Hc. simpl. now rewrite Hsp. }
  apply rstrip_last_ok, last_ok_print.
Qed.

(** ** What is read is well formed *)

Lemma parse_number_wf (s : string) (v : pyval) (r : string) :
  parse_number s = Some (v, r) -> wf v = true.
Proof.
  unfold parse_number. intros Hp.
  destruct (parse_Z s) as [[m [|c r']]|]; try discriminate.
  - now injection Hp as <- _.
  - destruct (N_of_ascii c =? 101)%N.
    + destruct (parse_Z r') as [[e r'']|]; [now injection Hp as <- _ | discriminate].
    + now injection Hp as <- _.
Qed.

Ltac crack H :=
  repeat match type of H with
    | context [match ?x with _ => _ end] => destruct x eqn:?; try discriminate
    | context [if ?b then _ else _] => destruct b eqn:?; try discriminate
    end.

Lemma parse_wf (fuel : nat) :
  (forall s v r, parse_value fuel s = Some (v, r) -> wf v = true) /\
  (forall s l r, parse_items fuel s = Some (l, r) -> forallb wf l = true) /\
  (forall s kx r, parse_member fuel s = Some (kx, r) -> wf (snd kx) = true) /\
  (forall s d r, parse_members fuel s = Some (d, r) -> wf_items d = true).
Proof.
  induction fuel as [|fuel (IHv & IHi & IHm & IHd)];
    [repeat split; intros; discriminate |].
  repeat split.
  - intros s v r Hp. cbn [parse_value] in Hp. cbv zeta in Hp.
    destruct s as [|c s']; [discriminate |].
    destruct (N_of_ascii c =? 110)%N; [crack Hp; now injection Hp as <- _ |].
    destruct (N_of_ascii c =? 116)%N; [crack Hp; now injection Hp as <- _ |].
    destruct (N_of_ascii c =? 102)%N; [crack Hp; now injection Hp as <- _ |].
    destruct (N_of_ascii c =? 34)%N; [crack Hp; now injection Hp as <- _ |].
    destruct (N_of_ascii c =? 91)%N.
    { destruct (skip_ws s') as [|c' r']; [discriminate |].
      destruct (N_of_ascii c' =? 93)%N; [now injection Hp as <- _ |].
      destruct (parse_value fuel (String c' r')) as [[x r1]|] eqn:Hx; [| discriminate].
      destruct (parse_items fuel r1) as [[l r2]|] eqn:Hl; [| discriminate].
      injection Hp as <- _. simpl. now rewrite (IHv _ _ _ Hx), (IHi _ _ _ Hl). }
    destruct (N_of_ascii c =? 123)%N.
    { destruct (skip_ws s') as [|c' r']; [discriminate |].
      destruct (N_of_ascii c' =? 125)%N; [now injection Hp as <- _ |].
      destruct (parse_member fuel (String c' r')) as [[kx r1]|] eqn:Hx; [| discriminate].
      destruct (parse_members fuel r1) as [[d r2]|] eqn:Hl; [| discriminate].
      injection Hp as <- _. unfold dict_of_items. apply wf_update; [reflexivity |].
      unfold wf_items. simpl. rewrite (IHm _ _ _ Hx). exact (IHd _ _ _ Hl). }
    now apply parse_number_wf in Hp.
  - intros s l r Hp. cbn [parse_items] in Hp. cbv zeta in Hp.
    destruct (skip_ws s) as [|c s']; [discriminate |].
    destruct (N_of_ascii c =? 93)%N; [now injection Hp as <- _ |].
    destruct (N_of_ascii c =? 44)%N; [| discriminate].
    destruct (parse_value fuel (skip_ws s')) as [[x r1]|] eqn:Hx; [| discriminate].
    destruct (parse_items fuel r1) as [[l' r2]|] eqn:Hl; [| discriminate].
    injection Hp as <- _. simpl. now rewrite (IHv _ _ _ Hx), (IHi _ _ _ Hl).
  - intros s kx r Hp. cbn [parse_member] in Hp.
    destruct (parse_str s) as [[k r0]|]; [| discriminate].
    destruct (skip_ws r0) as [|c r1]; [discriminate |].
    destruct (N_of_ascii c =? 58)%N; [| discriminate].
    destruct (parse_value fuel (skip_ws r1)) as [[x r2]|] eqn:Hx; [| discriminate].
    injection Hp as <- _. exact (IHv _ _ _ Hx).
  - intros s d r Hp. cbn [parse_members] in Hp. cbv zeta in Hp.
    destruct (skip_ws s) as [|c s']; [discriminate |].
    destruct (N_of_ascii c =? 125)%N; [now injection Hp as <- _ |].
    destruct (N_of_ascii c =? 44)%N; [| discriminate].
    destruct (parse_member fuel (skip_ws s')) as [[kx r1]|] eqn:Hx; [| discriminate].
    destruct (parse_members fuel r1) as [[d' r2]|] eqn:Hl; [| discriminate].
    injection Hp as <- _. unfold wf_items. simpl.
    rewrite (IHm _ _ _ Hx). exact (IHd _ _ _ Hl).
Qed.

Theorem parse_is_wf (s : string) (v : pyval) : parse s = Some v -> wf v = true.
Proof.
  unfold parse. intros Hp.
  destruct (parse_value _ _) as [[v' rest]|] eqn:Hv; [| discriminate].
  destruct (skip_ws rest); [| discriminate]. injection Hp as ->.
  eapply parse_wf; eassumption.
Qed.

End FlowFacts.

(* ===================================================================== *)
(** * [Flow] and text mode *)
(* ===================================================================== *)

Module FlowNewlines.
Import OsPathFacts LayoutFacts DictFacts Flow FlowFacts NewlineFacts.

(** ** What is written has no carriage return *)

Lemma no_cr_uint (u : Decimal.uint) : no_cr (print_uint u) = true.
Proof. induction u; simpl; auto. Qed.

Lemma no_cr_Z (z : Z) : no_cr (print_Z z) = true.
Proof. destruct z; simpl; auto using no_cr_uint. Qed.

Lemma no_cr_escape_char (c : ascii) : no_cr (escape_char c) = true.
Proof. destruct c as [[] [] [] [] [] [] [] []]; reflexivity. Qed.

Lemma no_cr_escape (s : string) : no_cr (escape s) = true.
Proof.
  induction s as [|c s IH]; [reflexivity |]. simpl.
  now rewrite no_cr_app, no_cr_escape_char, IH.
Qed.

Lemma no_cr_str (s : string) : no_cr (print_str s) = true.
Proof. unfold print_str. simpl. now rewrite no_cr_app, no_cr_escape. Qed.

Lemma no_cr_seq {A} (pr : A -> string) (close : string) (l : list A) :
  no_cr close = true -> Forall (fun x => no_cr (pr x) = true) l ->
  no_cr (print_seq pr close l) = true.
Proof.
  intros Hc Hl. induction Hl as [|x l Hx Hl IH]; [exact Hc |].
  destruct l as [|y l].
  - simpl. now rewrite no_cr_app, Hx, Hc.
  - change (print_seq pr close (x :: y :: l))
      with (pr x +:+ ", " +:+ print_seq pr close (y :: l)).
    now rewrite !no_cr_app, Hx, IH.
Qed.

Lemma no_cr_print (v : pyval) : no_cr (print v) = true.
Proof.
  induction v as [|b|z|m e|s|l IH|d IH] using pyval_induction.
  - reflexivity.
  - now destruct b.
  - apply no_cr_Z.
  - simpl. now rewrite !no_cr_app, !no_cr_Z.
  - apply no_cr_str.
  - simpl. rewrite no_cr_app. apply no_cr_seq; [reflexivity | exact IH].
  - simpl. rewrite no_cr_app. apply no_cr_seq; [reflexivity |].
    eapply Forall_impl; [exact IH |]. intros [k x] Hx. cbv beta in *. simpl in Hx.
    now rewrite !no_cr_app, no_cr_str, Hx.
Qed.

Theorem newlines_print (v : pyval) : newlines (print v) = print v.
Proof. apply newlines_no_cr, no_cr_print. Qed.

End FlowNewlines.

Module FlowReads.
Import OsPathFacts LayoutFacts DictFacts Flow FlowFacts NewlineFacts.

(** ** What is read does not depend on how the lines end *)

(** The result of a parser, its rest read in text mode. *)
Definition rest_nl {A} (r : option (A * string)) : option (A * string) :=
  match r with
  | Some (a, rest) => Some (a, newlines rest)
  | None => None
  end.

Lemma newlines_cr_head (r : string) : exists t, newlines (String CR r) = String LF t.
Proof. simpl. eauto. Qed.

Lemma is_ws_not_CR (c : ascii) : is_ws c = false -> c <> CR.
Proof. intros Hc ->. discriminate. Qed.

Lemma skip_ws_newlines (s : string) : skip_ws (newlines s) = newlines (skip_ws s).
Proof.
  induction s as [|c r Hc IH|r IH|r Hr IH] using text_ind.
  - reflexivity.
  - rewrite newlines_cons by assumption. simpl.
    destruct (is_ws c); [exact IH | now rewrite newlines_cons].
  - rewrite newlines_cr_lf. exact IH.
  - rewrite newlines_cr by assumption. exact IH.
Qed.

Lemma skip_ws_head (s : string) (c : ascii) (r : string) :
  skip_ws s = String c r -> is_ws c = false.
Proof.
  induction s as [|c' s IH]; [discriminate |]. simpl.
  destruct (is_ws c') eqn:E; [exact IH |]. now intros [= <- _].
Qed.

(** The text after white space, read in text mode. *)
Lemma skip_ws_newlines_cases (s : string) :
  (skip_ws s = "" /\ skip_ws (newlines s) = "") \/
  exists c r, skip_ws s = String c r /\ skip_ws (newlines s) = String c (newlines r) /\
              c <> CR /\ is_ws c = false.
Proof.
  rewrite skip_ws_newlines. destruct (skip_ws s) as [|c r] eqn:E; [now left |].
  right. exists c, r. pose proof (skip_ws_head _ _ _ E) as Hc.
  pose proof (is_ws_not_CR c Hc) as Hne.
  now rewrite newlines_cons.
Qed.

Lemma parse_uint_cons (c : ascii) (r : string) :
  parse_uint (String c r)
  = match digit_of c with
    | Some k => let (u, r') := parse_uint r in (k u, r')
    | None => (Decimal.Nil, String c r)
    end.
Proof. reflexivity. Qed.

Lemma parse_uint_newlines (s : string) :
  parse_uint (newlines s) = (fst (parse_uint s), newlines (snd (parse_uint s))).
Proof.
  induction s as [|c r Hc IH|r IH|r Hr IH] using text_ind.
  - reflexivity.
  - rewrite newlines_cons, !parse_uint_cons by assumption.
    destruct (digit_of c) as [k|].
    + rewrite IH. now destruct (parse_uint r).
    + cbn [fst snd]. now rewrite newlines_cons.
  - reflexivity.
  - change (parse_uint (String CR r)) with (Decimal.Nil, String CR r). cbn [fst snd].
    rewrite newlines_cr by assumption. reflexivity.
Qed.

Lemma parse_Z_newlines (s : string) : parse_Z (newlines s) = rest_nl (parse_Z s).
Proof.
  destruct (shape_of s) as [|c r Hc| r | r Hr].
  - reflexivity.
  - pose proof (parse_uint_newlines (String c r)) as Hs.
    rewrite newlines_cons in * by assumption. unfold parse_Z.
    destruct (N_of_ascii c =? 45)%N.
    + rewrite parse_uint_newlines. destruct (parse_uint r) as [[] r']; reflexivity.
    + rewrite Hs. destruct (parse_uint (String c r)) as [[] r']; reflexivity.
  - reflexivity.
  - change (parse_Z (String CR r)) with (@None (Z * string)).
    rewrite newlines_cr by assumption. reflexivity.
Qed.

Lemma parse_number_newlines (s : string) :
  parse_number (newlines s) = rest_nl (parse_number s).
Proof.
  unfold parse_number. rewrite parse_Z_newlines.
  destruct (parse_Z s) as [[m rest]|]; [| reflexivity]. cbn [rest_nl].
  destruct (shape_of rest) as [|c r Hc| r | r Hr].
  - reflexivity.
  - rewrite newlines_cons by assumption.
    destruct (N_of_ascii c =? 101)%N.
    + rewrite parse_Z_newlines. now destruct (parse_Z r) as [[e r']|].
    + cbn [rest_nl]. now rewrite newlines_cons.
  - reflexivity.
  - rewrite (newlines_cr r) by assumption.
    change (Some (PInt m, String LF (newlines r)) = rest_nl (Some (PInt m, String CR r))).
    cbn [rest_nl]. now rewrite (newlines_cr r).
Qed.

(** A literal without line ends. *)
Fixpoint no_break (lit : string) : bool :=
  match lit with
  | EmptyString => true
  | String a lit' => negb (Ascii.eqb a CR) && negb (Ascii.eqb a LF) && no_break lit'
  end.

Lemma expect_newlines (lit : string) :
  no_break lit = true ->
  forall s, expect lit (newlines s) = option_map newlines (expect lit s).
Proof.
  induction lit as [|a lit IH]; intros Hlit s.
  - now destruct s.
  - simpl in Hlit. apply andb_true_iff in Hlit as [Ha Hlit].
    apply andb_true_iff in Ha as [Hcr Hlf]. apply negb_true_iff in Hcr, Hlf.
    destruct (shape_of s) as [|c r Hc| r | r Hr].
    + reflexivity.
    + rewrite newlines_cons by assumption. simpl.
      destruct (Ascii.eqb a c); [now apply IH | reflexivity].
    + rewrite newlines_cr_lf. simpl. now rewrite Hcr, Hlf.
    + rewrite newlines_cr by assumption. simpl. now rewrite Hcr, Hlf.
Qed.

(** ** String literals *)

Lemma cons_char_rest_nl (x : ascii) (p : option (string * string)) :
  cons_char x (rest_nl p) = rest_nl (cons_char x p).
Proof. now destruct p as [[s r]|]. Qed.

(** Four hexadecimal digits and the rest. *)
Definition read4 (s : string) : option (ascii * string) :=
  match s with
  | String h1 (String h2 (String h3 (String h4 r))) =>
      match hex4 h1 h2 h3 h4 with
      | Some x => Some (x, r)
      | None => None
      end
  | _ => None
  end.

Lemma hex4_CR_1 b c d : hex4 CR b c d = None.
Proof. reflexivity. Qed.
Lemma hex4_LF_1 b c d : hex4 LF b c d = None.
Proof. reflexivity. Qed.
Lemma hex4_CR_2 a c d : hex4 a CR c d = None.
Proof. unfold hex4. now destruct (hex_val a). Qed.
Lemma hex4_LF_2 a c d : hex4 a LF c d = None.
Proof. unfold hex4. now destruct (hex_val a). Qed.
Lemma hex4_CR_3 a b d : hex4 a b CR d = None.
Proof. unfold hex4. now destruct (hex_val a), (hex_val b). Qed.
Lemma hex4_LF_3 a b d : hex4 a b LF d = None.
Proof. unfold hex4. now destruct (hex_val a), (hex_val b). Qed.
Lemma hex4_CR_4 a b c : hex4 a b c CR = None.
Proof. unfold hex4. now destruct (hex_val a), (hex_val b), (hex_val c). Qed.
Lemma hex4_LF_4 a b c : hex4 a b c LF = None.
Proof. unfold hex4. now destruct (hex_val a), (hex_val b), (hex_val c). Qed.

Lemma read4_cons (h1 : ascii) (s : string) :
  read4 (String h1 s)
  = match s with
    | String h2 (String h3 (String h4 r)) =>
        match hex4 h1 h2 h3 h4 with
        | Some x => Some (x, r)
        | None => None
        end
    | _ => None
    end.
Proof. reflexivity. Qed.

Lemma read4_newlines (s : string) : read4 (newlines s) = rest_nl (read4 s).
Proof.
  destruct (shape_of s) as [|h1 s1 H1| s1 | s1 Hs1].
  - reflexivity.
  - rewrite newlines_cons, !read4_cons by assumption.
    destruct (shape_of s1) as [|h2 s2 H2| s2 | s2 Hs2].
    + reflexivity.
    + rewrite newlines_cons by assumption.
      destruct (shape_of s2) as [|h3 s3 H3| s3 | s3 Hs3].
      * reflexivity.
      * rewrite newlines_cons by assumption.
        destruct (shape_of s3) as [|h4 s4 H4| s4 | s4 Hs4].
        -- reflexivity.
        -- rewrite newlines_cons by assumption.
           now destruct (hex4 h1 h2 h3 h4).
        -- rewrite newlines_cr_lf. now rewrite hex4_LF_4, hex4_CR_4.
        -- rewrite newlines_cr by assumption. now rewrite hex4_LF_4, hex4_CR_4.
      * rewrite newlines_cr_lf.
        destruct (newlines s3) as [|? ?]; destruct s3 as [|? ?];
          now rewrite ?hex4_LF_3, ?hex4_CR_3.
      * rewrite newlines_cr by assumption.
        destruct (newlines s3) as [|? ?]; destruct s3 as [|? ?];
          now rewrite ?hex4_LF_3, ?hex4_CR_3.
    + rewrite newlines_cr_lf.
      destruct (newlines s2) as [|? [|? ?]]; destruct s2 as [|? ?];
        now rewrite ?hex4_LF_2, ?hex4_CR_2.
    + rewrite newlines_cr by assumption.
      destruct (newlines s2) as [|? [|? ?]]; destruct s2 as [|? [|? ?]];
        now rewrite ?hex4_LF_2, ?hex4_CR_2.
  - rewrite newlines_cr_lf, !read4_cons.
    destruct (newlines s1) as [|? [|? [|? ?]]]; destruct s1 as [|? [|? ?]]; reflexivity.
  - rewrite newlines_cr, !read4_cons by assumption.
    destruct (newlines s1) as [|? [|? [|? ?]]]; destruct s1 as [|? [|? [|? ?]]]; reflexivity.
Qed.

(** [parse_chars], one character at a time. *)
Lemma parse_chars_cons (c : ascii) (r : string) :
  parse_chars (String c r)
  = if (N_of_ascii c =? 34)%N then Some ("", r)
    else if (N_of_ascii c =? 92)%N then
      match r with
      | String e r2 =>
          if (N_of_ascii e =? 34)%N then cons_char dq (parse_chars r2)
          else if (N_of_ascii e =? 92)%N then cons_char bs (parse_chars r2)
          else if (N_of_ascii e =? 47)%N then cons_char "/" (parse_chars r2)
          else if (N_of_ascii e =? 110)%N then cons_char "010" (parse_chars r2)
          else if (N_of_ascii e =? 114)%N then cons_char "013" (parse_chars r2)
          else if (N_of_ascii e =? 116)%N then cons_char "009" (parse_chars r2)
          else if (N_of_ascii e =? 98)%N then cons_char "008" (parse_chars r2)
          else if (N_of_ascii e =? 102)%N then cons_char "012" (parse_chars r2)
          else if (N_of_ascii e =? 117)%N then
            match read4 r2 with
            | Some (x, r3) => cons_char x (parse_chars r3)
            | None => None
            end
          else None
      | EmptyString => None
      end
    else if (N_of_ascii c <? 32)%N then None
    else cons_char c (parse_chars r).
Proof.
  destruct r as [|e [|h1 [|h2 [|h3 [|h4 r3]]]]]; try reflexivity.
  simpl. unfold read4. now destruct (hex4 h1 h2 h3 h4).
Qed.

Lemma length_read4 (s : string) (x : ascii) (r : string) :
  read4 s = Some (x, r) -> String.length r < String.length s.
Proof.
  destruct s as [|h1 [|h2 [|h3 [|h4 r3]]]]; try discriminate. simpl.
  destruct (hex4 h1 h2 h3 h4); [| discriminate]. intros [= _ <-]. lia.
Qed.

Lemma parse_chars_newlines_upto (n : nat) :
  forall s, String.length s <= n -> parse_chars (newlines s) = rest_nl (parse_chars s).
Proof.
  induction n as [|n IH]; intros s Hlen.
  { destruct s; [reflexivity | simpl in Hlen; lia]. }
  destruct (shape_of s) as [|c r Hc| r | r Hr].
  - reflexivity.
  - simpl in Hlen. rewrite newlines_cons, !parse_chars_cons by assumption.
    destruct (N_of_ascii c =? 34)%N; [reflexivity |].
    destruct (N_of_ascii c =? 92)%N.
    + destruct (shape_of r) as [|e r2 He| r2 | r2 Hr2].
      * reflexivity.
      * simpl in Hlen. rewrite newlines_cons by assumption.
        assert (parse_chars (newlines r2) = rest_nl (parse_chars r2)) as IH2
          by (apply IH; lia).
        repeat (match goal with
                | |- (if ?b then _ else _) = rest_nl (if ?b then _ else _) =>
                    destruct b; [now rewrite IH2, cons_char_rest_nl |]
                end).
        destruct (N_of_ascii e =? 117)%N; [| reflexivity].
        rewrite read4_newlines.
        destruct (read4 r2) as [[x r3]|] eqn:E4; [| reflexivity].
        cbn [rest_nl]. apply length_read4 in E4.
        rewrite (IH r3) by lia. apply cons_char_rest_nl.
      * rewrite newlines_cr_lf. reflexivity.
      * rewrite (newlines_cr r2) by assumption. reflexivity.
    + destruct (N_of_ascii c <? 32)%N; [reflexivity |].
      rewrite (IH r) by lia. apply cons_char_rest_nl.
  - rewrite newlines_cr_lf. reflexivity.
  - rewrite newlines_cr by assumption. reflexivity.
Qed.

Lemma parse_chars_newlines (s : string) :
  parse_chars (newlines s) = rest_nl (parse_chars s).
Proof. now apply (parse_chars_newlines_upto (String.length s)). Qed.

Lemma parse_str_newlines (s : string) : parse_str (newlines s) = rest_nl (parse_str s).
Proof.
  destruct (shape_of s) as [|c r Hc| r | r Hr].
  - reflexivity.
  - rewrite newlines_cons by assumption. unfold parse_str.
    destruct (N_of_ascii c =? 34)%N; [apply parse_chars_newlines | reflexivity].
  - reflexivity.
  - rewrite newlines_cr by assumption. reflexivity.
Qed.

(** ** Values *)

Lemma parse_value_S (fuel : nat) (c : ascii) (r : string) :
  parse_value (S fuel) (String c r)
  = if (N_of_ascii c =? 110)%N then
      match expect "ull" r with Some r' => Some (PNone, r') | None => None end
    else if (N_of_ascii c =? 116)%N then
      match expect "rue" r with Some r' => Some (PBool true, r') | None => None end
    else if (N_of_ascii c =? 102)%N then
      match expect "alse" r with Some r' => Some (PBool false, r') | None => None end
    else if (N_of_ascii c =? 34)%N then
      match parse_chars r with
      | Some (x, r') => Some (PStr x, r')
      | None => None
      end
    else if (N_of_ascii c =? 91)%N then
      match skip_ws r with
      | String c' r' =>
          if (N_of_ascii c' =? 93)%N then Some (PList [], r')
          else
            match parse_value fuel (String c' r') with
            | Some (x, r1) =>
                match parse_items fuel r1 with
                | Some (l, r2) => Some (PList (x :: l), r2)
                | None => None
                end
            | None => None
            end
      | EmptyString => None
      end
    else if (N_of_ascii c =? 123)%N then
      match skip_ws r with
      | String c' r' =>
          if (N_of_ascii c' =? 125)%N then Some (PDict [], r')
          else
            match parse_member fuel (String c' r') with
            | Some (kx, r1) =>
                match parse_members fuel r1 with
                | Some (d, r2) => Some (PDict (dict_of_items (kx :: d)), r2)
                | None => None
                end
            | None => None
            end
      | EmptyString => None
      end
    else parse_number (String c r).
Proof. reflexivity. Qed.

Lemma parse_items_S (fuel : nat) (s : string) :
  parse_items (S fuel) s
  = match skip_ws s with
    | String c r =>
        if (N_of_ascii c =? 93)%N then Some ([], r)
        else if (N_of_ascii c =? 44)%N then
          match parse_value fuel (skip_ws r) with
          | Some (x, r1) =>
              match parse_items fuel r1 with
              | Some (l, r2) => Some (x :: l, r2)
              | None => None
              end
          | None => None
          end
        else None
    | EmptyString => None
    end.
Proof. reflexivity. Qed.

Lemma parse_member_S (fuel : nat) (s : string) :
  parse_member (S fuel) s
  = match parse_str s with
    | Some (k, r) =>
        match skip_ws r with
        | String c r1 =>
            if (N_of_ascii c =? 58)%N then
              match parse_value fuel (skip_ws r1) with
              | Some (x, r2) => Some ((k, x), r2)
              | None => None
              end
            else None
        | EmptyString => None
        end
    | None => None
    end.
Proof. reflexivity. Qed.

Lemma parse_members_S (fuel : nat) (s : string) :
  parse_members (S fuel) s
  = match skip_ws s with
    | String c r =>
        if (N_of_ascii c =? 125)%N then Some ([], r)
        else if (N_of_ascii c =? 44)%N then
          match parse_member fuel (skip_ws r) with
          | Some (kx, r1) =>
              match parse_members fuel r1 with
              | Some (d, r2) => Some (kx :: d, r2)
              | None => None
              end
          | None => None
          end
        else None
    | EmptyString => None
    end.
Proof. reflexivity. Qed.

(** The four readers agree on a text and on the text read in text mode. *)
Definition reads_alike (fuel : nat) : Prop :=
  (forall s, parse_value fuel (newlines s) = rest_nl (parse_value fuel s)) /\
  (forall s, parse_items fuel (newlines s) = rest_nl (parse_items fuel s)) /\
  (forall s, parse_member fuel (newlines s) = rest_nl (parse_member fuel s)) /\
  (forall s, parse_members fuel (newlines s) = rest_nl (parse_members fuel s)).

Lemma expect_rest {A} (a : A) (lit s : string) :
  no_break lit = true ->
  match expect lit (newlines s) with Some r' => Some (a, r') | None => None end
  = rest_nl (match expect lit s with Some r' => Some (a, r') | None => None end).
Proof. intros Hl. rewrite expect_newlines by assumption. now destruct (expect lit s). Qed.

Lemma parse_value_newlines_step (fuel : nat) :
  reads_alike fuel ->
  forall s, parse_value (S fuel) (newlines s) = rest_nl (parse_value (S fuel) s).
Proof.
  intros (IHv & IHi & IHm & IHms) s.
  destruct (shape_of s) as [|c r Hc| r | r Hr].
  - reflexivity.
  - rewrite newlines_cons, !parse_value_S by assumption.
    destruct (N_of_ascii c =? 110)%N; [now apply expect_rest |].
    destruct (N_of_ascii c =? 116)%N; [now apply expect_rest |].
    destruct (N_of_ascii c =? 102)%N; [now apply expect_rest |].
    destruct (N_of_ascii c =? 34)%N.
    { rewrite parse_chars_newlines. now destruct (parse_chars r) as [[x r']|]. }
    destruct (N_of_ascii c =? 91)%N.
    { destruct (skip_ws_newlines_cases r) as [[-> ->] | (c' & r' & -> & -> & Hc' & _)];
        [reflexivity |].
      destruct (N_of_ascii c' =? 93)%N; [reflexivity |].
      rewrite <- (newlines_cons c' r') by assumption. rewrite IHv.
      destruct (parse_value fuel (String c' r')) as [[x r1]|]; [| reflexivity].
      cbn [rest_nl]. rewrite IHi. now destruct (parse_items fuel r1) as [[l r2]|]. }
    destruct (N_of_ascii c =? 123)%N.
    { destruct (skip_ws_newlines_cases r) as [[-> ->] | (c' & r' & -> & -> & Hc' & _)];
        [reflexivity |].
      destruct (N_of_ascii c' =? 125)%N; [reflexivity |].
      rewrite <- (newlines_cons c' r') by assumption. rewrite IHm.
      destruct (parse_member fuel (String c' r')) as [[kx r1]|]; [| reflexivity].
      cbn [rest_nl]. rewrite IHms. now destruct (parse_members fuel r1) as [[d r2]|]. }
    rewrite <- (newlines_cons c r) by assumption. apply parse_number_newlines.
  - rewrite newlines_cr_lf. reflexivity.
  - rewrite newlines_cr by assumption. reflexivity.
Qed.

Lemma parse_items_newlines_step (fuel : nat) :
  reads_alike fuel ->
  forall s, parse_items (S fuel) (newlines s) = rest_nl (parse_items (S fuel) s).
Proof.
  intros (IHv & IHi & IHm & IHms) s. rewrite !parse_items_S.
  destruct (skip_ws_newlines_cases s) as [[-> ->] | (c & r & -> & -> & Hc & _)];
    [reflexivity |].
  destruct (N_of_ascii c =? 93)%N; [reflexivity |].
  destruct (N_of_ascii c =? 44)%N; [| reflexivity].
  rewrite skip_ws_newlines, IHv.
  destruct (parse_value fuel (skip_ws r)) as [[x r1]|]; [| reflexivity].
  cbn [rest_nl]. rewrite IHi. now destruct (parse_items fuel r1) as [[l r2]|].
Qed.

Lemma parse_member_newlines_step (fuel : nat) :
  reads_alike fuel ->
  forall s, parse_member (S fuel) (newlines s) = rest_nl (parse_member (S fuel) s).
Proof.
  intros (IHv & IHi & IHm & IHms) s. rewrite !parse_member_S, parse_str_newlines.
  destruct (parse_str s) as [[k r]|]; [| reflexivity]. cbn [rest_nl].
  destruct (skip_ws_newlines_cases r) as [[-> ->] | (c & r1 & -> & -> & Hc & _)];
    [reflexivity |].
  destruct (N_of_ascii c =? 58)%N; [| reflexivity].
  rewrite skip_ws_newlines, IHv.
  now destruct (parse_value fuel (skip_ws r1)) as [[x r2]|].
Qed.

Lemma parse_members_newlines_step (fuel : nat) :
  reads_alike fuel ->
  forall s, parse_members (S fuel) (newlines s) = rest_nl (parse_members (S fuel) s).
Proof.
  intros (IHv & IHi & IHm & IHms) s. rewrite !parse_members_S.
  destruct (skip_ws_newlines_cases s) as [[-> ->] | (c & r & -> & -> & Hc & _)];
    [reflexivity |].
  destruct (N_of_ascii c =? 125)%N; [reflexivity |].
  destruct (N_of_ascii c =? 44)%N; [| reflexivity].
  rewrite skip_ws_newlines, IHm.
  destruct (parse_member fuel (skip_ws r)) as [[kx r1]|]; [| reflexivity].
  cbn [rest_nl]. rewrite IHms. now destruct (parse_members fuel r1) as [[d r2]|].
Qed.

Lemma parse_reads_alike (fuel : nat) : reads_alike fuel.
Proof.
  induction fuel as [|fuel IH].
  - repeat split; intros s; reflexivity.
  - split; [| split; [| split]].
    + now apply parse_value_newlines_step.
    + now apply parse_items_newlines_step.
    + now apply parse_member_newlines_step.
    + now apply parse_members_newlines_step.
Qed.

(** ** The fuel: the length of the text is enough *)

Lemma length_skip_ws (s : string) : String.length (skip_ws s) <= String.length s.
Proof.
  induction s as [|c s IH]; [reflexivity |]. simpl.
  destruct (is_ws c); simpl; lia.
Qed.

Lemma length_expect (lit s r : string) :
  expect lit s = Some r -> String.length r <= String.length s.
Proof.
  revert s. induction lit as [|a lit IH]; intros s.
  - destruct s; intros [= <-]; reflexivity.
  - destruct s as [|b s]; [discriminate |]. simpl.
    destruct (Ascii.eqb a b); [| discriminate]. intros Hr%IH. lia.
Qed.

Lemma length_parse_uint (s : string) :
  String.length (snd (parse_uint s)) <= String.length s /\
  (fst (parse_uint s) <> Decimal.Nil ->
   String.length (snd (parse_uint s)) < String.length s).
Proof.
  induction s as [|c s [IH1 IH2]]; [split; [reflexivity | intros Hn; now contradiction Hn] |].
  rewrite parse_uint_cons. destruct (digit_of c) as [k|].
  - destruct (parse_uint s) as [u r']. simpl in *. split; [lia | intros _; lia].
  - simpl. split; [lia | intros Hn; now contradiction Hn].
Qed.

Lemma length_parse_Z (s : string) (z : Z) (r : string) :
  parse_Z s = Some (z, r) -> String.length r < String.length s.
Proof.
  destruct s as [|c s]; [discriminate |]. unfold parse_Z.
  destruct (N_of_ascii c =? 45)%N.
  - pose proof (length_parse_uint s) as [Hl _].
    destruct (parse_uint s) as [u r']. simpl in Hl.
    destruct u; intros [= _ <-]; simpl; lia.
  - pose proof (length_parse_uint (String c s)) as [_ Hl].
    destruct (parse_uint (String c s)) as [u r']. simpl in Hl.
    destruct u; intros [= _ <-]; apply Hl; discriminate.
Qed.

Lemma length_parse_number (s : string) (v : pyval) (r : string) :
  parse_number s = Some (v, r) -> String.length r < String.length s.
Proof.
  unfold parse_number. destruct (parse_Z s) as [[m [|c r1]]|] eqn:E; [| | discriminate].
  - apply length_parse_Z in E. now intros [= _ <-].
  - apply length_parse_Z in E. destruct (N_of_ascii c =? 101)%N.
    + destruct (parse_Z r1) as [[e r']|] eqn:E'; [| discriminate].
      apply length_parse_Z in E'. intros [= _ <-]. simpl in E. lia.
    + now intros [= _ <-].
Qed.

Lemma length_cons_char (x : ascii) (p : option (string * string)) (y r : string) (n : nat) :
  cons_char x p = Some (y, r) ->
  (forall y' r', p = Some (y', r') -> String.length r' < n) ->
  String.length r < n.
Proof. destruct p as [[y' r']|]; [| discriminate]. intros [= _ <-] Hp. now apply (Hp y'). Qed.

Lemma length_parse_chars_upto (n : nat) :
  forall s x r, String.length s <= n -> parse_chars s = Some (x, r) ->
                String.length r < String.length s.
Proof.
  induction n as [|n IH]; intros s x r Hlen.
  { destruct s; [discriminate | simpl in Hlen; lia]. }
  destruct s as [|c s]; [discriminate |]. simpl in Hlen. rewrite parse_chars_cons.
  destruct (N_of_ascii c =? 34)%N; [intros [= _ <-]; simpl; lia |].
  destruct (N_of_ascii c =? 92)%N.
  - destruct s as [|e r2]; [discriminate |]. simpl in Hlen.
    assert (forall a y r0, cons_char a (parse_chars r2) = Some (y, r0) ->
                           String.length r0 < String.length (String c (String e r2))) as Hstep.
    { intros a y r0 Hc. eapply length_cons_char; [exact Hc |].
      intros y' r' Hp. apply IH in Hp; [| lia]. simpl. lia. }
    repeat (match goal with
            | |- (if ?b then _ else _) = _ -> _ => destruct b; [apply Hstep |]
            end).
    destruct (N_of_ascii e =? 117)%N; [| discriminate].
    destruct (read4 r2) as [[h r3]|] eqn:E4; [| discriminate].
    apply length_read4 in E4. intros Hc. eapply length_cons_char; [exact Hc |].
    intros y' r' Hp. apply IH in Hp; [| lia]. simpl. lia.
  - destruct (N_of_ascii c <? 32)%N; [discriminate |].
    intros Hc. eapply length_cons_char; [exact Hc |].
    intros y' r' Hp. apply IH in Hp; [| lia]. simpl. lia.
Qed.

Lemma length_parse_chars (s x r : string) :
  parse_chars s = Some (x, r) -> String.length r < String.length s.
Proof. now apply (length_parse_chars_upto (String.length s)). Qed.

Lemma length_parse_str (s x r : string) :
  parse_str s = Some (x, r) -> String.length r < String.length s.
Proof.
  destruct s as [|c s]; [discriminate |]. unfold parse_str.
  destruct (N_of_ascii c =? 34)%N; [| discriminate].
  intros Hc%length_parse_chars. simpl. lia.
Qed.

(** A reader that returns has used up some of the text. *)
Definition shortens (fuel : nat) : Prop :=
  (forall s v r, parse_value fuel s = Some (v, r) -> String.length r < String.length s) /\
  (forall s l r, parse_items fuel s = Some (l, r) -> String.length r < String.length s) /\
  (forall s kx r, parse_member fuel s = Some (kx, r) -> String.length r < String.length s) /\
  (forall s d r, parse_members fuel s = Some (d, r) -> String.length r < String.length s).

Lemma parse_shortens (fuel : nat) : shortens fuel.
Proof.
  induction fuel as [|fuel (IHv & IHi & IHm & IHms)].
  { repeat split; intros; discriminate. }
  split; [| split; [| split]].
  - intros [|c s] v r; [discriminate |]. rewrite parse_value_S.
    assert (forall a lit, match expect lit s with Some r' => Some (a : pyval, r') | None => None end
                          = Some (v, r) -> String.length r < String.length (String c s)) as He.
    { intros a lit. destruct (expect lit s) as [r'|] eqn:E; [| discriminate].
      apply length_expect in E. intros [= _ <-]. simpl. lia. }
    destruct (N_of_ascii c =? 110)%N; [apply He |].
    destruct (N_of_ascii c =? 116)%N; [apply He |].
    destruct (N_of_ascii c =? 102)%N; [apply He |].
    destruct (N_of_ascii c =? 34)%N.
    { destruct (parse_chars s) as [[x r']|] eqn:E; [| discriminate].
      apply length_parse_chars in E. intros [= _ <-]. simpl. lia. }
    pose proof (length_skip_ws s) as Hws.
    destruct (N_of_ascii c =? 91)%N.
    { destruct (skip_ws s) as [|c' r']; [discriminate |]. simpl in Hws.
      destruct (N_of_ascii c' =? 93)%N; [intros [= _ <-]; simpl; lia |].
      destruct (parse_value fuel (String c' r')) as [[x r1]|] eqn:E1; [| discriminate].
      destruct (parse_items fuel r1) as [[l r2]|] eqn:E2; [| discriminate].
      apply IHv in E1. apply IHi in E2. intros [= _ <-]. simpl in *. lia. }
    destruct (N_of_ascii c =? 123)%N.
    { destruct (skip_ws s) as [|c' r']; [discriminate |]. simpl in Hws.
      destruct (N_of_ascii c' =? 125)%N; [intros [= _ <-]; simpl; lia |].
      destruct (parse_member fuel (String c' r')) as [[kx r1]|] eqn:E1; [| discriminate].
      destruct (parse_members fuel r1) as [[d r2]|] eqn:E2; [| discriminate].
      apply IHm in E1. apply IHms in E2. intros [= _ <-]. simpl in *. lia. }
    apply length_parse_number.
  - intros s l r. rewrite parse_items_S. pose proof (length_skip_ws s) as Hws.
    destruct (skip_ws s) as [|c r0]; [discriminate |]. simpl in Hws.
    destruct (N_of_ascii c =? 93)%N; [intros [= _ <-]; lia |].
    destruct (N_of_ascii c =? 44)%N; [| discriminate].
    pose proof (length_skip_ws r0) as Hws'.
    destruct (parse_value fuel (skip_ws r0)) as [[x r1]|] eqn:E1; [| discriminate].
    destruct (parse_items fuel r1) as [[l' r2]|] eqn:E2; [| discriminate].
    apply IHv in E1. apply IHi in E2. intros [= _ <-]. lia.
  - intros s kx r. rewrite parse_member_S.
    destruct (parse_str s) as [[k r0]|] eqn:E0; [| discriminate].
    apply length_parse_str in E0. pose proof (length_skip_ws r0) as Hws.
    destruct (skip_ws r0) as [|c r1]; [discriminate |]. simpl in Hws.
    destruct (N_of_ascii c =? 58)%N; [| discriminate].
    pose proof (length_skip_ws r1) as Hws'.
    destruct (parse_value fuel (skip_ws r1)) as [[x r2]|] eqn:E1; [| discriminate].
    apply IHv in E1. intros [= _ <-]. lia.
  - intros s d r. rewrite parse_members_S. pose proof (length_skip_ws s) as Hws.
    destruct (skip_ws s) as [|c r0]; [discriminate |]. simpl in Hws.
    destruct (N_of_ascii c =? 125)%N; [intros [= _ <-]; lia |].
    destruct (N_of_ascii c =? 44)%N; [| discriminate].
    pose proof (length_skip_ws r0) as Hws'.
    destruct (parse_member fuel (skip_ws r0)) as [[kx r1]|] eqn:E1; [| discriminate].
    destruct (parse_members fuel r1) as [[d' r2]|] eqn:E2; [| discriminate].
    apply IHm in E1. apply IHms in E2. intros [= _ <-]. lia.
Qed.

(** More fuel than the text is long changes nothing. *)
Definition enough (fuel : nat) : Prop :=
  (forall fuel' s, String.length s < fuel -> fuel <= fuel' ->
     parse_value fuel' s = parse_value fuel s) /\
  (forall fuel' s, String.length s < fuel -> fuel <= fuel' ->
     parse_items fuel' s = parse_items fuel s) /\
  (forall fuel' s, String.length s < fuel -> fuel <= fuel' ->
     parse_member fuel' s = parse_member fuel s) /\
  (forall fuel' s, String.length s < fuel -> fuel <= fuel' ->
     parse_members fuel' s = parse_members fuel s).

Lemma parse_enough (fuel : nat) : enough fuel.
Proof.
  induction fuel as [|fuel (IHv & IHi & IHm & IHms)].
  { repeat split; intros; lia. }
  destruct (parse_shortens fuel) as (Sv & Si & Sm & Sms).
  split; [| split; [| split]].
  - intros [|fuel'] s Hlen Hle; [lia |].
    destruct s as [|c s]; [reflexivity |]. simpl in Hlen. rewrite !parse_value_S.
    pose proof (length_skip_ws s) as Hws.
    destruct (skip_ws s) as [|c' r']; [reflexivity |]. simpl in Hws.
    rewrite (IHv fuel' (String c' r')), (IHm fuel' (String c' r')) by (simpl; lia).
    destruct (parse_value fuel (String c' r')) as [[x r1]|] eqn:E1;
      destruct (parse_member fuel (String c' r')) as [[kx r1']|] eqn:E1';
      try (apply Sv in E1; simpl in E1; rewrite (IHi fuel' r1) by lia);
      try (apply Sm in E1'; simpl in E1'; rewrite (IHms fuel' r1') by lia);
      reflexivity.
  - intros [|fuel'] s Hlen Hle; [lia |]. rewrite !parse_items_S.
    pose proof (length_skip_ws s) as Hws.
    destruct (skip_ws s) as [|c r0]; [reflexivity |]. simpl in Hws.
    pose proof (length_skip_ws r0) as Hws'.
    rewrite (IHv fuel' (skip_ws r0)) by lia.
    destruct (parse_value fuel (skip_ws r0)) as [[x r1]|] eqn:E1; [| reflexivity].
    apply Sv in E1. now rewrite (IHi fuel' r1) by lia.
  - intros [|fuel'] s Hlen Hle; [lia |]. rewrite !parse_member_S.
    destruct (parse_str s) as [[k r0]|] eqn:E0; [| reflexivity].
    apply length_parse_str in E0. pose proof (length_skip_ws r0) as Hws.
    destruct (skip_ws r0) as [|c r1]; [reflexivity |]. simpl in Hws.
    pose proof (length_skip_ws r1) as Hws'.
    now rewrite (IHv fuel' (skip_ws r1)) by lia.
  - intros [|fuel'] s Hlen Hle; [lia |]. rewrite !parse_members_S.
    pose proof (length_skip_ws s) as Hws.
    destruct (skip_ws s) as [|c r0]; [reflexivity |]. simpl in Hws.
    pose proof (length_skip_ws r0) as Hws'.
    rewrite (IHm fuel' (skip_ws r0)) by lia.
    destruct (parse_member fuel (skip_ws r0)) as [[kx r1]|] eqn:E1; [| reflexivity].
    apply Sm in E1. now rewrite (IHms fuel' r1) by lia.
Qed.

(** A text and the text read in text mode hold the same document. *)
Theorem parse_newlines (s : string) : parse (newlines s) = parse s.
Proof.
  unfold parse. rewrite skip_ws_newlines.
  pose proof (length_newlines s) as Hs.
  pose proof (length_skip_ws s) as Hws.
  pose proof (length_skip_ws (newlines s)) as Hws'. rewrite skip_ws_newlines in Hws'.
  destruct (parse_enough (S (S (String.length (newlines s))))) as (Ev & _).
  rewrite <- (Ev (S (S (String.length s)))) by lia.
  destruct (parse_reads_alike (S (S (String.length s)))) as (Av & _). rewrite Av.
  destruct (parse_value (S (S (String.length s))) (skip_ws s)) as [[v rest]|];
    [| reflexivity].
  cbn [rest_nl]. rewrite skip_ws_newlines.
  destruct (skip_ws rest) as [|c r] eqn:E; [reflexivity |].
  destruct (newlines (String c r)) eqn:E'; [| reflexivity].
  now apply newlines_empty in E'.
Qed.

End FlowReads.

(** The two libraries, implemented by [Flow]. *)
#[export] Instance flow_json : JsonLib := {|
  json_dumps := Flow.print;
  json_loads := Flow.parse;
  json_loads_dumps := FlowFacts.parse_print;
  json_dumps_strip := FlowFacts.strip_print;
  json_loads_empty := eq_refl;
  json_loads_wf := FlowFacts.parse_is_wf;
  json_loads_newlines := FlowReads.parse_newlines
|}.

#[export] Instance flow_yaml : YamlLib := {|
  yaml_safe_dump := Flow.print;
  yaml_safe_load := Flow.parse;
  yaml_load_dump := FlowFacts.parse_print;
  yaml_load_wf := FlowFacts.parse_is_wf;
  yaml_load_newlines := FlowReads.parse_newlines;
  yaml_dump_newlines := FlowNewlines.newlines_print
|}.

(* ===================================================================== *)
(** * The methods on concrete stores *)
(* ===================================================================== *)

Section Closed.
Import Examples OsPath OsPathFacts Layout LayoutFacts StoreFacts AgentClass.

Ltac tree := match goal with |- is_tree ?d =>
  apply (bool_decide_eq_true_1 (is_tree d)); vm_compute; reflexivity end.

(** C1, counterexample. [Bot1] was never created and the catalog is empty:
    no run of [get_agent_config] returns the document with the default
    provider settings (with fuel two it returns
    [{"commands": {}, "settings": {}}]). *)
Lemma new_agent_settings_not_default :
  ~ exists fuel w', get_agent_config fuel (empty_app "Bot1")
                    = (w', Ret default_settings_config).
Proof.
  intros (fuel & w' & Hrun).
  destruct (get_agent_config 2 (empty_app "Bot1")) as [w2 r2] eqn:H2.
  assert (r2 = Ret empty_config) as ->.
  { apply (f_equal snd) in H2. vm_compute in H2. now symmetry. }
  destruct (get_agent_config_outcome _ _ _ _ _ _ _ Hrun ltac:(discriminate)
              H2 ltac:(discriminate)) as [_ E].
  discriminate E.
Qed.

(** C1, the amended claim at [Bot1]. *)
Lemma get_agent_config_new_agent_Bot1 :
  exists w',
    (forall fuel, 2 <= fuel ->
       get_agent_config fuel (empty_app "Bot1") = (w', Ret empty_config)) /\
    same_process (empty_app "Bot1") w' /\
    disk w' !! agent_folder "/app" "Bot1" = Some Dir /\
    disk w' !! config_file "/app" "Bot1" = Some (File (json_dumps empty_config)).
Proof.
  apply (get_agent_config_new_agent (empty_app "Bot1"));
    [reflexivity | tree | reflexivity | reflexivity | reflexivity | reflexivity].
Defined.

(** C2, counterexample. With the text [{] in the configuration file of
    [Bot1], no run of [get_agent_config] returns a document: the call raises
    [JSONDecodeError] and leaves the file as it is. And with a blank file
    and an empty catalog, what is returned is
    [{"commands": {}, "settings": {}}], not the document with the default
    provider settings. *)
Lemma unparsable_config_raises :
  (~ exists fuel w' doc,
       get_agent_config fuel (bot1_with_config [] "{") = (w', Ret doc)) /\
  get_agent_config 1 (bot1_with_config [] "{")
    = (bot1_with_config [] "{", Raise JSONDecodeError) /\
  snd (get_agent_config 2 (bot1_with_config [] "  ")) = Ret empty_config /\
  empty_config <> default_settings_config.
Proof.
  assert (get_agent_config 1 (bot1_with_config [] "{")
          = (bot1_with_config [] "{", Raise JSONDecodeError)) as H1.
  { vm_compute. reflexivity. }
  split; [| split; [| split]].
  - intros (fuel & w' & doc & Hrun).
    destruct (get_agent_config_outcome _ _ _ _ _ _ _ Hrun ltac:(discriminate)
                H1 ltac:(discriminate)) as [_ E].
    discriminate E.
  - exact H1.
  - vm_compute. reflexivity.
  - discriminate.
Qed.

(** C2, the amended claim at [Bot1] with a blank file and a catalog of one
    command. *)
Lemma get_agent_config_blank_file_Bot1 :
  let w := bot1_with_config [hello_plugin; util_plugin] "  " in
  let commands_list : list catalog_entry :=
    [("Say Hello", "say_hello", [("name", PNone); ("greeting", PStr "hi")])] in
  let doc := PDict [("commands", PDict [("Say Hello", PBool false)]);
                    ("settings", PDict [])] in
  (forall fuel, 2 <= fuel ->
     get_agent_config fuel w
     = (set_disk (<[config_file "/app" "Bot1" := File (json_dumps doc)]> (disk w)) w,
        Ret doc)) /\
  fresh_config commands_list = doc /\
  (forall k,
     dict_get k (command_dict_of commands_list)
     = if existsb (String.eqb k) (map (fun c : catalog_entry => fst (fst c)) commands_list)
       then Some (PBool false) else None).
Proof.
  intros w commands_list doc.
  apply (get_agent_config_blank_file w "  " commands_list);
    [reflexivity | tree | reflexivity | reflexivity | reflexivity].
Defined.

(** C3, counterexample. For the agent name [/app/x], a path inside the
    working directory, [os.path.join("agents", name)] drops [agents]: the
    file is written to [/app/x/config.json], while the loop looks for
    [/app/agents/app/x/config.json]. Every pass regenerates, the store is
    the same after each, and no fuel lets the call end. *)
Lemma absolute_name_never_ends :
  ~ exists fuel w' r,
      get_agent_config fuel (empty_app "/app/x") = (w', r) /\ r <> OutOfFuel.
Proof.
  set (w1 := fst (get_agent_config_body (empty_app "/app/x"))).
  assert (get_agent_config_body (empty_app "/app/x") = (w1, Ret Continue)) as H0.
  { unfold w1. vm_compute. reflexivity. }
  assert (get_agent_config_body w1 = (w1, Ret Continue)) as H1.
  { unfold w1. vm_compute. reflexivity. }
  assert (forall fuel, get_agent_config fuel w1 = (w1, OutOfFuel)) as Hloop.
  { induction fuel as [|fuel IH]; [reflexivity |].
    now rewrite get_agent_config_step, H1. }
  intros (fuel & w' & r & Hrun & Hr). destruct fuel as [|fuel].
  - injection Hrun as _ <-. congruence.
  - rewrite get_agent_config_step, H0, Hloop in Hrun. injection Hrun as _ <-. congruence.
Qed.

(** C3, the amended claim at [Bot1] on the empty store. *)
Lemma get_agent_config_terminates_Bot1 :
  (exists w' r,
     r <> OutOfFuel /\
     forall fuel, 2 <= fuel -> get_agent_config fuel (empty_app "Bot1") = (w', r)) /\
  (forall w1, get_agent_config_body (empty_app "Bot1") = (w1, Ret Continue) ->
     exists agent_config,
       get_agent_config_body w1 = (w1, Ret (Break agent_config))).
Proof.
  apply (get_agent_config_terminates (empty_app "Bot1")). reflexivity.
Defined.

(** C4 at [Bot1]: a new memory store, then two interactions. *)
Lemma log_interactions_reload_Bot1 :
  let w0 := fst (init_memory (app "Bot1" [] [(["agents"], Dir)])) in
  let log := [PDict [("role", PStr "user"); ("message", PStr "hi")];
              PDict [("role", PStr "assistant"); ("message", PStr "hello")]] in
  exists w',
    log_interactions [("user", "hi"); ("assistant", "hello")] w0 = (w', Ret tt) /\
    load_memory w' = (w', Ret (PDict [("interactions", PList log)])) /\
    memory (this w') = PDict [("interactions", PList log)] /\
    ([("user", "hi"); ("assistant", "hello")] <> [] ->
     disk w' !! memory_location w'
     = Some (File (yaml_safe_dump (memory (this w'))))).
Proof.
  intros w0 log.
  apply (log_interactions_reload (app "Bot1" [] [(["agents"], Dir)]) w0
           [("interactions", PList [])] []
           [("user", "hi"); ("assistant", "hello")]);
    [vm_compute; reflexivity | reflexivity | reflexivity].
Defined.


(** C6 at [Bot1], which has no configuration file. *)
Lemma update_agent_config_missing_Bot1 :
  update_agent_config [("AI_MODEL", PStr "llama")] (empty_app "Bot1")
  = (empty_app "Bot1", Ret "Agent Bot1 configuration not found.").
Proof.
  apply (update_agent_config_missing [("AI_MODEL", PStr "llama")] (empty_app "Bot1")).
  vm_compute. reflexivity.
Defined.



(** C8 at a directory with [hello] (one command) and [util] (none). *)
Lemma load_commands_two_modules_hello :
  let w := app "Bot1" [util_plugin; hello_plugin] [] in
  let items := [("Say Hello",
                 {| func_name := "say_hello";
                    parameters := [("name", None); ("greeting", Some (PStr "hi"))] |})] in
  exists entries,
    load_commands w = (w, Ret entries) /\
    entries = map entry_of items /\
    length entries = length items.
Proof.
  intros w items.
  apply (load_commands_two_modules w hello_plugin util_plugin items);
    [reflexivity | reflexivity | right; reflexivity].
Defined.

(** C9, counterexample. For the agent name [Bot1/memories/..] the log
    [agents/Bot1/memories/...yaml] lies in the folder that the wipe removes,
    [agents/Bot1/memories]: the chat history is the text of the log before
    the wipe and empty after it. *)
Lemma wipe_agent_memories_deletes_log :
  let n := "Bot1/memories/.." in
  let w := app n []
             [(["agents"], Dir); (["agents"; "Bot1"], Dir);
              (["agents"; "Bot1"; "memories"], Dir);
              (["agents"; "Bot1"; "memories"; "...yaml"], File "interactions: []")] in
  let w' := fst (wipe_agent_memories n w) in
  snd (wipe_agent_memories n w) = Ret tt /\
  resolve "/app" (join "agents" (n +:+ ".yaml"))
    = ["app"; "agents"; "Bot1"; "memories"; "...yaml"] /\
  disk w !! ["app"; "agents"; "Bot1"; "memories"; "...yaml"]
    = Some (File "interactions: []") /\
  disk w' !! ["app"; "agents"; "Bot1"; "memories"; "...yaml"] = None /\
  snd (get_chat_history n w) = Ret "interactions: []" /\
  snd (get_chat_history n w') = Ret "" /\
  snd (get_chat_history n w') <> snd (get_chat_history n w).
Proof.
  intros n w w'.
  split; [| split; [| split; [| split; [| split; [| split]]]]];
    try (vm_compute; reflexivity).
  vm_compute. discriminate.
Qed.

(** C9, the amended claim at [Bot1] with a log and a memories folder holding
    one file. *)
Lemma wipe_agent_memories_keeps_log_Bot1 :
  let w := app "Bot1" []
             [(["agents"], Dir); (["agents"; "Bot1.yaml"], File "interactions: []");
              (["agents"; "Bot1"], Dir); (["agents"; "Bot1"; "memories"], Dir);
              (["agents"; "Bot1"; "memories"; "index.bin"], File "0")] in
  exists w',
    fst (wipe_agent_memories "Bot1" w) = w' /\
    (forall l, ~ memories_folder "/app" "Bot1" `prefix_of` l ->
               disk w' !! l = disk w !! l) /\
    (disk w !! memories_folder "/app" "Bot1" = Some Dir ->
     forall l, memories_folder "/app" "Bot1" `prefix_of` l -> disk w' !! l = None) /\
    disk w' !! log_file "/app" "Bot1" = disk w !! log_file "/app" "Bot1" /\
    snd (get_chat_history "Bot1" w') = snd (get_chat_history "Bot1" w).
Proof.
  intros w. apply (wipe_agent_memories_keeps_log "Bot1" w). reflexivity.
Defined.

(** C10 at [Bot1], which has no log. *)
Lemma get_chat_history_missing_Bot1 :
  get_chat_history "Bot1" (empty_app "Bot1") = (empty_app "Bot1", Ret "").
Proof.
  apply (get_chat_history_missing "Bot1" (empty_app "Bot1")). vm_compute. reflexivity.
Defined.

End Closed.

(* ===================================================================== *)
(** * What a call can change in the store *)
(* ===================================================================== *)

Module FrameFacts.
Import OsPath OsPathFacts Layout LayoutFacts StoreFacts TreeFacts.

Lemma elem_of_inits (q l : location) : q ∈ Os.inits l <-> q `prefix_of` l.
Proof.
  revert q. induction l as [|c l IH]; intros q; simpl.
  - rewrite list_elem_of_singleton. split.
    + intros ->. reflexivity.
    + apply prefix_nil_inv.
  - rewrite elem_of_cons, list_elem_of_fmap. split.
    + intros [-> | (q' & -> & Hq)]; [apply prefix_nil |].
      apply prefix_cons, IH, Hq.
    + destruct q as [|a q]; [now left |]. intros Hp. right.
      pose proof (prefix_cons_inv_1 _ _ _ _ Hp) as ->.
      apply prefix_cons_inv_2 in Hp. exists q. split; [reflexivity | now apply IH].
Qed.

Lemma insert_dirs_lookup (d : gmap (list string) node) (qs : list location) (q : location) :
  fold_right (fun q m => <[q := Dir]> m) d qs !! q
  = if bool_decide (q ∈ qs) then Some Dir else d !! q.
Proof.
  induction qs as [|a qs IH]; simpl.
  - reflexivity.
  - destruct (decide (a = q)) as [-> | Hne].
    + rewrite lookup_insert_eq, bool_decide_eq_true_2; [reflexivity | left].
    + rewrite lookup_insert_ne, IH by assumption.
      apply (f_equal (fun b : bool => if b then Some Dir else d !! q)).
      apply bool_decide_ext. rewrite elem_of_cons. intuition congruence.
Qed.

Lemma mkdirs_lookup (d : gmap (list string) node) (l q : location) :
  Os.mkdirs d l !! q = if bool_decide (q `prefix_of` l) then Some Dir else d !! q.
Proof.
  unfold Os.mkdirs. rewrite insert_dirs_lookup.
  apply (f_equal (fun b : bool => if b then Some Dir else d !! q)).
  apply bool_decide_ext, elem_of_inits.
Qed.

Lemma makedirs_ret (p : string) (w w' : world) (u : unit) :
  Os.makedirs p w = (w', Ret u) ->
  w' = set_disk (Os.mkdirs (disk w) (resolve (cwd w) p)) w /\
  disk w !! resolve (cwd w) p = None /\
  existsb (Os.is_file (disk w)) (Os.inits (resolve (cwd w) p)) = false.
Proof.
  unfold Os.makedirs. rewrite bind_run. simpl.
  destruct (disk w !! resolve (cwd w) p); [discriminate |].
  destruct (existsb _ _); [discriminate |].
  intros [= <-]. auto.
Qed.

(** What [os.makedirs] creates is a directory, and what was in the store
    stays as it was. *)
Lemma makedirs_grows (p : string) (w w' : world) (u : unit) :
  Os.makedirs p w = (w', Ret u) ->
  disk w' !! resolve (cwd w) p = Some Dir /\
  forall l x, disk w !! l = Some x -> disk w' !! l = Some x.
Proof.
  intros Hrun. apply makedirs_ret in Hrun as (-> & Hnone & Hfiles).
  cbn [disk set_disk]. split.
  - rewrite mkdirs_lookup, bool_decide_eq_true_2; reflexivity.
  - intros l x Hl. rewrite mkdirs_lookup.
    destruct (bool_decide (l `prefix_of` resolve (cwd w) p)) eqn:E; [| exact Hl].
    apply bool_decide_eq_true_1, elem_of_inits in E.
    destruct x as [data|]; [| reflexivity].
    assert (existsb (Os.is_file (disk w)) (Os.inits (resolve (cwd w) p)) = true) as Ht.
    { apply existsb_exists. exists l. split; [now apply list_elem_of_In |].
      unfold Os.is_file. now rewrite Hl. }
    congruence.
Qed.

(** A call is confined to the locations [P] when it leaves every other
    entry of the store as it was, however it ends. *)
Definition confined {A} (m : M A) (P : string -> location -> Prop) : Prop :=
  forall w l, ~ P (cwd w) l -> disk (fst (m w)) !! l = disk w !! l.

Lemma confined_weaken {A} (m : M A) (P Q : string -> location -> Prop) :
  (forall c l, P c l -> Q c l) -> confined m P -> confined m Q.
Proof. intros HPQ Hm w l Hl. apply Hm. intros HP. apply Hl, HPQ, HP. Qed.

Lemma confined_ret {A} (a : A) P : confined (mret a : M A) P.
Proof. intros w l _. reflexivity. Qed.

Lemma confined_raise {A} (e : exn) P : confined (raise e : M A) P.
Proof. intros w l _. reflexivity. Qed.

Lemma confined_bind {A B} (m : M A) (f : A -> M B) P :
  straight m -> confined m P -> (forall a, confined (f a) P) -> confined (m ≫= f) P.
Proof.
  intros Hs Hm Hf w l Hl. rewrite bind_run.
  pose proof (Hs w) as [(Hc & _) _]. pose proof (Hm w l Hl) as Hd.
  destruct (m w) as [w1 [a| e |]]; simpl in *; try exact Hd.
  rewrite <- Hd. apply Hf. now rewrite Hc.
Qed.

Lemma confined_when (c : bool) (m : M unit) P : confined m P -> confined (when c m) P.
Proof. destruct c; [auto | intros _; apply confined_ret]. Qed.

Lemma confined_path_exists p P : confined (Os.path_exists p) P.
Proof. intros w l _. reflexivity. Qed.

Lemma confined_path_abspath p P : confined (Os.path_abspath p) P.
Proof. intros w l _. reflexivity. Qed.

Lemma confined_read_text p P : confined (Os.read_text p) P.
Proof.
  intros w l _. unfold Os.read_text. rewrite bind_run. simpl.
  now destruct (disk w !! _) as [[?|]|].
Qed.

Lemma confined_makedirs p :
  confined (Os.makedirs p) (fun c l => l `prefix_of` resolve c p).
Proof.
  intros w l Hl. unfold Os.makedirs. rewrite bind_run. simpl.
  destruct (disk w !! resolve (cwd w) p); [reflexivity |].
  destruct (existsb _ _); [reflexivity |]. simpl.
  now rewrite mkdirs_lookup, bool_decide_eq_false_2.
Qed.

Lemma confined_write_text p data :
  confined (Os.write_text p data) (fun c l => l = resolve c p).
Proof.
  intros w l Hl. unfold Os.write_text. rewrite bind_run. simpl.
  destruct (disk w !! resolve (cwd w) p) as [[?|]|]; simpl;
    rewrite ?lookup_insert_ne by congruence; try reflexivity.
  destruct (resolve (cwd w) p) eqn:E; [reflexivity |]. rewrite <- E.
  destruct (disk w !! Os.parent _) as [[?|]|]; simpl;
    rewrite ?lookup_insert_ne by congruence; reflexivity.
Qed.

Lemma confined_load_commands P : confined AgentClass.load_commands P.
Proof. intros w l _. now rewrite load_commands_world. Qed.

End FrameFacts.

(* ===================================================================== *)
(** * The command catalog in general *)
(* ===================================================================== *)

Section Catalog.
Import Layout LayoutRest StoreFacts DictFacts FlowFacts AgentClass.

Lemma load_commands_loop_loaded (good : list command_file) :
  forall (objs : list plugin_object) (files : list command_file)
         (commands : list catalog_entry) (w : world),
    map instantiate good = map inr objs ->
    load_commands_loop (good ++ files) commands w
    = load_commands_loop files (commands ++ concat (map object_entries objs)) w.
Proof.
  induction good as [|f good IH]; intros objs files commands w Hobjs.
  - destruct objs; [| discriminate]. simpl. now rewrite app_nil_r.
  - destruct objs as [|o objs]; [discriminate |]. injection Hobjs as Hf Hobjs.
    simpl. rewrite Hf. unfold object_entries at 1.
    destruct (obj_commands o) as [items|].
    + rewrite (IH objs) by assumption. now rewrite append_commands_eq, <- app_assoc.
    + now rewrite (IH objs) by assumption.
Qed.

(** X1. When every module of the plugin directory loads, [load_commands]
    returns the entries of the modules one after the other, in the order
    of the directory, each module's in the order of its [commands]
    mapping; a module without [commands] adds nothing. The world is
    unchanged. *)
Theorem load_commands_all_modules (w : world) (objs : list plugin_object) :
  map instantiate (plugin_dir w) = map inr objs ->
  load_commands w = (w, Ret (concat (map object_entries objs))).
Proof.
  intros Hobjs. unfold load_commands. rewrite bind_run. simpl.
  rewrite <- (app_nil_r (plugin_dir w)).
  now rewrite (load_commands_loop_loaded _ objs).
Qed.

(** X2. When a module fails to import or to instantiate, [load_commands]
    raises the exception of the first such module: the entries of the
    modules before it are lost, and the modules after it are not looked
    at. *)
Theorem load_commands_failing_module (w : world) (good rest : list command_file)
    (bad : command_file) (objs : list plugin_object) (e : exn) :
  plugin_dir w = good ++ bad :: rest ->
  map instantiate good = map inr objs ->
  instantiate bad = inl e ->
  load_commands w = (w, Raise e).
Proof.
  intros Hdir Hobjs Hbad. unfold load_commands. rewrite bind_run. simpl.
  rewrite Hdir, (load_commands_loop_loaded _ objs) by assumption.
  simpl. now rewrite Hbad.
Qed.

Lemma params_fold (ps : list (string * option pyval)) (acc : pydict) :
  NoDup (map fst acc ++ map fst ps) ->
  fold_left
    (fun params p =>
       dict_set (fst p) (match snd p with None => PNone | Some d => d end) params)
    ps acc
  = acc ++ map (fun p => (fst p, match snd p with None => PNone | Some d => d end)) ps.
Proof.
  revert acc. induction ps as [|[k v] ps IH]; intros acc Hnd; simpl.
  - now rewrite app_nil_r.
  - assert (k ∉ map fst acc) as Hk.
    { apply NoDup_app in Hnd as (_ & Hdis & _). intros Hin. apply (Hdis k Hin). left. }
    rewrite dict_set_fresh by assumption.
    rewrite IH.
    + now rewrite <- app_assoc.
    + now rewrite map_app, <- app_assoc.
Qed.

(** X3. For a function whose parameters have distinct names (as every
    Python signature has), [get_command_params] has one key per parameter,
    in the order of the signature, with the default of the parameter, or
    [None] for a parameter without default. *)
Theorem get_command_params_signature (f : func) :
  NoDup (map fst (parameters f)) ->
  get_command_params f
  = map (fun p => (fst p, match snd p with None => PNone | Some d => d end))
        (parameters f).
Proof.
  intros Hnd. unfold get_command_params. now rewrite params_fold.
Qed.

End Catalog.

(* ===================================================================== *)
(** * Creating, resolving and deleting an agent *)
(* ===================================================================== *)

Section Lifecycle.
Import OsPath OsPathFacts Layout LayoutFacts StoreFacts DictFacts TreeFacts FrameFacts.
Import AgentClass.
Context `{JsonLib}.

Lemma when_makedirs_ret (b : bool) (p : string) (w w' : world) (u : unit) :
  when (negb b) (Os.makedirs p) w = (w', Ret u) ->
  b = (match disk w !! resolve (cwd w) p with Some _ => true | None => false end) ->
  same_process w w' /\
  (exists x, disk w' !! resolve (cwd w) p = Some x) /\
  (forall l x, disk w !! l = Some x -> disk w' !! l = Some x).
Proof.
  intros Hrun Hb. split.
  { pose proof (straight_when (negb b) _ (straight_makedirs p) w) as [Hs _].
    now rewrite Hrun in Hs. }
  destruct b; simpl in Hrun.
  - injection Hrun as <-. split; [| auto].
    destruct (disk w !! resolve (cwd w) p) as [x|]; [now exists x | discriminate].
  - apply makedirs_grows in Hrun as [Hdir Hkeep]. split; [now exists Dir | exact Hkeep].
Qed.

(** X4. Whenever [create_agent_folder] returns, for any agent name: it
    returns [agents/<name>]; [agents] and the folder exist in the store;
    and every entry the store had is still there, unchanged. *)
Theorem create_agent_folder_ensures (n : string) (w w' : world) (p : string) :
  create_agent_folder n w = (w', Ret p) ->
  p = "agents/" +:+ n /\
  same_process w w' /\
  (exists x, disk w' !! resolve (cwd w) "agents" = Some x) /\
  (exists x, disk w' !! resolve (cwd w) ("agents/" +:+ n) = Some x) /\
  (forall l x, disk w !! l = Some x -> disk w' !! l = Some x).
Proof.
  unfold create_agent_folder. cbv zeta. intros Hrun.
  apply bind_ret_inv in Hrun as (w1 & b1 & H1 & Hrun).
  rewrite path_exists_run in H1. injection H1 as <- Hb1.
  apply bind_ret_inv in Hrun as (w2 & u2 & H2 & Hrun).
  apply when_makedirs_ret in H2 as (Hs2 & [x2 Hx2] & Hk2); [| now symmetry].
  apply bind_ret_inv in Hrun as (w3 & b3 & H3 & Hrun).
  rewrite path_exists_run in H3. injection H3 as <- Hb3.
  apply bind_ret_inv in Hrun as (w4 & u4 & H4 & Hrun).
  apply when_makedirs_ret in H4 as (Hs4 & [x4 Hx4] & Hk4); [| now symmetry].
  injection Hrun as <- <-.
  destruct Hs2 as (Hc2 & Hp2 & Ht2).
  rewrite Hc2 in Hx4.
  split; [reflexivity |]. split.
  { eapply same_process_trans; [| exact Hs4]. repeat split; assumption. }
  split; [exists x2; now apply Hk4 |]. split; [now exists x4 |].
  intros l x Hl. now apply Hk4, Hk2.
Qed.

(** X5. Whenever [create_agent_config_file] returns, for any agent name:
    the path it returns names a file that reads back, through
    [json.loads], as the document [{"commands": commands, "settings":
    provider_settings}]. *)
Theorem create_agent_config_file_reads_back (n : string) (ps : pyval) (cs : pydict)
    (w w' : world) (p : string) :
  wf (PDict [("commands", PDict cs); ("settings", ps)]) = true ->
  create_agent_config_file n ps cs w = (w', Ret p) ->
  exists text,
    Os.read_text p w' = (w', Ret text) /\
    json_loads text = Some (PDict [("commands", PDict cs); ("settings", ps)]).
Proof.
  intros Hwf Hrun. unfold create_agent_config_file in Hrun. cbv zeta in Hrun.
  apply bind_ret_inv in Hrun as (w1 & b1 & H1 & Hrun).
  rewrite path_exists_run in H1. injection H1 as <- Hb1.
  apply bind_ret_inv in Hrun as (w2 & u2 & H2 & Hrun).
  apply when_makedirs_ret in H2 as ((Hc2 & _) & _ & _); [| now symmetry].
  apply bind_ret_inv in Hrun as (w3 & u3 & H3 & Hrun).
  injection Hrun as <- <-.
  apply write_text_ret in H3. subst w3.
  eexists. split.
  - apply read_text_file. cbn [cwd disk set_disk]. apply lookup_insert_eq.
  - rewrite json_loads_newlines. now apply json_loads_dumps.
Qed.

Lemma wf_config (cmds : list catalog_entry) (ps : pyval) :
  wf ps = true ->
  wf (PDict [("commands", PDict (command_dict_of cmds)); ("settings", ps)]) = true.
Proof.
  intros Hps. pose proof (wf_command_dict cmds) as Hc.
  change (wf (PDict (command_dict_of cmds)) && (wf ps && true) = true).
  now rewrite Hc, Hps.
Qed.

(** The pass of the loop of [get_agent_config] over a file that holds a
    dumped document. *)
Lemma body_dumped (w : world) (doc : pyval) :
  plain (AGENT_NAME (this w)) = true ->
  wf doc = true ->
  disk w !! config_file (cwd w) (AGENT_NAME (this w)) = Some (File (json_dumps doc)) ->
  forall fuel, 1 <= fuel -> get_agent_config fuel w = (w, Ret doc).
Proof.
  intros Hn Hwf Hd [|fuel] Hfuel; [lia |].
  rewrite get_agent_config_step, body_run, Hd, json_dumps_strip by assumption.
  now rewrite json_dumps_nonempty, json_loads_dumps by assumption.
Qed.

(** X6. [add_agent] and then [get_agent_config], for the agent of the
    object, with a plain name: whenever [add_agent] returns, it returns
    [{"agent_file": "<name>.yaml"}], and resolving the configuration then
    returns, in one pass and without writing, the document with every
    catalog command set to [False] and with exactly the settings
    [add_agent] was given; whatever configuration the agent had is
    replaced. *)
Theorem add_agent_then_get_agent_config (ps v : pyval) (w w' : world) :
  plain (AGENT_NAME (this w)) = true ->
  wf ps = true ->
  add_agent (AGENT_NAME (this w)) ps w = (w', Ret v) ->
  v = PDict [("agent_file", PStr (AGENT_NAME (this w) +:+ ".yaml"))] /\
  exists commands_list,
    snd (load_commands w) = Ret commands_list /\
    forall fuel, 1 <= fuel ->
      get_agent_config fuel w'
      = (w', Ret (PDict [("commands", PDict (command_dict_of commands_list));
                         ("settings", ps)])).
Proof.
  intros Hn Hps Hadd. split.
  { unfold add_agent in Hadd.
    apply bind_ret_inv in Hadd as (w1 & a1 & _ & Hadd).
    apply bind_ret_inv in Hadd as (w2 & a2 & _ & Hadd).
    apply bind_ret_inv in Hadd as (w3 & a3 & _ & Hadd).
    now injection Hadd as _ <-. }
  apply add_agent_ret in Hadd as ((Hc & _ & Ht) & cmds & Hcmds & Hfile).
  exists cmds. split; [exact Hcmds |].
  rewrite join_config_file, resolve_config_file in Hfile by assumption.
  apply body_dumped.
  - now rewrite Ht.
  - now apply wf_config.
  - now rewrite Hc, Ht.
Qed.

Lemma prefix_config_file (c n : string) (l : location) :
  l `prefix_of` agents_dir c \/ l `prefix_of` agent_folder c n \/ l = config_file c n ->
  l `prefix_of` config_file c n.
Proof.
  unfold agent_folder, config_file.
  intros [Hl | [Hl | ->]]; [| | reflexivity].
  - etransitivity; [exact Hl |]. now apply prefix_app_r.
  - etransitivity; [exact Hl |].
    change [n; "config.json"] with ([n] ++ ["config.json"]). rewrite app_assoc.
    now apply prefix_app_r.
Qed.

Lemma confined_add_agent (n : string) (ps : pyval) :
  plain n = true ->
  confined (add_agent n ps) (fun c l => l `prefix_of` config_file c n).
Proof.
  intros Hn. unfold add_agent.
  apply confined_bind; [apply straight_create_agent_folder | |].
  { unfold create_agent_folder. cbv zeta.
    apply confined_bind; [auto with straight | apply confined_path_exists |].
    intros b. apply confined_bind.
    - apply straight_when. auto with straight.
    - apply confined_when. eapply confined_weaken; [| apply confined_makedirs].
      intros c l Hl. cbv beta in Hl. apply prefix_config_file. now left.
    - intros _. apply confined_bind; [auto with straight | apply confined_path_exists |].
      intros b'. apply confined_bind.
      + apply straight_when. auto with straight.
      + apply confined_when. eapply confined_weaken; [| apply confined_makedirs].
        intros c l Hl. cbv beta in Hl. apply prefix_config_file. right. left.
        now rewrite resolve_agent_folder in Hl.
      + intros _. apply confined_ret. }
  intros _. apply confined_bind; [apply straight_load_commands | apply confined_load_commands |].
  intros cmds. cbv zeta. apply confined_bind; [apply straight_create_agent_config_file | |].
  { unfold create_agent_config_file. cbv zeta.
    apply confined_bind; [auto with straight | apply confined_path_exists |].
    intros b. apply confined_bind.
    - apply straight_when. auto with straight.
    - apply confined_when. eapply confined_weaken; [| apply confined_makedirs].
      intros c l Hl. cbv beta in Hl. apply prefix_config_file. right. left.
      now rewrite join_agents, resolve_agent_folder in Hl.
    - intros _. apply confined_bind; [auto with straight | | intros; apply confined_ret].
      eapply confined_weaken; [| apply confined_write_text].
      intros c l Hl. cbv beta in Hl. apply prefix_config_file. right. right.
      now rewrite join_config_file, resolve_config_file in Hl. }
  intros _. apply confined_ret.
Qed.

(** X7. [add_agent] for a plain name, however it ends, changes nothing in
    the store but entries on the way from the root to
    [agents/<name>/config.json]: the files of other agents, the
    interaction log [agents/<name>.yaml] and everything else in the folder
    of the agent are as they were. *)
Theorem add_agent_writes_only_config_path (n : string) (ps : pyval) (w : world) :
  plain n = true ->
  (forall l, ~ l `prefix_of` config_file (cwd w) n ->
     disk (fst (add_agent n ps w)) !! l = disk w !! l) /\
  ~ log_file (cwd w) n `prefix_of` config_file (cwd w) n /\
  (forall n' l, n' <> n -> agent_folder (cwd w) n' `prefix_of` l ->
     ~ l `prefix_of` config_file (cwd w) n).
Proof.
  intros Hn. split; [| split].
  - intros l Hl. now apply (confined_add_agent n ps Hn w l).
  - unfold log_file, config_file. intros [k Hk].
    rewrite <- app_assoc in Hk. apply app_inv_head in Hk.
    injection Hk as Hk _. apply (f_equal String.length) in Hk.
    rewrite length_append in Hk. simpl in Hk. lia.
  - unfold agent_folder, config_file. intros n' l Hne [k ->] [k' Hk].
    rewrite <- !app_assoc in Hk. apply app_inv_head in Hk.
    injection Hk as Hk _. congruence.
Qed.

End Lifecycle.

Section Removal.
Import OsPath OsPathFacts Layout LayoutFacts StoreFacts DictFacts TreeFacts FrameFacts.
Import AgentClass.
Context `{JsonLib}.

Lemma log_file_not_below_folder (c n : string) :
  ~ agent_folder c n `prefix_of` log_file c n.
Proof.
  unfold agent_folder, log_file. intros [k Hk].
  rewrite <- app_assoc in Hk. apply app_inv_head in Hk.
  injection Hk as Hk _. apply (f_equal String.length) in Hk.
  rewrite length_append in Hk. simpl in Hk. lia.
Qed.

Lemma rmtree_dir (p : string) (w : world) :
  disk w !! resolve (cwd w) p = Some Dir ->
  Os.rmtree p w
  = (set_disk (filter (fun kv => ~ resolve (cwd w) p `prefix_of` fst kv) (disk w)) w, Ret tt).
Proof. intros Hd. unfold Os.rmtree. rewrite bind_run. simpl. now rewrite Hd. Qed.

(** [os.makedirs] creates directories only. *)
Lemma when_makedirs_files (b : bool) (p : string) (w w' : world) (u : unit) :
  when b (Os.makedirs p) w = (w', Ret u) ->
  forall l, Os.is_file (disk w') l = Os.is_file (disk w) l.
Proof.
  intros Hrun l. destruct b; simpl in Hrun; [| now injection Hrun as <-].
  apply makedirs_ret in Hrun as (-> & _ & Hfiles).
  unfold Os.is_file at 1. cbn [disk set_disk]. rewrite mkdirs_lookup.
  destruct (bool_decide (l `prefix_of` resolve (cwd w) p)) eqn:E; [| reflexivity].
  apply bool_decide_eq_true_1, elem_of_inits in E.
  destruct (Os.is_file (disk w) l) eqn:Hl; [| reflexivity].
  assert (existsb (Os.is_file (disk w)) (Os.inits (resolve (cwd w) p)) = true) as Ht.
  { apply existsb_exists. exists l. split; [now apply list_elem_of_In | exact Hl]. }
  congruence.
Qed.

(** The one regular file that [add_agent] writes is the configuration
    file. *)
Lemma add_agent_files (n : string) (ps v : pyval) (w w' : world) :
  add_agent n ps w = (w', Ret v) ->
  forall l, l <> resolve (cwd w) (join (join "agents" n) "config.json") ->
    Os.is_file (disk w') l = Os.is_file (disk w) l.
Proof.
  intros Hrun l Hl. unfold add_agent in Hrun.
  apply bind_ret_inv in Hrun as (w1 & folder & H1 & Hrun).
  apply bind_ret_inv in Hrun as (w2 & cmds & H2 & Hrun).
  apply bind_ret_inv in Hrun as (w3 & file & H3 & Hrun).
  injection Hrun as <- _.
  pose proof (straight_create_agent_folder n w) as [(Hc1 & _) _].
  rewrite H1 in Hc1. simpl in Hc1.
  pose proof (load_commands_world w1) as Hw2. rewrite H2 in Hw2. simpl in Hw2. subst w2.
  assert (forall q, Os.is_file (disk w1) q = Os.is_file (disk w) q) as Hf1.
  { unfold create_agent_folder in H1. cbv zeta in H1.
    apply bind_ret_inv in H1 as (wa & ba & Ha & H1).
    rewrite path_exists_run in Ha. injection Ha as <- _.
    apply bind_ret_inv in H1 as (wb & ub & Hb & H1).
    apply bind_ret_inv in H1 as (wc & bc & Hc & H1).
    rewrite path_exists_run in Hc. injection Hc as <- _.
    apply bind_ret_inv in H1 as (wd & ud & Hd & H1).
    injection H1 as <- _. intros q.
    rewrite (when_makedirs_files _ _ _ _ _ Hd q).
    apply (when_makedirs_files _ _ _ _ _ Hb q). }
  unfold create_agent_config_file in H3. cbv zeta in H3.
  apply bind_ret_inv in H3 as (w4 & b & H4 & H3).
  rewrite path_exists_run in H4. injection H4 as <- _.
  apply bind_ret_inv in H3 as (w5 & u & H5 & H3).
  apply bind_ret_inv in H3 as (w6 & u' & H6 & H3).
  injection H3 as <- _.
  assert (cwd w5 = cwd w) as Hc5.
  { pose proof (straight_when (negb b) (Os.makedirs (join "agents" n))
                  (straight_makedirs _) w1) as [(Hc & _) _].
    rewrite H5 in Hc. simpl in Hc. congruence. }
  apply write_text_ret in H6. subst w6.
  unfold Os.is_file at 1. cbn [disk set_disk].
  rewrite lookup_insert_ne by (rewrite Hc5; congruence).
  fold (Os.is_file (disk w5) l).
  rewrite (when_makedirs_files _ _ _ _ _ H5 l). apply Hf1.
Qed.

(** In a tree, [add_agent] returns only when no regular file stands on the
    way to [agents]: [os.makedirs] would raise. *)
Lemma add_agent_way (n : string) (ps v : pyval) (w w' : world) :
  plain n = true ->
  is_tree (disk w) ->
  add_agent n ps w = (w', Ret v) ->
  existsb (Os.is_file (disk w)) (Os.inits (agents_dir (cwd w))) = false.
Proof.
  intros Hn Ht Hrun. unfold add_agent in Hrun.
  apply bind_ret_inv in Hrun as (w1 & folder & H1 & _).
  unfold create_agent_folder in H1. cbv zeta in H1.
  apply bind_ret_inv in H1 as (wa & ba & Ha & H1).
  rewrite path_exists_run in Ha. injection Ha as <- <-.
  apply bind_ret_inv in H1 as (wb & ub & Hb & H1).
  apply bind_ret_inv in H1 as (wc & bc & Hc & H1).
  rewrite path_exists_run in Hc. injection Hc as <- <-.
  apply bind_ret_inv in H1 as (wd & ud & Hd & _).
  fold (agents_dir (cwd w)) in Hb.
  destruct (disk w !! agents_dir (cwd w)) as [x|] eqn:HA; simpl in Hb.
  - injection Hb as <-. rewrite resolve_agent_folder in Hd by assumption.
    destruct (disk w !! agent_folder (cwd w) n) as [y|] eqn:HF; simpl in Hd.
    + unfold agent_folder in HF. apply tree_parent in HF; [| exact Ht].
      pose proof (tree_inits _ _ Ht HF) as Hall.
      induction Hall as [|q qs Hq Hqs IH]; simpl; [reflexivity |].
      unfold Os.is_file at 1. now rewrite Hq.
    + apply makedirs_ret in Hd as (_ & _ & Hfiles).
      rewrite resolve_agent_folder in Hfiles by assumption.
      unfold agent_folder in Hfiles. rewrite inits_snoc, existsb_app in Hfiles.
      now apply orb_false_elim in Hfiles as [Hf _].
  - now apply makedirs_ret in Hb as (_ & _ & Hfiles).
Qed.

(** [delete_agent] when there is no interaction log and no regular file on
    the way to where it would be. *)
Lemma delete_agent_no_log (n : string) (w : world) :
  plain n = true ->
  disk w !! log_file (cwd w) n = None ->
  existsb (Os.is_file (disk w)) (Os.inits (log_file (cwd w) n)) = false ->
  delete_agent n w =
  (w, Ret (PDict [("message",
                   PStr ("Agent file " +:+ abspath (cwd w) ("agents/" +:+ n +:+ ".yaml")
                         +:+ " not found."))],
           404%Z)).
Proof.
  intros Hn Hd Hway. unfold delete_agent. rewrite bind_run, path_abspath_run.
  rewrite bind_run, path_abspath_run. rewrite bind_run.
  unfold try_except. rewrite bind_run.
  unfold Os.remove. rewrite bind_run. simpl.
  rewrite resolve_abspath, resolve_log_file, Hd by assumption.
  unfold Os.missing. rewrite Hway. reflexivity.
Qed.

(** X8. An agent that was only added cannot be deleted: [add_agent]
    creates the folder and the configuration file but not the interaction
    log [agents/<name>.yaml], so for a plain name without a log, in a
    store that is a tree, [delete_agent] right after [add_agent] answers
    404 and removes nothing; the configuration file is still there. *)
Theorem add_agent_then_delete_agent (n : string) (ps v : pyval) (w w' : world) :
  plain n = true ->
  is_tree (disk w) ->
  disk w !! log_file (cwd w) n = None ->
  add_agent n ps w = (w', Ret v) ->
  delete_agent n w' =
  (w', Ret (PDict [("message",
                    PStr ("Agent file " +:+ abspath (cwd w) ("agents/" +:+ n +:+ ".yaml")
                          +:+ " not found."))],
            404%Z)) /\
  exists text, disk w' !! config_file (cwd w) n = Some (File text).
Proof.
  intros Hn Ht Hlog Hadd.
  assert (existsb (Os.is_file (disk w)) (Os.inits (log_file (cwd w) n)) = false) as Hway.
  { unfold log_file. rewrite inits_snoc, existsb_app.
    rewrite (add_agent_way n ps v w w' Hn Ht Hadd). simpl.
    unfold Os.is_file. fold (log_file (cwd w) n). now rewrite Hlog. }
  pose proof (confined_add_agent n ps Hn w (log_file (cwd w) n)) as Hkeep.
  rewrite Hadd in Hkeep. simpl in Hkeep.
  pose proof (add_agent_files n ps v w w' Hadd) as Hfiles.
  apply add_agent_ret in Hadd as ((Hc & _ & _) & cmds & _ & Hfile).
  rewrite join_config_file, resolve_config_file in Hfile, Hfiles by assumption.
  split; [| eauto].
  rewrite <- Hc. apply delete_agent_no_log; [exact Hn | |].
  - rewrite Hc, Hkeep; [exact Hlog |].
    unfold log_file, config_file. intros [k Hk].
    rewrite <- app_assoc in Hk. apply app_inv_head in Hk.
    injection Hk as Hk _. apply (f_equal String.length) in Hk.
    rewrite length_append in Hk. simpl in Hk. lia.
  - rewrite Hc.
    destruct (existsb (Os.is_file (disk w')) (Os.inits (log_file (cwd w) n))) eqn:E;
      [| reflexivity].
    apply existsb_exists in E as (l & Hin & Hl).
    rewrite Hfiles in Hl.
    + rewrite <- Hway. symmetry. apply existsb_exists. now exists l.
    + intros ->. apply list_elem_of_In, elem_of_inits in Hin.
      apply prefix_length in Hin. unfold log_file, config_file in Hin.
      rewrite !length_app in Hin. simpl in Hin. lia.
Qed.

(** X9. [delete_agent] for a plain name whose interaction log is a file
    and whose folder is a directory or absent: it returns the message
    [Agent <name> deleted.] with 200; afterwards the log is gone, and so is
    the folder with everything below it; every other entry of the store is
    as it was. *)
Theorem delete_agent_removes (n data : string) (w : world) :
  plain n = true ->
  disk w !! log_file (cwd w) n = Some (File data) ->
  Os.is_file (disk w) (agent_folder (cwd w) n) = false ->
  exists w',
    delete_agent n w
    = (w', Ret (PDict [("message", PStr ("Agent " +:+ n +:+ " deleted."))], 200%Z)) /\
    same_process w w' /\
    disk w' !! log_file (cwd w) n = None /\
    disk w' !! agent_folder (cwd w) n = None /\
    (disk w !! agent_folder (cwd w) n = Some Dir ->
     forall l, agent_folder (cwd w) n `prefix_of` l -> disk w' !! l = None) /\
    (forall l, l <> log_file (cwd w) n -> ~ agent_folder (cwd w) n `prefix_of` l ->
       disk w' !! l = disk w !! l).
Proof.
  intros Hn Hlog Hfolder.
  set (w1 := set_disk (delete (log_file (cwd w) n) (disk w)) w).
  assert (log_file (cwd w) n <> agent_folder (cwd w) n) as Hne.
  { intros E. apply (log_file_not_below_folder (cwd w) n). now rewrite E. }
  assert (disk w1 !! agent_folder (cwd w) n = disk w !! agent_folder (cwd w) n) as Hf1.
  { unfold w1. cbn [disk set_disk]. now rewrite lookup_delete_ne. }
  unfold delete_agent. rewrite bind_run, path_abspath_run. cbv iota beta.
  rewrite bind_run, path_abspath_run. cbv iota beta. rewrite bind_run.
  assert (try_except
            (Os.remove (abspath (cwd w) ("agents/" +:+ n +:+ ".yaml"));; mret None)
            FileNotFoundError
            (mret (Some (PDict [("message",
                                 PStr ("Agent file "
                                       +:+ abspath (cwd w) ("agents/" +:+ n +:+ ".yaml")
                                       +:+ " not found."))],
                         404%Z))) w
          = (w1, Ret None)) as ->.
  { unfold try_except. rewrite bind_run. unfold Os.remove. rewrite bind_run. simpl.
    rewrite resolve_abspath, resolve_log_file, Hlog by assumption. reflexivity. }
  cbv iota beta. rewrite bind_run, path_exists_run. cbv iota beta.
  change (cwd w1) with (cwd w).
  rewrite resolve_abspath, resolve_agent_folder_slash, Hf1 by assumption.
  unfold Os.is_file in Hfolder.
  destruct (disk w !! agent_folder (cwd w) n) as [[?|]|] eqn:Hd; [discriminate | |].
  - rewrite bind_run.
    destruct (rmtree_run (abspath (cwd w) ("agents/" +:+ n +:+ "/")) w1)
      as (w' & Hw & Hsame & Hkeep & Hgone).
    change (cwd w1) with (cwd w) in Hkeep, Hgone.
    rewrite resolve_abspath, resolve_agent_folder_slash in Hkeep, Hgone by assumption.
    rewrite Hf1 in Hgone. specialize (Hgone eq_refl).
    change (when true ?m) with m.
    assert (exists u, Os.rmtree (abspath (cwd w) ("agents/" +:+ n +:+ "/")) w1 = (w', Ret u))
      as [u Hrm].
    { pose proof (rmtree_dir (abspath (cwd w) ("agents/" +:+ n +:+ "/")) w1) as Hdir.
      change (cwd w1) with (cwd w) in Hdir.
      rewrite resolve_abspath, resolve_agent_folder_slash in Hdir by assumption.
      specialize (Hdir Hf1). rewrite Hdir in Hw. cbn [fst] in Hw. rewrite <- Hw.
      now exists tt. }
    rewrite Hrm. cbv iota beta.
    exists w'. split; [reflexivity |]. split.
    { eapply same_process_trans; [| exact Hsame]. repeat split. }
    split.
    { rewrite Hkeep by apply log_file_not_below_folder.
      unfold w1. cbn [disk set_disk]. apply lookup_delete_eq. }
    split; [now apply Hgone |]. split; [intros _; exact Hgone |].
    intros l Hl Hout. rewrite Hkeep by assumption.
    unfold w1. cbn [disk set_disk]. now rewrite lookup_delete_ne.
  - rewrite bind_run. change (when false ?m w1) with (w1, Ret tt). cbv iota beta.
    exists w1. split; [reflexivity |]. split; [repeat split |].
    split; [unfold w1; cbn [disk set_disk]; apply lookup_delete_eq |].
    split; [exact Hf1 |]. split; [discriminate |].
    intros l Hl _. unfold w1. cbn [disk set_disk]. now rewrite lookup_delete_ne.
Qed.

Lemma body_break_world (w w1 : world) (c : pyval) :
  plain (AGENT_NAME (this w)) = true ->
  get_agent_config_body w = (w1, Ret (Break c)) -> w1 = w.
Proof.
  intros Hn. rewrite body_run by assumption.
  assert (forall m : M pyval, (m;; mret Continue) w <> (w1, Ret (Break c))) as Hno.
  { intros m Hr. apply bind_ret_inv in Hr as (w2 & a & _ & Hr). discriminate. }
  destruct (disk w !! _) as [[content|]|]; [| discriminate | intros Hr; now apply Hno in Hr].
  destruct (nonempty (strip content)); [| intros Hr; now apply Hno in Hr].
  destruct (json_loads (strip content)); [| discriminate].
  now intros [= <- _].
Qed.

(** X10. Once [get_agent_config] has returned, for an agent with a plain
    name, the next call returns the same document in one pass and without
    writing: a resolution succeeds on the very next call with the same
    content, whether the first call regenerated the file or not. *)
Theorem get_agent_config_again (fuel : nat) (w w' : world) (agent_config : pyval) :
  plain (AGENT_NAME (this w)) = true ->
  get_agent_config fuel w = (w', Ret agent_config) ->
  forall fuel', 1 <= fuel' -> get_agent_config fuel' w' = (w', Ret agent_config).
Proof.
  intros Hn Hrun [|fuel'] Hfuel; [lia |].
  destruct fuel as [|fuel]; [discriminate |].
  rewrite get_agent_config_step in Hrun.
  destruct (get_agent_config_body w) as [w1 [[c|]|e|]] eqn:Hbody; try discriminate.
  - injection Hrun as <- <-.
    pose proof (body_break_world _ _ _ Hn Hbody) as ->.
    now rewrite get_agent_config_step, Hbody.
  - destruct (body_after_continue _ _ Hn Hbody) as (_ & cmds & _ & _ & Hnext).
    destruct fuel as [|fuel]; [discriminate |].
    rewrite get_agent_config_step, Hnext in Hrun. injection Hrun as <- <-.
    now rewrite get_agent_config_step, Hnext.
Qed.

End Removal.

(* ===================================================================== *)
(** * More on [update_agent_config] and on the memory store *)
(* ===================================================================== *)

Section Settings.
Import OsPath OsPathFacts Layout LayoutFacts StoreFacts DictFacts TreeFacts FrameFacts.
Import FlowFacts AgentClass.
Context `{JsonLib} `{YamlLib}.







(** X13. [update_agent_config] and then [get_agent_config], for an agent
    with a plain name whose configuration file holds an object document:
    the resolution returns, in one pass and without writing, the document
    with [settings] updated and every other key as it was. *)
Theorem update_agent_config_then_get (w : world) (text : string) (cfg dflt s : pydict) :
  plain (AGENT_NAME (this w)) = true ->
  disk w !! config_file (cwd w) (AGENT_NAME (this w)) = Some (File text) ->
  json_loads text = Some (PDict cfg) ->
  settings_before cfg dflt ->
  wf (PDict s) = true ->
  exists w1 cfg1,
    update_agent_config s w
      = (w1, Ret ("Agent " +:+ AGENT_NAME (this w) +:+ " configuration updated.")) /\
    (forall fuel, 1 <= fuel -> get_agent_config fuel w1 = (w1, Ret (PDict cfg1))) /\
    dict_get "settings" cfg1 = Some (PDict (dict_update dflt s)) /\
    (forall k, k <> "settings" -> dict_get k cfg1 = dict_get k cfg).
Proof.
  intros Hn Hd Hl Hs Hwfs.
  pose proof (json_loads_wf _ _ Hl) as Hcfg.
  assert (wf (PDict dflt) = true) as Hdflt.
  { destruct Hs as [Hs | [_ ->]]; [exact (wf_get _ _ _ Hcfg Hs) | reflexivity]. }
  rewrite wf_dict in Hwfs. apply andb_true_iff in Hwfs as [Hk Hi].
  set (cfg1 := dict_set "settings" (PDict (dict_update dflt s)) cfg).
  assert (wf (PDict cfg1) = true) as Hcfg1.
  { apply wf_set; [now apply wf_update | exact Hcfg]. }
  rewrite <- resolve_config_file, <- join_config_file in Hd by assumption.
  pose proof (update_agent_config_run w text cfg dflt s Hd Hl Hs) as Hrun1.
  fold cfg1 in Hrun1. set (w1 := set_disk _ w) in Hrun1.
  exists w1, cfg1. split; [exact Hrun1 |]. split; [| split].
  - apply body_dumped; [exact Hn | exact Hcfg1 |].
    unfold w1. cbn [cwd disk this set_disk].
    rewrite join_config_file, resolve_config_file by assumption.
    apply lookup_insert_eq.
  - apply dict_get_set_eq.
  - intros k Hne. unfold cfg1. now rewrite dict_get_set_ne by congruence.
Qed.


(** X15. [log_interaction] on a memory that is not a document with an
    [interactions] list: without the key it raises [KeyError], on a value
    that is not a dictionary [TypeError], and when [interactions] is not a
    list [AttributeError]. Nothing is appended and the memory file is not
    written. *)
Theorem log_interaction_bad_memory (w : world) (role message : string) :
  (forall d, memory (this w) = PDict d -> dict_get "interactions" d = None ->
     log_interaction role message w = (w, Raise KeyError)) /\
  ((forall d, memory (this w) <> PDict d) ->
     log_interaction role message w = (w, Raise TypeError)) /\
  (forall d x, memory (this w) = PDict d -> dict_get "interactions" d = Some x ->
     (forall l, x <> PList l) ->
     log_interaction role message w = (w, Raise AttributeError)).
Proof.
  unfold log_interaction, append_interaction.
  rewrite bind_run, bind_run. change (self w) with (w, Ret (this w)). cbv iota beta.
  split; [| split].
  - intros d -> ->. reflexivity.
  - intros Hnot. destruct (memory (this w)); try reflexivity. now contradiction (Hnot d).
  - intros d x -> -> Hnot. destruct x; try reflexivity. now contradiction (Hnot l).
Qed.

(** X16. [log_interaction] and then [get_chat_history]: for an object
    whose memory file is [agents/<name>.yaml] with a plain name and whose
    memory is in agreement with the file, the chat history of [<name>]
    after a logged interaction is the dump of the whole memory, the new
    record last. *)
Theorem log_interaction_then_get_chat_history (w : world) (n : string) (d : pydict)
    (l : list pyval) (role message : string) :
  plain n = true ->
  memory_file (this w) = "agents/" +:+ n +:+ ".yaml" ->
  memory_saved w ->
  memory (this w) = PDict d ->
  dict_get "interactions" d = Some (PList l) ->
  exists w',
    log_interaction role message w = (w', Ret tt) /\
    get_chat_history n w'
    = (w', Ret (yaml_safe_dump
                  (PDict (dict_set "interactions"
                            (PList (l ++ [interaction_record role message])) d)))).
Proof.
  intros Hn Hfile Hs Hm Hi.
  destruct (log_interaction_run w d l role message Hs Hm Hi) as (Hrun & _ & Hd').
  set (m' := PDict (dict_set "interactions" _ d)) in *. set (w' := set_disk _ _) in *.
  exists w'. split; [exact Hrun |].
  assert (memory_location w' = log_file (cwd w') n) as Hloc.
  { unfold memory_location. change (memory_file (this w')) with (memory_file (this w)).
    rewrite Hfile. now apply resolve_log_file. }
  rewrite Hloc in Hd'. change (memory (this w')) with m' in Hd'.
  unfold get_chat_history. rewrite bind_run, path_exists_run.
  rewrite join_log_file, resolve_log_file, Hd' by assumption.
  cbv iota beta. change (negb true) with false. cbv iota.
  rewrite bind_run, (read_text_file _ (yaml_safe_dump m'));
    [now rewrite yaml_dump_newlines |].
  now rewrite resolve_log_file.
Qed.

End Settings.

(* ===================================================================== *)
(** * More facts about paths *)
(* ===================================================================== *)

Module JoinFacts.
Import OsPath OsPathFacts Layout LayoutFacts.

Lemma sep_cons (b : string) : "/" +:+ b = String slash b.
Proof. reflexivity. Qed.

Lemma endswith_slash_split (p : string) :
  endswith_slash p = true -> exists q, p = q +:+ "/".
Proof.
  induction p as [|c p IH]; [discriminate |].
  destruct p as [|c' p'].
  - simpl. intros Hc. apply Ascii.eqb_eq in Hc. subst. now exists "".
  - intros Hp. change (endswith_slash (String c' p') = true) in Hp.
    destruct (IH Hp) as [q Hq]. exists (String c q). now rewrite append_cons, <- Hq.
Qed.

Lemma startswith_slash_app (a b : string) :
  a <> "" -> startswith_slash (a +:+ b) = startswith_slash a.
Proof. destruct a; [congruence | reflexivity]. Qed.

Lemma normalise_snoc_empty (cs : list string) :
  normalise (cs ++ [""]) = normalise cs.
Proof. unfold normalise. now rewrite fold_left_app. Qed.

Lemma normalise_snoc_plain (cs : list string) (c : string) :
  plain c = true -> normalise (cs ++ [c]) = normalise cs ++ [c].
Proof.
  intros Hc. unfold normalise. rewrite fold_left_app. simpl.
  now apply norm_step_clean.
Qed.

(** A plain name joined to a path names the entry of that name in what
    the path names. *)
Lemma resolve_join (cwd p c : string) :
  plain c = true -> resolve cwd (join p c) = resolve cwd p ++ [c].
Proof.
  intros Hc. pose proof (plain_no_slash c Hc) as Hs.
  pose proof (plain_not_abs c Hc) as Habs.
  unfold join. rewrite Habs.
  destruct p as [|x p].
  - change (negb (nonempty "") || endswith_slash "") with true. cbv iota.
    rewrite append_empty_l.
    unfold resolve. rewrite Habs. change (startswith_slash "") with false. cbv iota.
    rewrite !sep_cons, !split_slash_app, (split_slash_plain c) by assumption.
    change (split_slash "") with [""].
    now rewrite normalise_snoc_empty, normalise_snoc_plain.
  - change (negb (nonempty (String x p))) with false.
    change (false || ?b) with b.
    destruct (endswith_slash (String x p)) eqn:He.
    + destruct (endswith_slash_split _ He) as [q Hq]. rewrite Hq.
      unfold resolve.
      rewrite startswith_slash_app by (rewrite <- Hq; discriminate).
      destruct (startswith_slash (q +:+ "/")).
      * rewrite append_assoc, !sep_cons, !split_slash_app, (split_slash_plain c)
          by assumption.
        change (split_slash "") with [""].
        now rewrite normalise_snoc_empty, normalise_snoc_plain.
      * rewrite (append_assoc q), <- !(append_assoc cwd), <- !(append_assoc (cwd +:+ "/")).
        rewrite !sep_cons, !(split_slash_app (_ +:+ q)), (split_slash_plain c)
          by assumption.
        change (split_slash "") with [""].
        now rewrite normalise_snoc_empty, normalise_snoc_plain.
    + unfold resolve.
      rewrite startswith_slash_app by discriminate.
      destruct (startswith_slash (String x p)).
      * rewrite sep_cons, split_slash_app, (split_slash_plain c) by assumption.
        now rewrite normalise_snoc_plain.
      * rewrite <- !(append_assoc cwd), <- !(append_assoc (cwd +:+ "/")).
        rewrite sep_cons, (split_slash_app (_ +:+ String x p)), (split_slash_plain c)
          by assumption.
        now rewrite normalise_snoc_plain.
Qed.

Lemma plain_txt (o : string) : has_slash o = false -> plain (o +:+ ".txt") = true.
Proof.
  intros Hs. apply plain_spec. rewrite has_slash_app, Hs. split; [reflexivity |].
  repeat split; intros E; apply (f_equal String.length) in E;
    rewrite length_append in E; simpl in E; lia.
Qed.

Lemma resolve_join_agents (cwd n : string) :
  plain n = true -> resolve cwd (join "agents" n) = agent_folder cwd n.
Proof. intros Hn. now rewrite resolve_join. Qed.

(** [pathlib]: the parent of the memory file of a plain name. *)
Lemma parent_memory_file (n : string) :
  plain n = true -> PathLib.path_parent ("agents/" +:+ n +:+ ".yaml") = "agents".
Proof.
  intros Hn. pose proof (plain_yaml n Hn) as Hy.
  unfold PathLib.path_parent, PathLib.parts.
  change ("agents/" +:+ n +:+ ".yaml") with ("agents" +:+ String slash (n +:+ ".yaml")).
  rewrite split_slash_app, (split_slash_plain (n +:+ ".yaml")) by now apply plain_no_slash.
  apply plain_spec in Hy as (_ & Hne & Hdot & _).
  apply String.eqb_neq in Hne, Hdot.
  change (split_slash "agents" ++ [n +:+ ".yaml"]) with ["agents"; n +:+ ".yaml"].
  cbn [List.filter]. rewrite Hne, Hdot. reflexivity.
Qed.

End JoinFacts.

(* ===================================================================== *)
(** * Task outputs: [save_task_output] and [get_task_output] *)
(* ===================================================================== *)

Module OsMoreFacts.
Import OsPath OsPathFacts Layout LayoutFacts StoreFacts TreeFacts FrameFacts.

Lemma straight_mkdir_parents p : straight (OsMore.mkdir_parents p).
Proof. unfold OsMore.mkdir_parents. straight. Qed.

Lemma straight_listdir p : straight (OsMore.listdir p).
Proof. unfold OsMore.listdir. straight. Qed.

Lemma straight_append_text p data : straight (OsMore.append_text p data).
Proof. unfold OsMore.append_text. straight. Qed.

Lemma child_name_spec (l k : location) (c : string) :
  OsMore.child_name l k = Some c <-> k = l ++ [c].
Proof.
  unfold OsMore.child_name. split.
  - destruct (drop (length l) k) as [|c' [|? ?]] eqn:Hd; try discriminate.
    destruct (decide (take (length l) k = l)) as [Ht|]; [| discriminate].
    intros [= ->]. now rewrite <- (take_drop (length l) k), Ht, Hd.
  - intros ->. rewrite drop_app_length, take_app_length.
    now destruct (decide (l = l)).
Qed.

Lemma elem_of_children (d : gmap (list string) node) (l : location) (c : string) :
  c ∈ OsMore.children d l <-> is_Some (d !! (l ++ [c])).
Proof.
  unfold OsMore.children. rewrite list_elem_of_omap. split.
  - intros ([k x] & Hin & Hc). apply elem_of_map_to_list in Hin.
    apply child_name_spec in Hc. simpl in Hc. subst k. now exists x.
  - intros [x Hx]. exists (l ++ [c], x). split.
    + now apply elem_of_map_to_list.
    + now apply child_name_spec.
Qed.

Lemma existsb_children (d : gmap (list string) node) (l : location) (c : string) :
  existsb (String.eqb c) (OsMore.children d l)
  = match d !! (l ++ [c]) with Some _ => true | None => false end.
Proof.
  destruct (d !! (l ++ [c])) as [x|] eqn:Hd.
  - apply existsb_exists. exists c. split; [| apply String.eqb_refl].
    apply list_elem_of_In, elem_of_children. now rewrite Hd.
  - apply not_true_iff_false. intros (c' & Hin & E)%existsb_exists.
    apply String.eqb_eq in E. subst c'.
    apply list_elem_of_In, elem_of_children in Hin. rewrite Hd in Hin.
    now destruct Hin.
Qed.

Lemma listdir_dir (p : string) (w : world) :
  disk w !! resolve (cwd w) p = Some Dir ->
  OsMore.listdir p w = (w, Ret (OsMore.children (disk w) (resolve (cwd w) p))).
Proof. intros Hd. unfold OsMore.listdir. rewrite bind_run. simpl. now rewrite Hd. Qed.

Lemma append_text_file (p data old : string) (w : world) :
  disk w !! resolve (cwd w) p = Some (File old) ->
  OsMore.append_text p data w
  = (set_disk (<[resolve (cwd w) p := File (old +:+ data)]> (disk w)) w, Ret tt).
Proof. intros Hd. unfold OsMore.append_text. rewrite bind_run. simpl. now rewrite Hd. Qed.

End OsMoreFacts.

Section Tasks.
Import OsPath OsPathFacts Layout LayoutRest LayoutFacts StoreFacts TreeFacts FrameFacts.
Import JoinFacts OsMoreFacts AgentRest.

Lemma resolve_tasks_folder (c n : string) :
  plain n = true ->
  resolve c (join (join "agents" n) "tasks") = tasks_folder c n.
Proof. intros Hn. now rewrite !resolve_join. Qed.

Lemma resolve_task_file (c n o : string) :
  plain n = true -> has_slash o = false ->
  resolve c (join (join (join "agents" n) "tasks") (o +:+ ".txt")) = task_file c n o.
Proof.
  intros Hn Ho. rewrite !resolve_join by (auto using plain_txt).
  unfold task_file, agent_folder. now rewrite <- !app_assoc.
Qed.

Lemma task_file_snoc (c n o : string) :
  task_file c n o = tasks_folder c n ++ [o +:+ ".txt"].
Proof. unfold task_file, tasks_folder. now rewrite <- app_assoc. Qed.

(** The text kept for an objective: what its file holds, or nothing. *)
Lemma get_task_output_run (n o : string) (w : world) :
  plain n = true -> has_slash o = false ->
  get_task_output n (Some o) w =
  match disk w !! task_file (cwd w) n o with
  | Some (File text) => (w, Ret (newlines text))
  | Some Dir => (w, Raise IsADirectoryError)
  | None => (w, Ret "")
  end.
Proof.
  intros Hn Ho. unfold get_task_output. cbv zeta.
  rewrite bind_run, path_exists_run, resolve_task_file by assumption.
  destruct (disk w !! task_file (cwd w) n o) as [[text|]|] eqn:Hd; cbv iota beta.
  - apply read_text_file. now rewrite resolve_task_file.
  - unfold Os.read_text. rewrite bind_run. simpl.
    now rewrite resolve_task_file, Hd.
  - reflexivity.
Qed.

(** One [save_task_output] when the [tasks] folder is there. *)
Lemma save_task_output_next (n out o u : string) (w : world) :
  plain n = true -> has_slash o = false ->
  disk w !! agent_folder (cwd w) n = Some Dir ->
  disk w !! tasks_folder (cwd w) n = Some Dir ->
  disk w !! task_file (cwd w) n o <> Some Dir ->
  save_task_output n out (Some o) u w =
  (set_disk (<[task_file (cwd w) n o :=
                 File (match disk w !! task_file (cwd w) n o with
                       | Some (File old) => old +:+ out
                       | _ => out
                       end)]> (disk w)) w,
   Ret out).
Proof.
  intros Hn Ho HF HT HX. unfold save_task_output.
  rewrite bind_run, listdir_dir; rewrite resolve_join_agents by assumption; [| exact HF].
  cbv iota beta. rewrite existsb_children. fold (tasks_folder (cwd w) n). rewrite HT.
  rewrite bind_run. change (when (negb true) ?m w) with (w, Ret tt). cbv iota beta zeta.
  rewrite bind_run, path_exists_run, resolve_task_file by assumption.
  destruct (disk w !! task_file (cwd w) n o) as [[old|]|] eqn:Hd; cbv iota beta.
  - rewrite bind_run, (append_text_file _ _ old) by now rewrite resolve_task_file.
    now rewrite resolve_task_file.
  - congruence.
  - rewrite bind_run.
    rewrite (write_text_new _ _ (tasks_folder (cwd w) n) (o +:+ ".txt"));
      rewrite <- ?task_file_snoc; auto.
    now rewrite resolve_task_file.
Qed.

(** The first [save_task_output] of an agent: the [tasks] folder is made. *)
Lemma save_task_output_first (n out o u : string) (w : world) :
  plain n = true -> has_slash o = false ->
  is_tree (disk w) ->
  disk w !! agent_folder (cwd w) n = Some Dir ->
  disk w !! tasks_folder (cwd w) n = None ->
  save_task_output n out (Some o) u w =
  (set_disk (<[task_file (cwd w) n o := File out]>
             (<[tasks_folder (cwd w) n := Dir]> (disk w))) w,
   Ret out).
Proof.
  intros Hn Ho Ht HF HT.
  assert (disk w !! task_file (cwd w) n o = None) as HX.
  { destruct (disk w !! task_file (cwd w) n o) as [x|] eqn:E; [| reflexivity].
    rewrite task_file_snoc in E. apply tree_parent in E; [| exact Ht]. congruence. }
  assert (task_file (cwd w) n o <> tasks_folder (cwd w) n) as Hne.
  { rewrite task_file_snoc. intros E. apply (f_equal (@length string)) in E.
    rewrite length_app in E. simpl in E. lia. }
  unfold save_task_output.
  rewrite bind_run, listdir_dir; rewrite resolve_join_agents by assumption; [| exact HF].
  cbv iota beta. rewrite existsb_children. fold (tasks_folder (cwd w) n). rewrite HT.
  rewrite bind_run. change (when (negb false) ?m) with m.
  rewrite (makedirs_snoc _ (agent_folder (cwd w) n) "tasks");
    [| now apply resolve_tasks_folder | now apply tree_inits | exact HT].
  cbv iota beta zeta. fold (tasks_folder (cwd w) n).
  rewrite bind_run, path_exists_run. cbn [cwd disk set_disk].
  rewrite resolve_task_file, lookup_insert_ne, HX by (assumption || congruence).
  cbv iota beta. rewrite bind_run.
  rewrite (write_text_new _ _ (tasks_folder (cwd w) n) (o +:+ ".txt"));
    cbn [cwd disk set_disk]; rewrite <- ?task_file_snoc.
  - reflexivity.
  - now apply resolve_task_file.
  - apply lookup_insert_eq.
  - now rewrite lookup_insert_ne by congruence.
Qed.

(** One [save_task_output] for an agent that has its folder. *)
Lemma save_task_output_run (n out o u : string) (w : world) :
  plain n = true -> has_slash o = false ->
  is_tree (disk w) ->
  disk w !! agent_folder (cwd w) n = Some Dir ->
  Os.is_file (disk w) (tasks_folder (cwd w) n) = false ->
  disk w !! task_file (cwd w) n o <> Some Dir ->
  save_task_output n out (Some o) u w =
  (set_disk (<[task_file (cwd w) n o :=
                 File (match disk w !! task_file (cwd w) n o with
                       | Some (File old) => old +:+ out
                       | _ => out
                       end)]>
             (<[tasks_folder (cwd w) n := Dir]> (disk w))) w,
   Ret out).
Proof.
  intros Hn Ho Ht HF HT HX. unfold Os.is_file in HT.
  destruct (disk w !! tasks_folder (cwd w) n) as [[?|]|] eqn:HdT; [discriminate | |].
  - rewrite (insert_id (disk w) (tasks_folder (cwd w) n)) by assumption.
    now apply save_task_output_next.
  - rewrite save_task_output_first by assumption.
    destruct (disk w !! task_file (cwd w) n o) as [x|] eqn:E; [| reflexivity].
    rewrite task_file_snoc in E. apply tree_parent in E; [| exact Ht]. congruence.
Qed.

Lemma append_inv_tail (a b c : string) : a +:+ c = b +:+ c -> a = b.
Proof.
  revert b. induction a as [|x a IH]; intros [|y b] E.
  - reflexivity.
  - apply (f_equal String.length) in E. rewrite !length_append in E. simpl in E. lia.
  - apply (f_equal String.length) in E. rewrite !length_append in E. simpl in E. lia.
  - rewrite !append_cons in E. injection E as -> E. f_equal. now apply IH.
Qed.






(** X19. [save_task_output] without an objective keeps the output under
    the identifier drawn in the call. [get_task_output] without an
    objective does not find it: it answers [No primary objective
    specified.]; only the identifier reads the output back (in text mode:
    a carriage return, alone or before a line feed, is read as a line
    feed). *)
Theorem save_task_output_without_objective (n out u : string) (w : world) :
  plain n = true -> has_slash u = false ->
  is_tree (disk w) ->
  disk w !! agent_folder (cwd w) n = Some Dir ->
  Os.is_file (disk w) (tasks_folder (cwd w) n) = false ->
  disk w !! task_file (cwd w) n u = None ->
  exists w',
    save_task_output n out None u w = (w', Ret out) /\
    get_task_output n None w' = (w', Ret "No primary objective specified.") /\
    disk w' !! task_file (cwd w) n u = Some (File out) /\
    get_task_output n (Some u) w' = (w', Ret (newlines out)).
Proof.
  intros Hn Hu Ht HF HT HX.
  pose proof (save_task_output_run n out u u w Hn Hu Ht HF HT) as Hrun.
  rewrite HX in Hrun. specialize (Hrun ltac:(discriminate)).
  set (w' := set_disk _ w) in Hrun.
  exists w'. split; [exact Hrun |]. split; [reflexivity |].
  assert (disk w' !! task_file (cwd w) n u = Some (File out)) as Hnew.
  { unfold w'. cbn [cwd disk set_disk]. apply lookup_insert_eq. }
  split; [exact Hnew |].
  rewrite get_task_output_run by assumption.
  change (cwd w') with (cwd w). now rewrite Hnew.
Qed.

(** X20. [save_task_output] for an agent with a plain name that has no
    folder, [agents] and the directories above it not being regular files:
    [os.listdir] raises [FileNotFoundError], whatever the objective;
    nothing is created, the folder of the agent included. *)
Theorem save_task_output_no_agent (n out u : string) (objective : option string)
    (w : world) :
  plain n = true ->
  disk w !! agent_folder (cwd w) n = None ->
  existsb (Os.is_file (disk w)) (Os.inits (agent_folder (cwd w) n)) = false ->
  save_task_output n out objective u w = (w, Raise FileNotFoundError).
Proof.
  intros Hn HF Hway. unfold save_task_output. rewrite bind_run.
  unfold OsMore.listdir. rewrite bind_run. simpl.
  rewrite resolve_join_agents, HF by assumption.
  unfold Os.missing. now rewrite Hway.
Qed.

End Tasks.

(* ===================================================================== *)
(** * Setting up the memory file, the provider, and [load_agent_config] *)
(* ===================================================================== *)

Section Rest.
Import OsPath OsPathFacts Layout LayoutRest LayoutFacts StoreFacts DictFacts TreeFacts.
Import FrameFacts JoinFacts OsMoreFacts AgentClass AgentRest.
Context `{JsonLib} `{YamlLib}.

(** [Path("agents").mkdir(parents=True, exist_ok=True)] in a tree whose
    working directory exists. *)
Lemma mkdir_parents_agents (w : world) :
  is_tree (disk w) ->
  disk w !! normalise (split_slash (cwd w)) = Some Dir ->
  Os.is_file (disk w) (agents_dir (cwd w)) = false ->
  OsMore.mkdir_parents "agents" w
  = (set_disk (<[agents_dir (cwd w) := Dir]> (disk w)) w, Ret tt).
Proof.
  intros Ht Hcwd Ha. pose proof (tree_inits _ _ Ht Hcwd) as Hbase.
  unfold OsMore.mkdir_parents. rewrite bind_run. simpl.
  fold (agents_dir (cwd w)). unfold Os.is_file in Ha.
  destruct (disk w !! agents_dir (cwd w)) as [[?|]|] eqn:HdA; [discriminate | |].
  - rewrite insert_id by assumption. now destruct w.
  - rewrite agents_dir_eq in *.
    now rewrite no_file_on_the_way, mkdirs_snoc.
Qed.

(** X21. The two statements of [__init__] that set up the memory file,
    [_create_parent_directories(memory_file)] and then [load_memory()],
    for a plain name that has no interaction log yet (in a tree where the
    working directory exists and [agents] is not a regular file): [agents]
    is made when it is missing, the log is created with the dump of
    [{"interactions": []}], and that document is returned. *)
Theorem create_parent_directories_then_load_memory (n : string) (w : world) :
  plain n = true ->
  memory_file (this w) = "agents/" +:+ n +:+ ".yaml" ->
  is_tree (disk w) ->
  disk w !! normalise (split_slash (cwd w)) = Some Dir ->
  Os.is_file (disk w) (agents_dir (cwd w)) = false ->
  disk w !! log_file (cwd w) n = None ->
  (_create_parent_directories (memory_file (this w));; load_memory) w
  = (set_disk (<[log_file (cwd w) n :=
                   File (yaml_safe_dump (PDict [("interactions", PList [])]))]>
               (<[agents_dir (cwd w) := Dir]> (disk w))) w,
     Ret (PDict [("interactions", PList [])])).
Proof.
  intros Hn Hfile Ht Hcwd Ha Hlog.
  assert (log_file (cwd w) n <> agents_dir (cwd w)) as Hne.
  { unfold log_file. intros E. apply (f_equal (@length string)) in E.
    rewrite length_app in E. simpl in E. lia. }
  rewrite bind_run. unfold _create_parent_directories.
  rewrite Hfile, parent_memory_file, mkdir_parents_agents by assumption.
  cbv iota beta. set (w1 := set_disk _ w).
  assert (memory_file (this w1) = "agents/" +:+ n +:+ ".yaml") as Hfile1 by exact Hfile.
  unfold load_memory. rewrite bind_run. change (self w1) with (w1, Ret (this w1)).
  cbv iota beta. rewrite Hfile1.
  rewrite bind_run, path_exists_run. change (cwd w1) with (cwd w).
  rewrite resolve_log_file by assumption.
  assert (disk w1 !! log_file (cwd w) n = None) as Hlog1.
  { unfold w1. cbn [disk set_disk]. now rewrite lookup_insert_ne by congruence. }
  rewrite Hlog1. cbv iota beta. rewrite bind_run.
  rewrite (write_text_new _ _ (agents_dir (cwd w)) (n +:+ ".yaml")).
  - reflexivity.
  - now apply resolve_log_file.
  - unfold w1. cbn [disk set_disk]. apply lookup_insert_eq.
  - exact Hlog1.
Qed.

(** X22. [get_provider] looks for [provider] at the top of the
    configuration document, where [add_agent] puts only [commands] and
    [settings]: after [add_agent] for the agent of the object (a plain
    name), with whatever settings, a provider among them or not,
    [get_provider] returns ["openai"]. *)
Theorem get_provider_after_add_agent (ps v : pyval) (w w' : world) :
  plain (AGENT_NAME (this w)) = true ->
  wf ps = true ->
  add_agent (AGENT_NAME (this w)) ps w = (w', Ret v) ->
  forall fuel, 1 <= fuel -> get_provider fuel w' = (w', Ret (PStr "openai")).
Proof.
  intros Hn Hps Hadd fuel Hfuel.
  apply add_agent_ret in Hadd as ((Hc & _ & Ht) & cmds & Hcmds & Hfile).
  rewrite join_config_file, resolve_config_file in Hfile by assumption.
  unfold get_provider. rewrite bind_run.
  rewrite (body_dumped w' (PDict [("commands", PDict (command_dict_of cmds));
                                  ("settings", ps)])); try assumption.
  - reflexivity.
  - now rewrite Ht.
  - now apply wf_config.
  - now rewrite Hc, Ht.
Qed.

Lemma wf_default_config (cmds : list catalog_entry) : wf (default_config cmds) = true.
Proof.
  unfold default_config.
  assert (wf (PDict (dict_of_items
                       (map (fun c : catalog_entry => (fst (fst c), PStr "false")) cmds)))
          = true) as Hc.
  { unfold dict_of_items. apply wf_update; [reflexivity |].
    unfold wf_items. now induction cmds. }
  change (wf (PDict (dict_of_items
                       (map (fun c : catalog_entry => (fst (fst c), PStr "false")) cmds)))
          && true = true).
  now rewrite Hc.
Qed.

Lemma load_agent_config_try_file (n text : string) (w : world) :
  plain n = true ->
  disk w !! config_file (cwd w) n = Some (File text) ->
  load_agent_config_try n w =
  (w, Ret (match json_loads text with
           | Some data => Returned data
           | None => Excepted (Some (PDict []))
           end)).
Proof.
  intros Hn Hd. unfold load_agent_config_try.
  rewrite (read_text_file _ text)
    by now rewrite join_config_file, resolve_config_file.
  rewrite json_loads_newlines. now destruct (json_loads text).
Qed.

(** The [except:] branch of [load_agent_config] over a file that is there
    or can be created. *)
Lemma load_agent_config_rewrite (n : string) (w : world) (cmds : list catalog_entry)
    (bound : option pyval) :
  plain n = true ->
  (exists old, disk w !! config_file (cwd w) n = Some (File old)) \/
  (disk w !! config_file (cwd w) n = None /\
   disk w !! agent_folder (cwd w) n = Some Dir) ->
  snd (load_commands w) = Ret cmds ->
  (Os.write_text (join (join "agents" n) "config.json") "";;
   commands_list ← load_commands;
   Os.write_text (join (join "agents" n) "config.json")
     (json_dumps (default_config commands_list));;
   match bound return M (other_exn + pyval) with
   | Some data => retX data
   | None => raiseX UnboundLocalError
   end) w
  = (set_disk (<[config_file (cwd w) n := File (json_dumps (default_config cmds))]>
               (disk w)) w,
     Ret (match bound with Some data => inr data | None => inl UnboundLocalError end)).
Proof.
  intros Hn Hd Hcmds. rewrite join_config_file by assumption.
  assert (Os.write_text ("agents/" +:+ n +:+ "/config.json") "" w
          = (set_disk (<[config_file (cwd w) n := File ""]> (disk w)) w, Ret tt)) as Hw1.
  { destruct Hd as [[old Hd] | [Hd Hf]].
    - rewrite (write_text_over _ _ old) by now rewrite resolve_config_file.
      now rewrite resolve_config_file.
    - rewrite (write_text_new _ _ (agent_folder (cwd w) n) "config.json");
        rewrite <- ?config_file_snoc; auto.
      now apply resolve_config_file. }
  rewrite bind_run, Hw1. cbv iota beta. set (w1 := set_disk _ w).
  assert (snd (load_commands w1) = Ret cmds) as Hcmds1
    by now rewrite (load_commands_result w w1).
  rewrite bind_run, (load_commands_run w1 cmds Hcmds1). cbv iota beta.
  rewrite bind_run.
  rewrite (write_text_over _ _ "")
    by (unfold w1; cbn [cwd disk set_disk]; rewrite resolve_config_file by assumption;
        apply lookup_insert_eq).
  cbv iota beta. unfold w1. cbn [cwd disk set_disk].
  rewrite resolve_config_file by assumption. rewrite insert_insert_eq.
  destruct bound; reflexivity.
Qed.

Lemma load_agent_config_dumped (n : string) (doc : pyval) (w : world) :
  plain n = true -> wf doc = true ->
  disk w !! config_file (cwd w) n = Some (File (json_dumps doc)) ->
  load_agent_config n w = (w, Ret (inr doc)).
Proof.
  intros Hn Hwf Hd. unfold load_agent_config.
  rewrite bind_run, (load_agent_config_try_file n _ w Hn Hd).
  now rewrite json_loads_dumps.
Qed.

(** X23. [load_agent_config] for a plain name whose configuration file
    holds a text that does not parse, with a plugin directory that loads:
    the file is replaced by the dump of the default document (every
    catalog command set to the string ["false"], the provider settings of
    [huggingchat]); but what the call returns is the empty dictionary, not
    that document. The next call returns the document. *)
Theorem load_agent_config_unparsable (n text : string) (w : world)
    (cmds : list catalog_entry) :
  plain n = true ->
  disk w !! config_file (cwd w) n = Some (File text) ->
  json_loads text = None ->
  snd (load_commands w) = Ret cmds ->
  exists w',
    load_agent_config n w = (w', Ret (inr (PDict []))) /\
    w' = set_disk (<[config_file (cwd w) n := File (json_dumps (default_config cmds))]>
                   (disk w)) w /\
    load_agent_config n w' = (w', Ret (inr (default_config cmds))).
Proof.
  intros Hn Hd Hl Hcmds. eexists. split; [| split; [reflexivity |]].
  - unfold load_agent_config.
    rewrite bind_run, (load_agent_config_try_file n text w Hn Hd), Hl. cbv iota beta zeta.
    apply (load_agent_config_rewrite n w cmds (Some (PDict []))); eauto.
  - apply load_agent_config_dumped; [exact Hn | apply wf_default_config |].
    cbn [cwd disk set_disk]. apply lookup_insert_eq.
Qed.

(** X24. [load_agent_config] for a plain name whose folder is there but
    has no configuration file, with a plugin directory that loads: the
    default document is written, and then the call raises
    [UnboundLocalError] instead of returning it ([agent_config_data] was
    never bound). The next call returns the document. *)
Theorem load_agent_config_missing_file (n : string) (w : world)
    (cmds : list catalog_entry) :
  plain n = true ->
  disk w !! agent_folder (cwd w) n = Some Dir ->
  disk w !! config_file (cwd w) n = None ->
  snd (load_commands w) = Ret cmds ->
  exists w',
    load_agent_config n w = (w', Ret (inl UnboundLocalError)) /\
    w' = set_disk (<[config_file (cwd w) n := File (json_dumps (default_config cmds))]>
                   (disk w)) w /\
    load_agent_config n w' = (w', Ret (inr (default_config cmds))).
Proof.
  intros Hn Hf Hd Hcmds. eexists. split; [| split; [reflexivity |]].
  - unfold load_agent_config. rewrite bind_run.
    assert (load_agent_config_try n w = (w, Ret (Excepted None))) as ->.
    { unfold load_agent_config_try, Os.read_text. rewrite bind_run. simpl.
      rewrite join_config_file, resolve_config_file, Hd by assumption.
      reflexivity. }
    cbv iota beta zeta.
    apply (load_agent_config_rewrite n w cmds None); auto.
  - apply load_agent_config_dumped; [exact Hn | apply wf_default_config |].
    cbn [cwd disk set_disk]. apply lookup_insert_eq.
Qed.

(** X25. [load_agent_config] for a plain name whose configuration file
    does not parse, when a plugin module fails to load: the exception of
    the module comes out of the call, after the file was opened for
    writing; the file is left empty, its text is lost. *)
Theorem load_agent_config_plugin_failure (n text : string) (w : world) (e : exn) :
  plain n = true ->
  disk w !! config_file (cwd w) n = Some (File text) ->
  json_loads text = None ->
  snd (load_commands w) = Raise e ->
  load_agent_config n w
  = (set_disk (<[config_file (cwd w) n := File ""]> (disk w)) w, Raise e).
Proof.
  intros Hn Hd Hl Hcmds. unfold load_agent_config.
  rewrite bind_run, (load_agent_config_try_file n text w Hn Hd), Hl. cbv iota beta zeta.
  rewrite join_config_file by assumption.
  rewrite bind_run, (write_text_over _ _ text) by now rewrite resolve_config_file.
  cbv iota beta. rewrite resolve_config_file by assumption. set (w1 := set_disk _ w).
  rewrite bind_run.
  pose proof (load_commands_world w1) as Hw.
  pose proof (load_commands_result w w1 eq_refl) as Hr. rewrite Hcmds in Hr.
  destruct (load_commands w1) as [w2 r]. simpl in Hw, Hr. now subst.
Qed.

(** X30. [write_agent_config] on the path that
    [create_agent_config_file] returns for the agent of the object (a
    plain name), and then [get_agent_config]: whenever the write returns,
    the resolution returns the written document, in one pass and without
    writing. *)
Theorem write_agent_config_then_get_agent_config (config_data : pyval) (w w' : world)
    (u : unit) :
  plain (AGENT_NAME (this w)) = true ->
  wf config_data = true ->
  write_agent_config (join (join "agents" (AGENT_NAME (this w))) "config.json")
    config_data w = (w', Ret u) ->
  forall fuel, 1 <= fuel -> get_agent_config fuel w' = (w', Ret config_data).
Proof.
  intros Hn Hwf Hrun. unfold write_agent_config in Hrun.
  apply write_text_ret in Hrun. subst w'.
  apply body_dumped; [exact Hn | exact Hwf |].
  cbn [cwd disk this set_disk].
  rewrite join_config_file, resolve_config_file by assumption.
  apply lookup_insert_eq.
Qed.

End Rest.

(* ===================================================================== *)
(** * [rename_agent] *)
(* ===================================================================== *)

Module RenameFacts.
Import OsPath OsPathFacts Layout LayoutFacts StoreFacts TreeFacts FrameFacts OsMoreFacts.

Lemma bindX_run {A B} (m : MX A) (f : A -> MX B) (w : world) :
  bindX m f w =
  match m w with
  | (w', Ret (inr a)) => f a w'
  | (w', Ret (inl e)) => (w', Ret (inl e))
  | (w', Raise e) => (w', Raise e)
  | (w', OutOfFuel) => (w', OutOfFuel)
  end.
Proof.
  unfold bindX. rewrite bind_run.
  destruct (m w) as [w' [[e|a]| e |]]; reflexivity.
Qed.

Lemma bindX_liftX_run {A B} (m : M A) (f : A -> MX B) (w : world) :
  bindX (liftX m) f w =
  match m w with
  | (w', Ret a) => f a w'
  | (w', Raise e) => (w', Raise e)
  | (w', OutOfFuel) => (w', OutOfFuel)
  end.
Proof.
  rewrite bindX_run. unfold liftX. rewrite bind_run.
  destruct (m w) as [w' [a| e |]]; reflexivity.
Qed.

(** In a tree, nothing lies below a location that is not there. *)
Lemma tree_below_absent (d : gmap (list string) node) (l : location) :
  is_tree d -> d !! l = None -> forall k, l `prefix_of` k -> d !! k = None.
Proof.
  intros Ht Hl k [r ->]. induction r as [|c r IH] using rev_ind.
  - now rewrite app_nil_r.
  - destruct (d !! (l ++ r ++ [c])) as [x|] eqn:E; [| reflexivity].
    rewrite app_assoc in E. apply tree_parent in E; [| exact Ht]. congruence.
Qed.

(** ** Moving a directory *)

(** The entries at and below [s], at their places at and below [t]. *)
Definition moved (s t : location) (d : gmap (list string) node)
  : gmap (list string) node :=
  list_to_map
    (map (fun kv => (t ++ drop (length s) (fst kv), snd kv))
         (map_to_list (filter (fun kv => s `prefix_of` fst kv) d))).

Section Move.
Variables (s t : location) (d : gmap (list string) node).

Lemma moved_keys_NoDup :
  NoDup (map fst
           (map (fun kv : location * node => (t ++ drop (length s) (fst kv), snd kv))
                (map_to_list (filter (fun kv => s `prefix_of` fst kv) d)))).
Proof.
  rewrite map_map. cbn [fst].
  apply (NoDup_fmap_2_strong (fun kv : location * node => t ++ drop (length s) (fst kv))).
  - intros [k1 x1] [k2 x2] H1 H2 E. cbn [fst] in E.
    apply elem_of_map_to_list in H1, H2.
    apply map_lookup_filter_Some in H1 as [H1 Hp1].
    apply map_lookup_filter_Some in H2 as [H2 Hp2].
    cbn [fst] in *. destruct Hp1 as [r1 ->]. destruct Hp2 as [r2 ->].
    apply app_inv_head in E. rewrite !drop_app_length in E. subst r2.
    f_equal. congruence.
  - apply NoDup_map_to_list.
Qed.

Lemma moved_lookup (r : list string) : moved s t d !! (t ++ r) = d !! (s ++ r).
Proof.
  destruct (d !! (s ++ r)) as [x|] eqn:Hd.
  - apply elem_of_list_to_map_1; [apply moved_keys_NoDup |].
    apply list_elem_of_fmap. exists (s ++ r, x). split.
    + cbn [fst snd]. now rewrite drop_app_length.
    + apply elem_of_map_to_list, map_lookup_filter_Some. split; [exact Hd |].
      now apply prefix_app_r.
  - apply not_elem_of_list_to_map_1. rewrite map_map. cbn [fst].
    intros Hin. apply list_elem_of_fmap in Hin as ([k x] & E & Hin). cbn [fst] in E.
    apply elem_of_map_to_list, map_lookup_filter_Some in Hin as [Hk Hp].
    cbn [fst] in *. destruct Hp as [r' ->]. apply app_inv_head in E. rewrite drop_app_length in E. subst r'.
    congruence.
Qed.

Lemma moved_lookup_out (k : location) : ~ t `prefix_of` k -> moved s t d !! k = None.
Proof.
  intros Hk. apply not_elem_of_list_to_map_1. rewrite map_map. cbn [fst].
  intros Hin. apply list_elem_of_fmap in Hin as ([k' x] & -> & _).
  apply Hk. now apply prefix_app_r.
Qed.

(** What was at or below [s] is at the same place at or below [t]. *)
Lemma move_tree_new (r : list string) (x : node) :
  d !! (s ++ r) = Some x -> OsMore.move_tree s t d !! (t ++ r) = Some x.
Proof.
  intros Hd. unfold OsMore.move_tree. apply lookup_union_Some_l.
  fold (moved s t d). now rewrite moved_lookup.
Qed.

Lemma move_tree_new_absent (r : list string) :
  d !! (s ++ r) = None -> d !! (t ++ r) = None ->
  OsMore.move_tree s t d !! (t ++ r) = None.
Proof.
  intros Hs Ht. unfold OsMore.move_tree. apply lookup_union_None_2.
  - fold (moved s t d). now rewrite moved_lookup.
  - apply map_lookup_filter_None_2. now left.
Qed.

(** Nothing is left at or below [s]. *)
Lemma move_tree_old (k : location) :
  s `prefix_of` k -> ~ t `prefix_of` k -> OsMore.move_tree s t d !! k = None.
Proof.
  intros Hs Ht. unfold OsMore.move_tree. apply lookup_union_None_2.
  - fold (moved s t d). now apply moved_lookup_out.
  - apply map_lookup_filter_None_2. right. intros x _ Hn. now apply Hn.
Qed.

(** The rest of the store is as it was. *)
Lemma move_tree_other (k : location) :
  ~ s `prefix_of` k -> ~ t `prefix_of` k -> OsMore.move_tree s t d !! k = d !! k.
Proof.
  intros Hs Ht. unfold OsMore.move_tree.
  rewrite lookup_union_r by (fold (moved s t d); now apply moved_lookup_out).
  rewrite map_lookup_filter. destruct (d !! k) as [x|]; [| reflexivity].
  simpl. now rewrite option_guard_True.
Qed.

End Move.

(** ** [os.rename], case by case *)

Lemma rename_missing (src dst : string) (w : world) :
  disk w !! resolve (cwd w) src = None ->
  OsMore.rename src dst w = (w, Raise (Os.missing (disk w) (resolve (cwd w) src))).
Proof. intros Hs. unfold OsMore.rename. cbv zeta. now rewrite Hs. Qed.

Lemma rename_file (src dst data : string) (w : world) :
  disk w !! resolve (cwd w) src = Some (File data) ->
  resolve (cwd w) src <> resolve (cwd w) dst ->
  disk w !! resolve (cwd w) dst <> Some Dir ->
  disk w !! Os.parent (resolve (cwd w) dst) = Some Dir ->
  OsMore.rename src dst w
  = (set_disk (<[resolve (cwd w) dst := File data]>
               (delete (resolve (cwd w) src) (disk w))) w,
     Ret (inr tt)).
Proof.
  intros Hs Hne Ht Hp. unfold OsMore.rename. cbv zeta. rewrite Hs.
  destruct (decide _) as [E|_]; [contradiction |].
  rewrite Hp. destruct (disk w !! resolve (cwd w) dst) as [[?|]|]; try reflexivity.
  congruence.
Qed.

Lemma rename_dir (src dst : string) (w : world) :
  disk w !! resolve (cwd w) src = Some Dir ->
  ~ resolve (cwd w) src `prefix_of` resolve (cwd w) dst ->
  disk w !! resolve (cwd w) dst = None ->
  disk w !! Os.parent (resolve (cwd w) dst) = Some Dir ->
  OsMore.rename src dst w
  = (set_disk (OsMore.move_tree (resolve (cwd w) src) (resolve (cwd w) dst) (disk w)) w,
     Ret (inr tt)).
Proof.
  intros Hs Hpre Ht Hp. unfold OsMore.rename. cbv zeta. rewrite Hs.
  destruct (decide _) as [E|_]; [contradiction Hpre; now rewrite E |].
  rewrite bool_decide_eq_false_2 by assumption. now rewrite Ht, Hp.
Qed.

Lemma rename_dir_not_empty (src dst c : string) (x : node) (w : world) :
  disk w !! resolve (cwd w) src = Some Dir ->
  ~ resolve (cwd w) src `prefix_of` resolve (cwd w) dst ->
  disk w !! resolve (cwd w) dst = Some Dir ->
  disk w !! (resolve (cwd w) dst ++ [c]) = Some x ->
  OsMore.rename src dst w = (w, Ret (inl OSError)).
Proof.
  intros Hs Hpre Ht Hc. unfold OsMore.rename. cbv zeta. rewrite Hs.
  destruct (decide _) as [E|_]; [contradiction Hpre; now rewrite E |].
  rewrite bool_decide_eq_false_2 by assumption. rewrite Ht.
  assert (c ∈ OsMore.children (disk w) (resolve (cwd w) dst)) as Hin.
  { apply elem_of_children. now rewrite Hc. }
  destruct (OsMore.children _ _); [| reflexivity].
  now apply elem_of_nil in Hin.
Qed.

End RenameFacts.

Section Rename.
Import OsPath OsPathFacts Layout LayoutRest LayoutFacts StoreFacts DictFacts TreeFacts.
Import FrameFacts JoinFacts OsMoreFacts RenameFacts AgentClass AgentRest.

Lemma log_file_ne (c n n' : string) : n <> n' -> log_file c n <> log_file c n'.
Proof.
  unfold log_file. intros Hne E. apply app_inv_head in E.
  injection E as E. now apply append_inv_tail in E.
Qed.

Lemma folder_not_own_log (c n : string) : agent_folder c n <> log_file c n.
Proof.
  unfold log_file, agent_folder. intros E. apply app_inv_head in E.
  injection E as E. apply (f_equal String.length) in E.
  rewrite length_append in E. simpl in E. lia.
Qed.

Lemma folder_prefix_folder (c n n' : string) (r : list string) :
  agent_folder c n `prefix_of` agent_folder c n' ++ r -> n = n'.
Proof.
  unfold agent_folder. intros [k Hk]. rewrite <- !app_assoc in Hk.
  apply app_inv_head in Hk. now injection Hk.
Qed.

Lemma folder_prefix_log (c n n' : string) :
  agent_folder c n `prefix_of` log_file c n' -> agent_folder c n = log_file c n'.
Proof.
  unfold agent_folder, log_file. intros [k Hk]. rewrite <- !app_assoc in Hk.
  apply app_inv_head in Hk. injection Hk as -> Hk. destruct k; [| discriminate].
  reflexivity.
Qed.

Lemma log_not_below (c n : string) (k : location) :
  length k <> length (log_file c n) -> k <> log_file c n.
Proof. congruence. Qed.

Lemma parent_log_file (c n : string) : Os.parent (log_file c n) = agents_dir c.
Proof. unfold Os.parent, log_file. apply removelast_last. Qed.

Lemma parent_agent_folder (c n : string) : Os.parent (agent_folder c n) = agents_dir c.
Proof. unfold Os.parent, agent_folder. apply removelast_last. Qed.

Lemma agents_dir_not_log (c n : string) : agents_dir c <> log_file c n.
Proof.
  unfold log_file. intros E. apply (f_equal (@length string)) in E.
  rewrite length_app in E. simpl in E. lia.
Qed.

(** The two steps of [rename_agent], for a plain name. *)
Lemma rename_agent_steps (n n' : string) (w : world) :
  plain n = true ->
  rename_agent n n' w =
  bindX (if (match disk w !! log_file (cwd w) n with Some _ => true | None => false end)
         then OsMore.rename (abspath (cwd w) ("agents/" +:+ n +:+ ".yaml"))
                            (join "agents" (n' +:+ ".yaml"))
         else retX tt)
        (fun _ =>
           bindX (liftX (Os.path_exists (abspath (cwd w) ("agents/" +:+ n +:+ "/"))))
                 (fun b => if (b : bool)
                           then OsMore.rename (abspath (cwd w) ("agents/" +:+ n +:+ "/"))
                                              (join "agents" n')
                           else retX tt)) w.
Proof.
  intros Hn. unfold rename_agent.
  rewrite bindX_liftX_run, path_abspath_run. cbv iota beta.
  rewrite bindX_liftX_run, path_abspath_run. cbv iota beta.
  rewrite bindX_liftX_run, path_exists_run. cbv iota beta.
  now rewrite resolve_abspath, resolve_log_file by assumption.
Qed.

(** X26. [rename_agent] of a name that has neither an interaction log nor
    a folder does nothing and raises nothing, whatever the new name. *)
Theorem rename_agent_unknown (n n' : string) (w : world) :
  plain n = true ->
  disk w !! log_file (cwd w) n = None ->
  disk w !! agent_folder (cwd w) n = None ->
  rename_agent n n' w = (w, Ret (inr tt)).
Proof.
  intros Hn Hlog HF. rewrite rename_agent_steps, Hlog by assumption.
  rewrite bindX_run. change (retX tt w) with (w, Ret (@inr other_exn unit tt)).
  cbv iota beta. rewrite bindX_liftX_run, path_exists_run.
  now rewrite resolve_abspath, resolve_agent_folder_slash, HF by assumption.
Qed.

(** The first step: the log goes to the new name. *)
Lemma rename_agent_log_step (n n' data : string) (w : world) :
  plain n = true -> plain n' = true -> n <> n' ->
  is_tree (disk w) ->
  disk w !! log_file (cwd w) n = Some (File data) ->
  disk w !! log_file (cwd w) n' <> Some Dir ->
  OsMore.rename (abspath (cwd w) ("agents/" +:+ n +:+ ".yaml"))
                (join "agents" (n' +:+ ".yaml")) w
  = (set_disk (<[log_file (cwd w) n' := File data]>
               (delete (log_file (cwd w) n) (disk w))) w,
     Ret (inr tt)).
Proof.
  intros Hn Hn' Hne Ht Hlog Hlog'.
  assert (disk w !! agents_dir (cwd w) = Some Dir) as HA.
  { unfold log_file in Hlog. eapply tree_parent; eassumption. }
  pose proof (rename_file (abspath (cwd w) ("agents/" +:+ n +:+ ".yaml"))
                (join "agents" (n' +:+ ".yaml")) data w) as Hr.
  rewrite resolve_abspath, resolve_log_file in Hr by assumption.
  rewrite join_log_file, resolve_log_file, parent_log_file in Hr by assumption.
  rewrite join_log_file by assumption. apply Hr; auto using log_file_ne.
Qed.


(** X28. [rename_agent] of an agent that has an interaction log and a
    folder, to a plain new name that has no folder (in a store that is a
    tree): the call returns; the log is at the new name with its text;
    every entry of the folder, at any depth, is at the same place in the
    folder of the new name, so the configuration file too; nothing is left
    at the old log or at or below the old folder; and the rest of the
    store is as it was. *)
Theorem rename_agent_moves (n n' data : string) (w : world) :
  plain n = true -> plain n' = true -> n <> n' ->
  is_tree (disk w) ->
  disk w !! log_file (cwd w) n = Some (File data) ->
  disk w !! agent_folder (cwd w) n = Some Dir ->
  disk w !! log_file (cwd w) n' <> Some Dir ->
  disk w !! agent_folder (cwd w) n' = None ->
  exists w',
    rename_agent n n' w = (w', Ret (inr tt)) /\
    same_process w w' /\
    disk w' !! log_file (cwd w) n' = Some (File data) /\
    (forall r, disk w' !! (agent_folder (cwd w) n' ++ r)
               = disk w !! (agent_folder (cwd w) n ++ r)) /\
    disk w' !! config_file (cwd w) n' = disk w !! config_file (cwd w) n /\
    disk w' !! log_file (cwd w) n = None /\
    (forall k, agent_folder (cwd w) n `prefix_of` k -> disk w' !! k = None) /\
    (forall k, ~ agent_folder (cwd w) n `prefix_of` k ->
               ~ agent_folder (cwd w) n' `prefix_of` k ->
               k <> log_file (cwd w) n -> k <> log_file (cwd w) n' ->
               disk w' !! k = disk w !! k).
Proof.
  intros Hn Hn' Hne Ht Hlog HF Hlog' HF'.
  set (c := cwd w) in *.
  set (d1 := <[log_file c n' := File data]> (delete (log_file c n) (disk w))).
  set (w1 := set_disk d1 w).
  assert (disk w !! agents_dir c = Some Dir) as HA.
  { unfold log_file in Hlog. eapply tree_parent; eassumption. }
  assert (agent_folder c n <> log_file c n') as HFL' by congruence.
  assert (agent_folder c n <> log_file c n) as HFL by congruence.
  assert (agent_folder c n' <> log_file c n') as HF'L' by apply folder_not_own_log.
  assert (agent_folder c n' <> log_file c n) as HF'L by congruence.
  assert (forall k, k <> log_file c n -> k <> log_file c n' -> d1 !! k = disk w !! k) as Hd1.
  { intros k H1 H2. unfold d1. now rewrite lookup_insert_ne, lookup_delete_ne by congruence. }
  assert (~ agent_folder c n `prefix_of` agent_folder c n') as Hpre.
  { intros Hp. rewrite <- (app_nil_r (agent_folder c n')) in Hp.
    now apply folder_prefix_folder in Hp. }
  assert (forall r, agent_folder c n ++ r <> log_file c n /\
                    agent_folder c n ++ r <> log_file c n') as Hin.
  { intros r. split; intros E.
    - apply HFL, folder_prefix_log. rewrite <- E. now apply prefix_app_r.
    - apply HFL', folder_prefix_log. rewrite <- E. now apply prefix_app_r. }
  assert (forall r, agent_folder c n' ++ r <> log_file c n /\
                    agent_folder c n' ++ r <> log_file c n') as Hin'.
  { intros r. split; intros E.
    - apply HF'L, folder_prefix_log. rewrite <- E. now apply prefix_app_r.
    - apply HF'L', folder_prefix_log. rewrite <- E. now apply prefix_app_r. }
  assert (OsMore.rename (abspath c ("agents/" +:+ n +:+ "/")) (join "agents" n') w1
          = (set_disk (OsMore.move_tree (agent_folder c n) (agent_folder c n') d1) w1,
             Ret (inr tt))) as Hdir.
  { pose proof (rename_dir (abspath c ("agents/" +:+ n +:+ "/")) (join "agents" n') w1) as Hr.
    change (cwd w1) with c in Hr. change (disk w1) with d1 in Hr.
    rewrite resolve_abspath, resolve_agent_folder_slash in Hr by assumption.
    rewrite resolve_join_agents, parent_agent_folder in Hr by assumption.
    apply Hr; [| exact Hpre | |].
    - now rewrite Hd1 by congruence.
    - now rewrite Hd1 by congruence.
    - rewrite Hd1; [exact HA | apply agents_dir_not_log | apply agents_dir_not_log]. }
  set (w' := set_disk _ w1) in Hdir.
  assert (forall r, disk w' !! (agent_folder c n' ++ r) = disk w !! (agent_folder c n ++ r))
    as Hmoved.
  { intros r. unfold w'. cbn [disk set_disk].
    destruct (Hin r) as [Hi1 Hi2]. destruct (Hin' r) as [Hi1' Hi2'].
    destruct (disk w !! (agent_folder c n ++ r)) as [x|] eqn:E.
    - apply move_tree_new. now rewrite Hd1.
    - apply move_tree_new_absent; rewrite Hd1 by assumption; [exact E |].
      apply (tree_below_absent _ _ Ht HF'). now apply prefix_app_r. }
  exists w'. split; [| split; [| split; [| split; [| split; [| split; [| split]]]]]].
  - pose proof (rename_agent_log_step n n' data w Hn Hn' Hne Ht Hlog Hlog') as Hstep.
    fold c d1 w1 in Hstep.
    rewrite rename_agent_steps by assumption. fold c. rewrite Hlog.
    rewrite bindX_run, Hstep. cbv iota beta. rewrite bindX_liftX_run, path_exists_run.
    change (cwd w1) with c. change (disk w1) with d1.
    rewrite resolve_abspath, resolve_agent_folder_slash by assumption.
    rewrite Hd1, HF by congruence. exact Hdir.
  - repeat split.
  - unfold w'. cbn [disk set_disk]. rewrite move_tree_other.
    + unfold d1. apply lookup_insert_eq.
    + intros Hp. now apply HFL', folder_prefix_log.
    + intros Hp. now apply HF'L', folder_prefix_log.
  - exact Hmoved.
  - unfold config_file.
    change [n'; "config.json"] with ([n'] ++ ["config.json"]).
    change [n; "config.json"] with ([n] ++ ["config.json"]).
    rewrite !app_assoc. apply Hmoved.
  - unfold w'. cbn [disk set_disk]. rewrite move_tree_other.
    + unfold d1. rewrite lookup_insert_ne by (apply not_eq_sym; now apply log_file_ne).
      apply lookup_delete_eq.
    + intros Hp. now apply HFL, folder_prefix_log.
    + intros Hp. now apply HF'L, folder_prefix_log.
  - intros k Hk. unfold w'. cbn [disk set_disk]. apply move_tree_old; [exact Hk |].
    intros Hk'. destruct Hk as [r ->]. apply folder_prefix_folder in Hk'. congruence.
  - intros k Hk Hk' Hl Hl'. unfold w'. cbn [disk set_disk].
    rewrite move_tree_other by assumption. now apply Hd1.
Qed.

(** X29. [rename_agent] onto the name of an agent that has a folder with
    something in it (plain names, in a tree): the log of the old name
    replaces the log of the new name, and then [os.rename] of the folder
    raises [OSError], the target not being empty. The call ends there: the
    old agent has lost its log but kept its folder, and the new name has
    the log of the old one beside its own folder. *)
Theorem rename_agent_onto_agent (n n' data c' : string) (x : node) (w : world) :
  plain n = true -> plain n' = true -> n <> n' ->
  is_tree (disk w) ->
  disk w !! log_file (cwd w) n = Some (File data) ->
  disk w !! agent_folder (cwd w) n = Some Dir ->
  disk w !! log_file (cwd w) n' <> Some Dir ->
  disk w !! agent_folder (cwd w) n' = Some Dir ->
  disk w !! (agent_folder (cwd w) n' ++ [c']) = Some x ->
  rename_agent n n' w
  = (set_disk (<[log_file (cwd w) n' := File data]>
               (delete (log_file (cwd w) n) (disk w))) w,
     Ret (inl OSError)).
Proof.
  intros Hn Hn' Hne Ht Hlog HF Hlog' HF' Hchild.
  set (c := cwd w) in *.
  set (d1 := <[log_file c n' := File data]> (delete (log_file c n) (disk w))).
  set (w1 := set_disk d1 w).
  assert (agent_folder c n <> log_file c n') as HFL' by congruence.
  assert (agent_folder c n <> log_file c n) as HFL by congruence.
  assert (agent_folder c n' <> log_file c n') as HF'L' by apply folder_not_own_log.
  assert (agent_folder c n' <> log_file c n) as HF'L by congruence.
  assert (forall k, k <> log_file c n -> k <> log_file c n' -> d1 !! k = disk w !! k) as Hd1.
  { intros k H1 H2. unfold d1. now rewrite lookup_insert_ne, lookup_delete_ne by congruence. }
  assert (~ agent_folder c n `prefix_of` agent_folder c n') as Hpre.
  { intros Hp. rewrite <- (app_nil_r (agent_folder c n')) in Hp.
    now apply folder_prefix_folder in Hp. }
  assert (forall l, agent_folder c n' ++ [c'] <> log_file c l) as Hlen.
  { intros l E. apply (f_equal (@length string)) in E.
    unfold agent_folder, log_file in E. rewrite !length_app in E. simpl in E. lia. }
  pose proof (rename_agent_log_step n n' data w Hn Hn' Hne Ht Hlog Hlog') as Hstep.
  fold c d1 w1 in Hstep.
  rewrite rename_agent_steps by assumption. fold c. rewrite Hlog.
  rewrite bindX_run, Hstep. cbv iota beta. rewrite bindX_liftX_run, path_exists_run.
  change (cwd w1) with c. change (disk w1) with d1.
  rewrite resolve_abspath, resolve_agent_folder_slash by assumption.
  rewrite Hd1, HF by congruence.
  pose proof (rename_dir_not_empty (abspath c ("agents/" +:+ n +:+ "/"))
                (join "agents" n') c' x w1) as Hr.
  change (cwd w1) with c in Hr. change (disk w1) with d1 in Hr.
  rewrite resolve_abspath, resolve_agent_folder_slash in Hr by assumption.
  rewrite resolve_join_agents in Hr by assumption.
  apply Hr; [| exact Hpre | |]; rewrite Hd1; auto.
Qed.

End Rename.

(* ===================================================================== *)
(** * The other methods on concrete stores *)
(* ===================================================================== *)

Section ClosedRest.
Import Examples OsPath OsPathFacts Layout LayoutRest LayoutFacts StoreFacts.
Import FlowFacts AgentClass AgentRest.

Ltac a_tree := match goal with |- is_tree ?d =>
  apply (bool_decide_eq_true_1 (is_tree d)); vm_compute; reflexivity end.

Ltac run := vm_compute; reflexivity.

(** X1 at a directory with [hello] (one command) and [util] (none). *)
Lemma load_commands_all_modules_hello :
  let w := app "Bot1" [hello_plugin; util_plugin] [] in
  load_commands w
  = (w, Ret [("Say Hello", "say_hello", [("name", PNone); ("greeting", PStr "hi")])]).
Proof.
  intros w.
  apply (load_commands_all_modules w
           [{| obj_commands :=
                 Some [("Say Hello",
                        {| func_name := "say_hello";
                           parameters := [("name", None); ("greeting", Some (PStr "hi"))] |})] |};
            {| obj_commands := None |}]).
  reflexivity.
Defined.

(** X2 at a directory where the module between [hello] and [util] does
    not import. *)
Lemma load_commands_failing_module_broken :
  let broken := {| stem := "broken"; instantiate := inl ImportError |} in
  let w := app "Bot1" [hello_plugin; broken; util_plugin] [] in
  load_commands w = (w, Raise ImportError).
Proof.
  intros broken w.
  apply (load_commands_failing_module w [hello_plugin] [util_plugin] broken
           [{| obj_commands :=
                 Some [("Say Hello",
                        {| func_name := "say_hello";
                           parameters := [("name", None); ("greeting", Some (PStr "hi"))] |})] |}]
           ImportError); reflexivity.
Defined.

(** X3 at [say_hello(name, greeting="hi")]. *)
Lemma get_command_params_signature_say_hello :
  get_command_params
    {| func_name := "say_hello";
       parameters := [("name", None); ("greeting", Some (PStr "hi"))] |}
  = [("name", PNone); ("greeting", PStr "hi")].
Proof.
  apply (get_command_params_signature
           {| func_name := "say_hello";
              parameters := [("name", None); ("greeting", Some (PStr "hi"))] |}).
  apply distinct_NoDup. reflexivity.
Defined.

(** X4 at [Bot1] on the empty store. *)
Lemma create_agent_folder_ensures_Bot1 :
  let w := empty_app "Bot1" in
  let w' := fst (create_agent_folder "Bot1" w) in
  "agents/Bot1" = "agents/" +:+ "Bot1" /\
  same_process w w' /\
  (exists x, disk w' !! resolve (cwd w) "agents" = Some x) /\
  (exists x, disk w' !! resolve (cwd w) ("agents/" +:+ "Bot1") = Some x) /\
  (forall l x, disk w !! l = Some x -> disk w' !! l = Some x).
Proof.
  intros w w'. apply (create_agent_folder_ensures "Bot1" w w' "agents/Bot1"). run.
Defined.

(** X5 at [Bot1] on the empty store. *)
Lemma create_agent_config_file_reads_back_Bot1 :
  let w := empty_app "Bot1" in
  let ps := PDict [("provider", PStr "openai")] in
  let cs := [("Say Hello", PBool false)] in
  let w' := fst (create_agent_config_file "Bot1" ps cs w) in
  exists text,
    Os.read_text "agents/Bot1/config.json" w' = (w', Ret text) /\
    json_loads text = Some (PDict [("commands", PDict cs); ("settings", ps)]).
Proof.
  intros w ps cs w'.
  apply (create_agent_config_file_reads_back "Bot1" ps cs w w' "agents/Bot1/config.json");
    [reflexivity | run].
Defined.

(** X6 at [Bot1] on the empty store, with a provider among the
    settings. *)
Lemma add_agent_then_get_agent_config_Bot1 :
  let w := app "Bot1" [hello_plugin] [] in
  let ps := PDict [("provider", PStr "gpt4free")] in
  let w' := fst (add_agent "Bot1" ps w) in
  PDict [("agent_file", PStr "Bot1.yaml")]
    = PDict [("agent_file", PStr ("Bot1" +:+ ".yaml"))] /\
  exists commands_list,
    snd (load_commands w) = Ret commands_list /\
    forall fuel, 1 <= fuel ->
      get_agent_config fuel w'
      = (w', Ret (PDict [("commands", PDict (command_dict_of commands_list));
                         ("settings", ps)])).
Proof.
  intros w ps w'.
  apply (add_agent_then_get_agent_config ps (PDict [("agent_file", PStr "Bot1.yaml")]) w w');
    [reflexivity | reflexivity | run].
Defined.

(** X7 at [Bot1]. *)
Lemma add_agent_writes_only_config_path_Bot1 :
  let w := app "Bot1" [] [(["agents"], Dir); (["agents"; "Bot1.yaml"], File "interactions: []")] in
  (forall l, ~ l `prefix_of` config_file (cwd w) "Bot1" ->
     disk (fst (add_agent "Bot1" (PDict []) w)) !! l = disk w !! l) /\
  ~ log_file (cwd w) "Bot1" `prefix_of` config_file (cwd w) "Bot1" /\
  (forall n' l, n' <> "Bot1" -> agent_folder (cwd w) n' `prefix_of` l ->
     ~ l `prefix_of` config_file (cwd w) "Bot1").
Proof.
  intros w. apply (add_agent_writes_only_config_path "Bot1" (PDict []) w). reflexivity.
Defined.

(** X8 at [Bot1] on the empty store. *)
Lemma add_agent_then_delete_agent_Bot1 :
  let w := empty_app "Bot1" in
  let w' := fst (add_agent "Bot1" (PDict []) w) in
  delete_agent "Bot1" w' =
  (w', Ret (PDict [("message", PStr "Agent file /app/agents/Bot1.yaml not found.")],
            404%Z)) /\
  exists text, disk w' !! config_file (cwd w) "Bot1" = Some (File text).
Proof.
  intros w w'.
  apply (add_agent_then_delete_agent "Bot1" (PDict [])
           (PDict [("agent_file", PStr "Bot1.yaml")]) w w');
    [reflexivity | a_tree | run | run].
Defined.

(** X9 at [Bot1] with a log and a folder holding a configuration file. *)
Lemma delete_agent_removes_Bot1 :
  let w := app "Bot1" []
             [(["agents"], Dir); (["agents"; "Bot1.yaml"], File "interactions: []");
              (["agents"; "Bot1"], Dir); (["agents"; "Bot1"; "config.json"], File "{}")] in
  exists w',
    delete_agent "Bot1" w
    = (w', Ret (PDict [("message", PStr "Agent Bot1 deleted.")], 200%Z)) /\
    same_process w w' /\
    disk w' !! log_file (cwd w) "Bot1" = None /\
    disk w' !! agent_folder (cwd w) "Bot1" = None /\
    (disk w !! agent_folder (cwd w) "Bot1" = Some Dir ->
     forall l, agent_folder (cwd w) "Bot1" `prefix_of` l -> disk w' !! l = None) /\
    (forall l, l <> log_file (cwd w) "Bot1" -> ~ agent_folder (cwd w) "Bot1" `prefix_of` l ->
       disk w' !! l = disk w !! l).
Proof.
  intros w. apply (delete_agent_removes "Bot1" "interactions: []" w);
    [reflexivity | run | run].
Defined.

(** X10 at [Bot1] on the empty store: the first call regenerates. *)
Lemma get_agent_config_again_Bot1 :
  let w' := fst (get_agent_config 2 (empty_app "Bot1")) in
  get_agent_config 1 w' = (w', Ret empty_config).
Proof.
  intros w'.
  apply (get_agent_config_again 2 (empty_app "Bot1") w' empty_config);
    [reflexivity | run | lia].
Defined.



(** X13 at [Bot1], whose document has no [settings] yet. *)
Lemma update_agent_config_then_get_Bot1 :
  let cfg := [("commands", PDict [("Say Hello", PBool true)])] in
  let s := [("AI_MODEL", PStr "llama")] in
  let w := bot1_with_config [] (json_dumps (PDict cfg)) in
  exists w1 cfg1,
    update_agent_config s w = (w1, Ret "Agent Bot1 configuration updated.") /\
    (forall fuel, 1 <= fuel -> get_agent_config fuel w1 = (w1, Ret (PDict cfg1))) /\
    dict_get "settings" cfg1 = Some (PDict (dict_update [] s)) /\
    (forall k, k <> "settings" -> dict_get k cfg1 = dict_get k cfg).
Proof.
  intros cfg s w.
  apply (update_agent_config_then_get w (json_dumps (PDict cfg)) cfg [] s);
    [reflexivity | run | run | right; split; reflexivity | reflexivity].
Defined.


(** X16 at [Bot1] with a new memory store. *)
Lemma log_interaction_then_get_chat_history_Bot1 :
  let w := fst (init_memory (app "Bot1" [] [(["agents"], Dir)])) in
  exists w',
    log_interaction "user" "hi" w = (w', Ret tt) /\
    get_chat_history "Bot1" w'
    = (w', Ret (yaml_safe_dump
                  (PDict [("interactions", PList [interaction_record "user" "hi"])]))).
Proof.
  intros w.
  apply (log_interaction_then_get_chat_history w "Bot1" [("interactions", PList [])] []
           "user" "hi"); [reflexivity | reflexivity | | reflexivity | reflexivity].
  exists (yaml_safe_dump (PDict [("interactions", PList [])])).
  split; [run | split; reflexivity].
Defined.



(** X19 at [Bot1] and an identifier as [uuid4] gives them. *)
Lemma save_task_output_without_objective_Bot1 :
  let w := app "Bot1" [] [(["agents"], Dir); (["agents"; "Bot1"], Dir)] in
  let u := "123e4567-e89b-42d3-a456-426614174000" in
  exists w',
    save_task_output "Bot1" "done" None u w = (w', Ret "done") /\
    get_task_output "Bot1" None w' = (w', Ret "No primary objective specified.") /\
    disk w' !! task_file (cwd w) "Bot1" u = Some (File "done") /\
    get_task_output "Bot1" (Some u) w' = (w', Ret "done").
Proof.
  intros w u.
  apply (save_task_output_without_objective "Bot1" "done" u w);
    [reflexivity | reflexivity | a_tree | run | run | run].
Defined.

(** X20 at [Ghost], which was never created. *)
Lemma save_task_output_no_agent_Ghost :
  let w := app "Ghost" [] [(["agents"], Dir)] in
  save_task_output "Ghost" "done" (Some "goal") "" w = (w, Raise FileNotFoundError).
Proof.
  intros w. apply (save_task_output_no_agent "Ghost" "done" "" (Some "goal") w);
    [reflexivity | run | run].
Defined.

(** X21 at [Bot1] on a store without [agents]. *)
Lemma create_parent_directories_then_load_memory_Bot1 :
  let w := empty_app "Bot1" in
  (_create_parent_directories (memory_file (this w));; load_memory) w
  = (set_disk (<[log_file (cwd w) "Bot1" :=
                   File (yaml_safe_dump (PDict [("interactions", PList [])]))]>
               (<[agents_dir (cwd w) := Dir]> (disk w))) w,
     Ret (PDict [("interactions", PList [])])).
Proof.
  intros w.
  apply (create_parent_directories_then_load_memory "Bot1" w);
    [reflexivity | reflexivity | a_tree | run | run | run].
Defined.

(** X22 at [Bot1], added with the provider [huggingchat]. *)
Lemma get_provider_after_add_agent_Bot1 :
  let w := empty_app "Bot1" in
  let w' := fst (add_agent "Bot1" (PDict [("provider", PStr "huggingchat")]) w) in
  get_provider 1 w' = (w', Ret (PStr "openai")).
Proof.
  intros w w'.
  apply (get_provider_after_add_agent (PDict [("provider", PStr "huggingchat")])
           (PDict [("agent_file", PStr "Bot1.yaml")]) w w');
    [reflexivity | reflexivity | run | lia].
Defined.

(** X23 at [Bot1] with the text [{] in the configuration file. *)
Lemma load_agent_config_unparsable_Bot1 :
  let w := bot1_with_config [hello_plugin] "{" in
  let cmds : list catalog_entry :=
    [("Say Hello", "say_hello", [("name", PNone); ("greeting", PStr "hi")])] in
  exists w',
    load_agent_config "Bot1" w = (w', Ret (inr (PDict []))) /\
    w' = set_disk (<[config_file (cwd w) "Bot1" :=
                       File (json_dumps (default_config cmds))]> (disk w)) w /\
    load_agent_config "Bot1" w' = (w', Ret (inr (default_config cmds))).
Proof.
  intros w cmds.
  apply (load_agent_config_unparsable "Bot1" "{" w cmds); [reflexivity | run | run | run].
Defined.

(** X24 at [Bot1], whose folder is empty. *)
Lemma load_agent_config_missing_file_Bot1 :
  let w := app "Bot1" [] [(["agents"], Dir); (["agents"; "Bot1"], Dir)] in
  exists w',
    load_agent_config "Bot1" w = (w', Ret (inl UnboundLocalError)) /\
    w' = set_disk (<[config_file (cwd w) "Bot1" :=
                       File (json_dumps (default_config []))]> (disk w)) w /\
    load_agent_config "Bot1" w' = (w', Ret (inr (default_config []))).
Proof.
  intros w.
  apply (load_agent_config_missing_file "Bot1" w []); [reflexivity | run | run | run].
Defined.

(** X25 at [Bot1] with the text [{] and a module that does not import. *)
Lemma load_agent_config_plugin_failure_Bot1 :
  let w := bot1_with_config [{| stem := "broken"; instantiate := inl ImportError |}] "{" in
  load_agent_config "Bot1" w
  = (set_disk (<[config_file (cwd w) "Bot1" := File ""]> (disk w)) w, Raise ImportError).
Proof.
  intros w.
  apply (load_agent_config_plugin_failure "Bot1" "{" w ImportError);
    [reflexivity | run | run | run].
Defined.

(** X26 at [Ghost], which was never created. *)
Lemma rename_agent_unknown_Ghost :
  rename_agent "Ghost" "Casper" (empty_app "Ghost") = (empty_app "Ghost", Ret (inr tt)).
Proof.
  apply (rename_agent_unknown "Ghost" "Casper" (empty_app "Ghost")); [reflexivity | run | run].
Defined.


(** X28 at [Bot1] with a log, a configuration file and a memory, renamed
    to [Bot2]. *)
Lemma rename_agent_moves_Bot1 :
  let w := app "Bot1" []
             [(["agents"], Dir); (["agents"; "Bot1.yaml"], File "interactions: []");
              (["agents"; "Bot1"], Dir); (["agents"; "Bot1"; "config.json"], File "{}");
              (["agents"; "Bot1"; "memories"], Dir);
              (["agents"; "Bot1"; "memories"; "index.bin"], File "0")] in
  exists w',
    rename_agent "Bot1" "Bot2" w = (w', Ret (inr tt)) /\
    same_process w w' /\
    disk w' !! log_file (cwd w) "Bot2" = Some (File "interactions: []") /\
    (forall r, disk w' !! (agent_folder (cwd w) "Bot2" ++ r)
               = disk w !! (agent_folder (cwd w) "Bot1" ++ r)) /\
    disk w' !! config_file (cwd w) "Bot2" = disk w !! config_file (cwd w) "Bot1" /\
    disk w' !! log_file (cwd w) "Bot1" = None /\
    (forall k, agent_folder (cwd w) "Bot1" `prefix_of` k -> disk w' !! k = None) /\
    (forall k, ~ agent_folder (cwd w) "Bot1" `prefix_of` k ->
               ~ agent_folder (cwd w) "Bot2" `prefix_of` k ->
               k <> log_file (cwd w) "Bot1" -> k <> log_file (cwd w) "Bot2" ->
               disk w' !! k = disk w !! k).
Proof.
  intros w.
  apply (rename_agent_moves "Bot1" "Bot2" "interactions: []" w);
    [reflexivity | reflexivity | discriminate | a_tree | run | run
    | vm_compute; discriminate | run].
Defined.

(** X29 at [Bot1] renamed onto [Bot2], which has a configuration file. *)
Lemma rename_agent_onto_agent_Bot1 :
  let w := app "Bot1" []
             [(["agents"], Dir); (["agents"; "Bot1.yaml"], File "one");
              (["agents"; "Bot1"], Dir); (["agents"; "Bot1"; "config.json"], File "{}");
              (["agents"; "Bot2.yaml"], File "two");
              (["agents"; "Bot2"], Dir); (["agents"; "Bot2"; "config.json"], File "{}")] in
  rename_agent "Bot1" "Bot2" w
  = (set_disk (<[log_file (cwd w) "Bot2" := File "one"]>
               (delete (log_file (cwd w) "Bot1") (disk w))) w,
     Ret (inl OSError)).
Proof.
  intros w.
  apply (rename_agent_onto_agent "Bot1" "Bot2" "one" "config.json" (File "{}") w);
    [reflexivity | reflexivity | discriminate | a_tree | run | run
    | vm_compute; discriminate | run | run].
Defined.

(** X30 at [Bot1], whose folder is there. *)
Lemma write_agent_config_then_get_agent_config_Bot1 :
  let w := app "Bot1" [] [(["agents"], Dir); (["agents"; "Bot1"], Dir)] in
  let doc := PDict [("commands", PDict [("Say Hello", PBool true)])] in
  let w' := fst (write_agent_config "agents/Bot1/config.json" doc w) in
  get_agent_config 1 w' = (w', Ret doc).
Proof.
  intros w doc w'.
  apply (write_agent_config_then_get_agent_config doc w w' tt);
    [reflexivity | reflexivity | run | lia].
Defined.

(** X15 at [Bot1], whose memory is [None]. *)
Lemma log_interaction_bad_memory_Bot1 :
  log_interaction "user" "hi" (empty_app "Bot1") = (empty_app "Bot1", Raise TypeError).
Proof.
  apply (proj1 (proj2 (log_interaction_bad_memory (empty_app "Bot1") "user" "hi"))).
  intros d. discriminate.
Defined.

End ClosedRest.
